(** * nlnog-ring-exporter: a shallow embedding of the Fleet Session Core

    The development follows the Python sources:
    - [core/node_manager.py]    (field values, balanced sampling, roster
                                 normalisation, session reconciliation,
                                 healthy-node queries),
    - [core/session_manager.py] (the set of active control masters),
    - [core/ping.py]            (classification of a remote ping),
    - [core/node_cache_store.py](the persisted roster),
    - [core/geo.py], [app/routes.py] (continent lookup, the /probe handler).

    Conventions of the model:
    - Python values are [pyval] ([None], booleans, integers, strings); a
      dict with string keys is a [gmap string pyval]; a set of strings is a
      [gset string]; a raised exception is the [Raise] case of [result].
    - Text is ASCII: case mapping acts on the letters A-Z and a-z, blanks
      and line breaks are the ASCII ones, and the characters of a JSON
      string are code points below 256.
    - A node is a dict object with an identity ([id(n)]), because
      [_balanced_sample] compares identities.
    - The random module is a stream of choices threaded through the code;
      every selection [random.sample] can make is made for some stream
      ([random_sample_complete]).
    - Subprocesses are answered by an oracle indexed by the number of calls
      made so far; every call is logged together with the set of active
      sessions at that moment.
    - Worker pools are run by one worker, in the order of submission.
    - Hostnames handed to the session manager are strings, as its type
      annotations say.
    - [float], the resolver and the country-conversion dataset are
      parameters. *)

From Stdlib Require Import ZArith Ascii String.
From stdpp Require Import gmap strings list fin_maps sorting.

Open Scope string_scope.
Open Scope Z_scope.

#[local] Set Warnings "-clear-no-such-hyp".

(** ** Python exceptions and results *)

Inductive exn : Set :=
  | KeyError | AttributeError | ValueError | ZeroDivisionError
  | IndexError | TypeError | TimeoutExpired | CalledProcessError | OSError
  | JSONDecodeError.

Inductive result (A : Type) : Type :=
  | Ok (a : A)
  | Raise (e : exn).
Arguments Ok {A} a.
Arguments Raise {A} e.

Definition rbind {A B} (m : result A) (k : A → result B) : result B :=
  match m with
  | Ok a => k a
  | Raise e => Raise e
  end.

Notation "'let?' x := m 'in' k" := (rbind m (fun x => k))
  (at level 10, x pattern, m at level 100, k at level 200).

Fixpoint rmap {A B} (f : A → result B) (l : list A) : result (list B) :=
  match l with
  | [] => Ok []
  | x :: l' => let? y := f x in let? ys := rmap f l' in Ok (y :: ys)
  end.

(** [[x for x in l if p(x)]] where [p] may raise. *)
Fixpoint rfilter {A} (p : A → result bool) (l : list A) : result (list A) :=
  match l with
  | [] => Ok []
  | x :: l' =>
      let? b := p x in
      let? ys := rfilter p l' in
      Ok (if b then x :: ys else ys)
  end.

(** ** Python values *)

Inductive pyval : Set :=
  | PNone
  | PBool (b : bool)
  | PInt (z : Z)
  | PStr (s : string).

#[global] Instance pyval_eq_dec : EqDecision pyval.
Proof. solve_decision. Defined.

(** Truth value testing ([bool(v)]). *)
Definition truthy (v : pyval) : bool :=
  match v with
  | PNone => false
  | PBool b => b
  | PInt z => negb (z =? 0)
  | PStr s => negb (String.eqb s "")
  end.

(** [a or b] *)
Definition py_or (a b : pyval) : pyval := if truthy a then a else b.

(** A Python [dict] with string keys. *)
Abbreviation dict := (gmap string pyval).

(** [d[k]] *)
Definition getitem (d : dict) (k : string) : result pyval :=
  match d !! k with
  | Some v => Ok v
  | None => Raise KeyError
  end.

(** [d.get(k)], where the key itself may be [None] (never a key of a
    string-keyed dict). *)
Definition dict_get (d : dict) (k : option string) : pyval :=
  match k with
  | Some k => default PNone (d !! k)
  | None => PNone
  end.

(** ** Strings *)

Definition is_upper (c : ascii) : bool :=
  let n := nat_of_ascii c in ((65 <=? n) && (n <=? 90))%nat.
Definition is_lower (c : ascii) : bool :=
  let n := nat_of_ascii c in ((97 <=? n) && (n <=? 122))%nat.

Definition lower_ascii (c : ascii) : ascii :=
  if is_upper c then ascii_of_nat (nat_of_ascii c + 32) else c.
Definition upper_ascii (c : ascii) : ascii :=
  if is_lower c then ascii_of_nat (nat_of_ascii c - 32) else c.

Fixpoint str_map (f : ascii → ascii) (s : string) : string :=
  match s with
  | EmptyString => EmptyString
  | String c s' => String (f c) (str_map f s')
  end.

(** [s.lower()], [s.upper()] *)
Definition lower (s : string) : string := str_map lower_ascii s.
Definition upper (s : string) : string := str_map upper_ascii s.

(** [s.split(sep)] for a one-character separator: never empty. *)
Fixpoint split_on (sep : ascii) (s : string) : list string :=
  match s with
  | EmptyString => [EmptyString]
  | String c s' =>
      if Ascii.eqb c sep then EmptyString :: split_on sep s'
      else match split_on sep s' with
           | [] => [String c EmptyString]
           | h :: t => String c h :: t
           end
  end.

(** [l[i]] on a list *)
Definition list_item {A} (l : list A) (i : nat) : result A :=
  match l !! i with
  | Some x => Ok x
  | None => Raise IndexError
  end.

(** Method calls on values that are only defined on [str]. *)
Definition py_split (v : pyval) (sep : ascii) : result (list string) :=
  match v with
  | PStr s => Ok (split_on sep s)
  | _ => Raise AttributeError
  end.
Definition py_lower (v : pyval) : result string :=
  match v with
  | PStr s => Ok (lower s)
  | _ => Raise AttributeError
  end.
Definition py_upper (v : pyval) : result string :=
  match v with
  | PStr s => Ok (upper s)
  | _ => Raise AttributeError
  end.

(** ** core/node_manager.py: filter fields *)

(** The keys of [NODE_FILTER_FIELDS]. *)
Inductive field : Set :=
  | F_node | F_asn | F_city | F_countrycode | F_continent | F_company.

#[global] Instance field_eq_dec : EqDecision field.
Proof. solve_decision. Defined.

(** Query-parameter name of a field. *)
Definition field_name (f : field) : string :=
  match f with
  | F_node => "node"
  | F_asn => "asn"
  | F_city => "city"
  | F_countrycode => "countrycode"
  | F_continent => "continent"
  | F_company => "company"
  end.

(** Maps a filter field to the key in the node dict; ["node"] maps to
    [None] and is handled through the hostname. *)
Definition NODE_FILTER_FIELDS (f : field) : option string :=
  match f with
  | F_node => None
  | F_asn => Some "asn"
  | F_city => Some "city"
  | F_countrycode => Some "countrycode"
  | F_continent => Some "continent"
  | F_company => Some "company"
  end.

Definition all_fields : list field :=
  [F_node; F_asn; F_city; F_countrycode; F_continent; F_company].

(** A node is a dict object: [oid] is its identity ([id(n)]), [ofields]
    its contents. *)
Record node_obj : Type := NodeObj { oid : nat; ofields : dict }.

Definition _node_field_value (node : node_obj) (f : field) : result pyval :=
  match f with
  | F_node =>
      let? h := getitem (ofields node) "hostname" in
      let? parts := py_split h "."%char in
      let? short := list_item parts 0 in
      Ok (PStr short)
  | _ => Ok (py_or (dict_get (ofields node) (NODE_FILTER_FIELDS f)) (PStr ""))
  end.

(** ** The random module

    The generator is a stream of choices; [draw] consumes one.  Every
    arrangement of [k] distinct positions of the population is the result
    of [random_sample] for some stream ([pick_complete] below). *)

Definition rng := list nat.

Definition draw (g : rng) : nat * rng :=
  match g with
  | [] => (0%nat, [])
  | c :: g' => (c, g')
  end.

(** Code that draws random numbers and may raise. *)
Definition R (A : Type) : Type := rng → result (A * rng).

Definition Rret {A} (a : A) : R A := fun g => Ok (a, g).
Definition Rbind {A B} (m : R A) (k : A → R B) : R B :=
  fun g => match m g with
           | Ok (a, g') => k a g'
           | Raise e => Raise e
           end.
Definition Rlift {A} (m : result A) : R A :=
  fun g => match m with Ok a => Ok (a, g) | Raise e => Raise e end.

Notation "'let*' x := m 'in' k" := (Rbind m (fun x => k))
  (at level 10, x pattern, m at level 100, k at level 200).

(** Draw [k] elements at distinct positions of [pool]. *)
Fixpoint pick {A} (k : nat) (pool : list A) (g : rng) : list A * rng :=
  match k with
  | O => ([], g)
  | S k' =>
      let '(c, g1) := draw g in
      let i := (c mod length pool)%nat in
      match pool !! i with
      | None => ([], g1)
      | Some x =>
          let '(r, g2) := pick k' (delete i pool) g1 in
          (x :: r, g2)
      end
  end.

(** [random.sample(population, k)] *)
Definition random_sample {A} (population : list A) (k : Z) : R (list A) :=
  fun g =>
    if (0 <=? k) && (k <=? Z.of_nat (length population))
    then Ok (pick (Z.to_nat k) population g)
    else Raise ValueError.

(** [random.shuffle(x)]; the shuffled list is returned. *)
Definition random_shuffle {A} (x : list A) : R (list A) :=
  fun g => Ok (pick (length x) x g).

(** ** Insertion-ordered dictionaries with arbitrary keys *)

Section pydict.
Context {K V : Type} `{EqDecision K}.

Fixpoint pd_get (d : list (K * V)) (k : K) : option V :=
  match d with
  | [] => None
  | (k', v) :: d' => if decide (k' = k) then Some v else pd_get d' k
  end.

(** [d[k] = v]: replaces in place, or appends a new key. *)
Fixpoint pd_set (d : list (K * V)) (k : K) (v : V) : list (K * V) :=
  match d with
  | [] => [(k, v)]
  | (k', v') :: d' =>
      if decide (k' = k) then (k', v) :: d' else (k', v') :: pd_set d' k v
  end.

(** [d[k]] *)
Definition pd_getitem (d : list (K * V)) (k : K) : result V :=
  match pd_get d k with
  | Some v => Ok v
  | None => Raise KeyError
  end.

(** [list(d.keys())] *)
Definition pd_keys (d : list (K * V)) : list K := d.*1.
End pydict.

(** ** core/node_manager.py: [_balanced_sample] *)

(** The [filters] argument: field name to set of allowed values, in
    insertion order. *)
Abbreviation filters_t := (list (field * gset string)).

Definition len {A} (l : list A) : Z := Z.of_nat (length l).

(** [[f for f, vals in filters.items() if len(vals) > 1]] *)
Definition balance_fields_of (filters : filters_t) : list field :=
  (List.filter (fun fv => (1 <? size (snd fv))%nat) filters).*1.

(** [tuple(_node_field_value(node, f).lower() for f in balance_fields)] *)
Definition group_key (balance_fields : list field) (node : node_obj)
  : result (list string) :=
  rmap (fun f => let? v := _node_field_value node f in py_lower v)
       balance_fields.

(** [groups.setdefault(key, []).append(node)] *)
Definition groups_add (groups : list (list string * list node_obj))
    (key : list string) (node : node_obj) :=
  match pd_get groups key with
  | Some members => pd_set groups key (members ++ [node])%list
  | None => pd_set groups key [node]
  end.

Fixpoint build_groups (balance_fields : list field) (nodes : list node_obj)
    (groups : list (list string * list node_obj))
  : result (list (list string * list node_obj)) :=
  match nodes with
  | [] => Ok groups
  | node :: rest =>
      let? key := group_key balance_fields node in
      build_groups balance_fields rest (groups_add groups key node)
  end.

(** [divmod(a, b)] *)
Definition divmod (a b : Z) : result (Z * Z) :=
  if b =? 0 then Raise ZeroDivisionError else Ok (a / b, a mod b).

(** The dict comprehension over [enumerate(group_keys)], from index [i]. *)
Fixpoint make_quotas (base_quota remainder : Z) (i : Z)
    (group_keys : list (list string)) (quotas : list (list string * Z))
  : list (list string * Z) :=
  match group_keys with
  | [] => quotas
  | key :: rest =>
      make_quotas base_quota remainder (i + 1) rest
        (pd_set quotas key (base_quota + (if i <? remainder then 1 else 0)))
  end.

(** The loop [for key in group_keys] that fills [result] and [shortfall]. *)
Fixpoint take_loop (groups : list (list string * list node_obj))
    (quotas : list (list string * Z)) (group_keys : list (list string))
    (res : list node_obj) (shortfall : Z) : R (list node_obj * Z) :=
  match group_keys with
  | [] => Rret (res, shortfall)
  | key :: rest =>
      let* group := Rlift (pd_getitem groups key) in
      let* quota := Rlift (pd_getitem quotas key) in
      let take := Z.min quota (len group) in
      let* s := random_sample group take in
      take_loop groups quotas rest (res ++ s)%list (shortfall + (quota - take))
  end.

Definition _balanced_sample (nodes : list node_obj) (limit : Z)
    (filters : filters_t) : R (list node_obj) :=
  let balance_fields := balance_fields_of filters in
  match balance_fields with
  | [] => random_sample nodes limit
  | _ =>
      let* groups := Rlift (build_groups balance_fields nodes []) in
      let* group_keys := random_shuffle (pd_keys groups) in
      let* dm := Rlift (divmod limit (len group_keys)) in
      let base_quota := fst dm in
      let remainder := snd dm in
      let quotas := make_quotas base_quota remainder 0 group_keys [] in
      let* rs := take_loop groups quotas group_keys [] 0 in
      let res := fst rs in
      let shortfall := snd rs in
      if 0 <? shortfall then
        let selected : gset nat := list_to_set (oid <$> res) in
        let remaining := filter (fun n => oid n ∉ selected) nodes in
        match remaining with
        | [] => Rret res
        | _ =>
            let* extra :=
              random_sample remaining (Z.min shortfall (len remaining)) in
            Rret (res ++ extra)%list
        end
      else Rret res
  end.

(** ** core/node_manager.py: [fetch_healthy_nodes] *)

(** [session_health.get(k)] for an arbitrary key: the keys of the health
    map are hostnames (strings), so another value is never found. *)
Definition health_get (session_health : gmap string string) (k : pyval)
  : option string :=
  match k with
  | PStr h => session_health !! h
  | _ => None
  end.

(** [session_health.get(n["hostname"]) == "healthy"] *)
Definition is_healthy (session_health : gmap string string) (n : node_obj)
  : result bool :=
  let? h := getitem (ofields n) "hostname" in
  Ok (bool_decide (health_get session_health h = Some "healthy")).

(** [_node_field_value(n, field).lower() in allowed_values] *)
Definition passes_filter (fv : field * gset string) (n : node_obj)
  : result bool :=
  let? v := _node_field_value n (fst fv) in
  let? s := py_lower v in
  Ok (bool_decide (s ∈ snd fv)).

(** The loop [for field, allowed_values in filters.items()]. *)
Fixpoint apply_filters (filters : filters_t) (healthy : list node_obj)
  : result (list node_obj) :=
  match filters with
  | [] => Ok healthy
  | fv :: rest =>
      let? healthy' := rfilter (passes_filter fv) healthy in
      apply_filters rest healthy'
  end.

(** [limit] is [None] or an integer; an absent or empty [filters] is []. *)
Definition fetch_healthy_nodes (node_cache : list node_obj)
    (session_health : gmap string string)
    (limit : option Z) (filters : filters_t) : R (list node_obj) :=
  let nodes := node_cache in
  let* healthy := Rlift (rfilter (is_healthy session_health) nodes) in
  let* healthy :=
    Rlift (match filters with
           | [] => Ok healthy
           | _ => apply_filters filters healthy
           end) in
  match limit with
  | Some limit =>
      if limit <? len healthy then
        match filters with
        | [] => random_sample healthy limit
        | _ => _balanced_sample healthy limit filters
        end
      else Rret healthy
  | None => Rret healthy
  end.

(** ** More string operations *)

(** [sub in s] *)
Fixpoint contains (sub s : string) : bool :=
  String.prefix sub s ||
  match s with
  | EmptyString => false
  | String _ s' => contains sub s'
  end.

(** [s.index(c)] / [s.rindex(c)] for a character; [None] is [ValueError]. *)
Fixpoint find_char (c : ascii) (s : string) : option nat :=
  match s with
  | EmptyString => None
  | String a s' =>
      if Ascii.eqb a c then Some 0%nat else S <$> find_char c s'
  end.

Fixpoint rfind_char (c : ascii) (s : string) : option nat :=
  match s with
  | EmptyString => None
  | String a s' =>
      match rfind_char c s' with
      | Some i => Some (S i)
      | None => if Ascii.eqb a c then Some 0%nat else None
      end
  end.

(** [s[n:]] and [s[:n]] *)
Fixpoint str_drop (n : nat) (s : string) : string :=
  match n, s with
  | O, _ => s
  | S n', EmptyString => EmptyString
  | S n', String _ s' => str_drop n' s'
  end.

Fixpoint str_take (n : nat) (s : string) : string :=
  match n, s with
  | O, _ => EmptyString
  | S n', EmptyString => EmptyString
  | S n', String c s' => String c (str_take n' s')
  end.

(** [s[a:b]] for non-negative bounds. *)
Definition str_slice (a b : nat) (s : string) : string :=
  str_take (b - a) (str_drop a s).

(** [s.replace(old, new)] for a non-empty [old]; [skip] characters of a
    match just replaced are still to be passed over. *)
Fixpoint replace_from (old new : string) (skip : nat) (s : string) : string :=
  match s with
  | EmptyString => EmptyString
  | String c s' =>
      match skip with
      | S k => replace_from old new k s'
      | O =>
          if String.prefix old s
          then new ++ replace_from old new (String.length old - 1) s'
          else String c (replace_from old new 0 s')
      end
  end.

Definition str_replace (old new s : string) : string :=
  match old with
  | EmptyString => s
  | _ => replace_from old new 0 s
  end.

(** Whitespace as [str.isspace] sees it on ASCII text. *)
Definition is_space (c : ascii) : bool :=
  let n := nat_of_ascii c in
  (((9 <=? n) && (n <=? 13)) || ((28 <=? n) && (n <=? 32)))%nat.

Fixpoint lstrip (s : string) : string :=
  match s with
  | EmptyString => EmptyString
  | String c s' => if is_space c then lstrip s' else s
  end.

Fixpoint rstrip (s : string) : string :=
  match s with
  | EmptyString => EmptyString
  | String c s' =>
      match rstrip s' with
      | EmptyString => if is_space c then EmptyString else String c EmptyString
      | r => String c r
      end
  end.

(** [s.strip()] *)
Definition strip (s : string) : string := rstrip (lstrip s).

(** [s.rstrip("/")] *)
Fixpoint rstrip_slash (s : string) : string :=
  match s with
  | EmptyString => EmptyString
  | String c s' =>
      match rstrip_slash s' with
      | EmptyString =>
          if Ascii.eqb c "/" then EmptyString else String c EmptyString
      | r => String c r
      end
  end.

(** [os.path.dirname], [os.path.basename], [os.path.join] (POSIX). *)
Definition split_point (p : string) : nat :=
  match rfind_char "/" p with
  | Some i => S i
  | None => O
  end.

Definition dirname (p : string) : string :=
  let head := str_take (split_point p) p in
  match rstrip_slash head with
  | EmptyString => head
  | stripped => stripped
  end.

Definition basename (p : string) : string := str_drop (split_point p) p.

Definition path_join (a b : string) : string :=
  if String.prefix "/" b then b
  else match a with
       | EmptyString => b
       | _ => if String.eqb (str_drop (String.length a - 1) a) "/"
              then a ++ b else a ++ "/" ++ b
       end.

(** ** Subprocesses and the state of the exporter *)

(** The external commands the exporter runs. *)
Inductive command : Set :=
  | SshMaster (control_path destination : string)
  | SshCheck (control_path destination : string)
  | SshExit (control_path destination : string)
  | SshPing (control_path node remote_command : string).

(** What the operating system answers to a subprocess call. *)
Inductive proc_result : Set :=
  | Exited (returncode : Z) (output : string)
  | ProcTimeout
  | ProcOSError.

(** The mutable state: [SSHSessionManager.active_sessions], the three
    fields of [NodeManager], the next free object identity, the cache file,
    the entries of the control directory ([None]: no such directory) and
    the log of subprocess calls, each with the set of active sessions at
    the moment of the call (latest first). *)
Record state : Type := State {
  active_sessions : gset string;
  node_cache : list node_obj;
  session_health : gmap string string;
  _startup_done : bool;
  next_oid : nat;
  cache_file : option string;
  control_dir : option (list string);
  calls : list (command * gset string);
}.

Definition set_active (f : gset string → gset string) (s : state) : state :=
  State (f (active_sessions s)) (node_cache s) (session_health s)
        (_startup_done s) (next_oid s) (cache_file s) (control_dir s) (calls s).
Definition set_node_cache (v : list node_obj) (s : state) : state :=
  State (active_sessions s) v (session_health s)
        (_startup_done s) (next_oid s) (cache_file s) (control_dir s) (calls s).
Definition set_health (f : gmap string string → gmap string string)
    (s : state) : state :=
  State (active_sessions s) (node_cache s) (f (session_health s))
        (_startup_done s) (next_oid s) (cache_file s) (control_dir s) (calls s).
Definition set_startup_done (v : bool) (s : state) : state :=
  State (active_sessions s) (node_cache s) (session_health s)
        v (next_oid s) (cache_file s) (control_dir s) (calls s).
Definition set_next_oid (v : nat) (s : state) : state :=
  State (active_sessions s) (node_cache s) (session_health s)
        (_startup_done s) v (cache_file s) (control_dir s) (calls s).
Definition set_cache_file (v : option string) (s : state) : state :=
  State (active_sessions s) (node_cache s) (session_health s)
        (_startup_done s) (next_oid s) v (control_dir s) (calls s).
Definition set_control_dir (v : option (list string)) (s : state) : state :=
  State (active_sessions s) (node_cache s) (session_health s)
        (_startup_done s) (next_oid s) (cache_file s) v (calls s).
Definition log_call (c : command) (s : state) : state :=
  State (active_sessions s) (node_cache s) (session_health s)
        (_startup_done s) (next_oid s) (cache_file s) (control_dir s)
        ((c, active_sessions s) :: calls s).

(** Stateful code that may raise; the state survives an exception. *)
Definition M (A : Type) : Type := state → result A * state.

Definition Mret {A} (a : A) : M A := fun s => (Ok a, s).
Definition Mraise {A} (e : exn) : M A := fun s => (Raise e, s).
Definition Mbind {A B} (m : M A) (k : A → M B) : M B :=
  fun s => match m s with
           | (Ok a, s') => k a s'
           | (Raise e, s') => (Raise e, s')
           end.
Definition Mget : M state := fun s => (Ok s, s).
Definition Mmodify (f : state → state) : M unit := fun s => (Ok tt, f s).
(** [try: body except Exception as e: handler(e)] *)
Definition Mtry {A} (body : M A) (handler : exn → M A) : M A :=
  fun s => match body s with
           | (Ok a, s') => (Ok a, s')
           | (Raise e, s') => handler e s'
           end.

Notation "'let!' x := m 'in' k" := (Mbind m (fun x => k))
  (at level 10, x pattern, m at level 100, k at level 200).

(** [for x in l: body(x)] *)
Fixpoint Mfor {A} (l : list A) (body : A → M unit) : M unit :=
  match l with
  | [] => Mret tt
  | x :: l' => let! _ := body x in Mfor l' body
  end.

(** ** JSON text of a roster ([json.dump] / [json.load])

    The encoder follows [json.dump] with its defaults ([ensure_ascii], the
    separators [", "] and [": "]).  The decoder reads the JSON fragment a
    roster needs: an array of objects whose values are [null], booleans,
    integers or strings; characters are code points below 256.  Text
    outside this fragment is treated as undecodable. *)

Definition dquote : ascii := "034"%char.
Definition backslash : ascii := "092"%char.

Definition hex_digit (n : nat) : ascii :=
  if (n <? 10)%nat then ascii_of_nat (48 + n) else ascii_of_nat (87 + n).

Definition hex_value (c : ascii) : option nat :=
  let n := nat_of_ascii c in
  if ((48 <=? n) && (n <=? 57))%nat then Some (n - 48)%nat
  else if ((97 <=? n) && (n <=? 102))%nat then Some (n - 87)%nat
  else if ((65 <=? n) && (n <=? 70))%nat then Some (n - 55)%nat
  else None.

(** One character of a string, as [json] writes it. *)
Definition escape_char (c : ascii) : string :=
  let n := nat_of_ascii c in
  if Ascii.eqb c dquote then String backslash (String dquote EmptyString)
  else if Ascii.eqb c backslash then String backslash (String backslash EmptyString)
  else if (n =? 10)%nat then String backslash "n"
  else if (n =? 13)%nat then String backslash "r"
  else if (n =? 9)%nat then String backslash "t"
  else if (n =? 8)%nat then String backslash "b"
  else if (n =? 12)%nat then String backslash "f"
  else if ((n <? 32) || (126 <? n))%nat then
    String backslash
      (String "u" (String "0" (String "0"
         (String (hex_digit (n / 16)) (String (hex_digit (n mod 16)) EmptyString)))))
  else String c EmptyString.

Fixpoint escape_chars (s : string) : string :=
  match s with
  | EmptyString => EmptyString
  | String c s' => escape_char c ++ escape_chars s'
  end.

Definition encode_string (s : string) : string :=
  String dquote (escape_chars s ++ String dquote EmptyString).

(** Decimal digits of a natural number, most significant first. *)
Fixpoint digits_of (fuel : nat) (n : N) (acc : string) : string :=
  match fuel with
  | O => acc
  | S fuel' =>
      let acc' := String (ascii_of_N (48 + n mod 10)) acc in
      if (n / 10 =? 0)%N then acc' else digits_of fuel' (n / 10)%N acc'
  end.

Definition N_to_string (n : N) : string :=
  digits_of (S (N.to_nat (N.log2 n))) n EmptyString.

(** [str(z)] for an integer. *)
Definition Z_to_string (z : Z) : string :=
  if z <? 0 then String "-" (N_to_string (Z.abs_N z)) else N_to_string (Z.abs_N z).

Definition encode_value (v : pyval) : string :=
  match v with
  | PNone => "null"
  | PBool true => "true"
  | PBool false => "false"
  | PInt z => Z_to_string z
  | PStr s => encode_string s
  end.

Definition encode_member (kv : string * pyval) : string :=
  encode_string (fst kv) ++ ": " ++ encode_value (snd kv).

(** [sep.join(items)] *)
Fixpoint join (sep : string) (items : list string) : string :=
  match items with
  | [] => EmptyString
  | [x] => x
  | x :: rest => x ++ sep ++ join sep rest
  end.

Definition encode_dict (d : dict) : string :=
  "{" ++ join ", " (encode_member <$> map_to_list d) ++ "}".

(** [json.dumps(nodes)] *)
Definition json_dumps (nodes : list dict) : string :=
  "[" ++ join ", " (encode_dict <$> nodes) ++ "]".

(** *** Decoding *)

(** JSON whitespace. *)
Definition is_json_ws (c : ascii) : bool :=
  let n := nat_of_ascii c in
  ((n =? 32) || (n =? 9) || (n =? 10) || (n =? 13))%nat.

Fixpoint skip_ws (s : string) : string :=
  match s with
  | EmptyString => EmptyString
  | String c s' => if is_json_ws c then skip_ws s' else s
  end.

(** The characters of a string after its opening quote, up to and
    including the closing quote; returns the string and the rest. *)
Fixpoint parse_string_body (s : string) : option (string * string) :=
  match s with
  | EmptyString => None
  | String c s1 =>
      if Ascii.eqb c dquote then Some (EmptyString, s1)
      else if Ascii.eqb c backslash then
        match s1 with
        | EmptyString => None
        | String e s2 =>
            let plain (ch : ascii) :=
              match parse_string_body s2 with
              | Some (r, rest) => Some (String ch r, rest)
              | None => None
              end in
            if Ascii.eqb e dquote then plain dquote
            else if Ascii.eqb e backslash then plain backslash
            else if Ascii.eqb e "/" then plain "/"%char
            else if Ascii.eqb e "n" then plain "010"%char
            else if Ascii.eqb e "r" then plain "013"%char
            else if Ascii.eqb e "t" then plain "009"%char
            else if Ascii.eqb e "b" then plain "008"%char
            else if Ascii.eqb e "f" then plain "012"%char
            else if Ascii.eqb e "u" then
              match s2 with
              | String h1 (String h2 (String h3 (String h4 s6))) =>
                  match hex_value h1, hex_value h2, hex_value h3, hex_value h4 with
                  | Some 0%nat, Some 0%nat, Some a, Some b =>
                      match parse_string_body s6 with
                      | Some (r, rest) =>
                          Some (String (ascii_of_nat (16 * a + b)) r, rest)
                      | None => None
                      end
                  | _, _, _, _ => None
                  end
              | _ => None
              end
            else None
        end
      else if (nat_of_ascii c <? 32)%nat then None
      else
        match parse_string_body s1 with
        | Some (r, rest) => Some (String c r, rest)
        | None => None
        end
  end.

Definition parse_string (s : string) : option (string * string) :=
  match s with
  | String c s' => if Ascii.eqb c dquote then parse_string_body s' else None
  | EmptyString => None
  end.

Definition digit_value (c : ascii) : option N :=
  let n := N_of_ascii c in
  if ((48 <=? n) && (n <=? 57))%N then Some (n - 48)%N else None.

(** Reads the digits at the head of [s] onto the value [v]. *)
Fixpoint read_digits (s : string) (v : N) : N * string :=
  match s with
  | EmptyString => (v, EmptyString)
  | String c s' =>
      match digit_value c with
      | Some d => read_digits s' (10 * v + d)%N
      | None => (v, s)
      end
  end.

(** A JSON integer: an optional minus sign, then [0] or digits without a
    leading zero; a fraction or an exponent is outside the fragment. *)
Definition parse_nat (s : string) : option (N * string) :=
  match s with
  | String c s' =>
      match digit_value c with
      | Some d =>
          let '(v, rest) := read_digits s N0 in
          let bad_next :=
            match rest with
            | String r _ => Ascii.eqb r "." || Ascii.eqb r "e" || Ascii.eqb r "E"
            | EmptyString => false
            end in
          let leading_zero :=
            match s' with
            | String c2 _ => (d =? 0)%N && bool_decide (is_Some (digit_value c2))
            | EmptyString => false
            end in
          if bad_next || leading_zero then None else Some (v, rest)
      | None => None
      end
  | EmptyString => None
  end.

Definition parse_value (s : string) : option (pyval * string) :=
  match s with
  | String c s' =>
      if Ascii.eqb c dquote then
        match parse_string_body s' with
        | Some (r, rest) => Some (PStr r, rest)
        | None => None
        end
      else if String.prefix "null" s then Some (PNone, str_drop 4 s)
      else if String.prefix "true" s then Some (PBool true, str_drop 4 s)
      else if String.prefix "false" s then Some (PBool false, str_drop 5 s)
      else if Ascii.eqb c "-" then
        match parse_nat s' with
        | Some (n, rest) => Some (PInt (- Z.of_N n), rest)
        | None => None
        end
      else
        match parse_nat s with
        | Some (n, rest) => Some (PInt (Z.of_N n), rest)
        | None => None
        end
  | EmptyString => None
  end.

(** One [key: value] pair. *)
Definition parse_member (s : string) : option ((string * pyval) * string) :=
  match parse_string s with
  | Some (k, rest) =>
      match skip_ws rest with
      | String c rest' =>
          if Ascii.eqb c ":" then
            match parse_value (skip_ws rest') with
            | Some (v, rest'') => Some ((k, v), rest'')
            | None => None
            end
          else None
      | EmptyString => None
      end
  | None => None
  end.

(** A comma-separated sequence of items closed by [close]; [s] starts at
    an item. *)
Fixpoint parse_items {A} (item : string → option (A * string)) (close : ascii)
    (fuel : nat) (s : string) : option (list A * string) :=
  match fuel with
  | O => None
  | S fuel' =>
      match item s with
      | Some (x, rest) =>
          match skip_ws rest with
          | String c rest' =>
              if Ascii.eqb c close then Some ([x], rest')
              else if Ascii.eqb c "," then
                match parse_items item close fuel' (skip_ws rest') with
                | Some (xs, rest'') => Some (x :: xs, rest'')
                | None => None
                end
              else None
          | EmptyString => None
          end
      | None => None
      end
  end.

(** A bracketed sequence: [open], items, [close]. *)
Definition parse_seq {A} (item : string → option (A * string))
    (open close : ascii) (s : string) : option (list A * string) :=
  match s with
  | String c s' =>
      if Ascii.eqb c open then
        match skip_ws s' with
        | String c' rest =>
            if Ascii.eqb c' close then Some ([], rest)
            else parse_items item close (String.length s) (skip_ws s')
        | EmptyString => None
        end
      else None
  | EmptyString => None
  end.

(** An object; a repeated key keeps its last value. *)
Definition parse_dict (s : string) : option (dict * string) :=
  match parse_seq parse_member "{" "}" s with
  | Some (members, rest) =>
      Some (foldl (fun (d : dict) kv => <[fst kv := snd kv]> d) ∅ members, rest)
  | None => None
  end.

(** [json.loads(text)] for a roster. *)
Definition json_loads (text : string) : result (list dict) :=
  match parse_seq parse_dict "[" "]" (skip_ws text) with
  | Some (nodes, rest) =>
      match skip_ws rest with
      | EmptyString => Ok nodes
      | _ => Raise JSONDecodeError
      end
  | None => Raise JSONDecodeError
  end.

(** ** The exporter, over its environment *)

Section Exporter.

(** The n-th subprocess call of a run is answered by [env n]. *)
Variable env : nat → proc_result.

(** core/config.py *)
Variable SSH_USERNAME : string.
Variable SSH_CONTROL_PATH_TEMPLATE : string.
Variable HOME : string.

(** The country-conversion dataset behind core/geo.py:
    [coco_convert to code] is [_cc.convert(code, src="ISO2", to=to)]. *)
Variable coco_convert : string → string → string.

(** [os.path.expanduser] for the forms [~] and [~/...]. *)
Definition expanduser (path : string) : string :=
  if String.eqb path "~" || String.prefix "~/" path
  then HOME ++ str_drop 1 path else path.

Definition ssh_control_path (hostname : string) : string :=
  let path :=
    str_replace "%p" "22"
      (str_replace "%h" hostname
         (str_replace "%r" SSH_USERNAME SSH_CONTROL_PATH_TEMPLATE)) in
  expanduser path.

(** [subprocess.run(cmd, ...)]: logs the call and returns the exit code. *)
Definition subprocess_run (cmd : command) : M Z :=
  fun s =>
    let s' := log_call cmd s in
    match env (length (calls s)) with
    | Exited rc _ => (Ok rc, s')
    | ProcTimeout => (Raise TimeoutExpired, s')
    | ProcOSError => (Raise OSError, s')
    end.

(** *** core/session_manager.py *)

Definition start_session (hostname : string) : M bool :=
  let! st := Mget in
  if bool_decide (hostname ∈ active_sessions st) then Mret true
  else
    (* optimistic add *)
    let! _ := Mmodify (set_active (fun a => a ∪ {[hostname]})) in
    Mtry
      (let! rc := subprocess_run
                    (SshMaster (ssh_control_path hostname)
                               (SSH_USERNAME ++ "@" ++ hostname)) in
       if negb (rc =? 0) then
         let! _ := Mmodify (set_active (fun a => a ∖ {[hostname]})) in
         Mret false
       else Mret true)
      (fun _ =>
         let! _ := Mmodify (set_active (fun a => a ∖ {[hostname]})) in
         Mret false).

Definition stop_session (hostname : string) : M unit :=
  let! st := Mget in
  if negb (bool_decide (hostname ∈ active_sessions st)) then Mret tt
  else
    let! _ := Mmodify (set_active (fun a => a ∖ {[hostname]})) in
    Mtry
      (let! _ := subprocess_run
                   (SshExit (ssh_control_path hostname)
                            (SSH_USERNAME ++ "@" ++ hostname)) in
       Mret tt)
      (fun _ => Mret tt).

(** The hostname in a socket file name such as [nlnog-rise@hostname:22]. *)
Definition parse_socket_hostname (prefix entry : string) : result string :=
  let remainder := str_drop (String.length prefix) entry in
  match find_char "@" remainder with
  | None => Raise ValueError
  | Some at_idx =>
      match rfind_char ":" remainder with
      | None => Raise ValueError
      | Some colon_idx => Ok (str_slice (at_idx + 1) colon_idx remainder)
      end
  end.

(** [os.remove] of an entry of the control directory. *)
Definition os_remove (entry : string) : M unit :=
  Mmodify (fun s =>
    set_control_dir
      (List.filter (fun e => negb (String.eqb e entry)) <$> control_dir s) s).

Definition cleanup_stale_sockets : M unit :=
  let sample_path :=
    str_replace "%p" "22"
      (str_replace "%h" "x"
         (str_replace "%r" SSH_USERNAME SSH_CONTROL_PATH_TEMPLATE)) in
  let control_directory := dirname sample_path in
  let! st := Mget in
  match control_dir st with
  | None => Mret tt
  | Some entries =>
      let basename_template := basename SSH_CONTROL_PATH_TEMPLATE in
      let prefix := default EmptyString (split_on "%" basename_template !! 0%nat) in
      Mfor entries (fun entry =>
        if negb (String.prefix prefix entry) then Mret tt
        else
          let socket_path := path_join control_directory entry in
          match parse_socket_hostname prefix entry with
          | Raise _ => Mret tt
          | Ok hostname =>
              Mtry
                (let! rc := subprocess_run
                              (SshCheck socket_path
                                        (SSH_USERNAME ++ "@" ++ hostname)) in
                 if rc =? 0 then
                   Mmodify (set_active (fun a => a ∪ {[hostname]}))
                 else os_remove entry)
                (fun e =>
                   match e with
                   | TimeoutExpired => os_remove entry
                   | OSError => Mret tt
                   | _ => Mraise e
                   end)
          end)
  end.

(** [sorted] on a set of strings. *)
Definition str_le (a b : string) : Prop := Is_true (String.leb a b).
Definition sorted (hosts : gset string) : list string :=
  merge_sort str_le (elements hosts).

(** The worker pool is run as one worker: the sessions are started one
    after the other, in sorted order, each followed by its callback. *)
Definition start_sessions_parallel (hostnames : gset string)
    (progress_callback : option (string → bool → M unit)) : M unit :=
  let! st := Mget in
  let to_start := hostnames ∖ active_sessions st in
  if bool_decide (to_start = ∅) then Mret tt
  else
    Mfor (sorted to_start) (fun hostname =>
      let! success := Mtry (start_session hostname) (fun _ => Mret false) in
      match progress_callback with
      | Some callback => callback hostname success
      | None => Mret tt
      end).

Definition sync_sessions (desired_hostnames : gset string) : M unit :=
  let! st := Mget in
  let current := active_sessions st in
  let to_add := desired_hostnames ∖ current in
  let to_remove := current ∖ desired_hostnames in
  let! _ := Mfor (elements to_add)
                 (fun host => let! _ := start_session host in Mret tt) in
  Mfor (elements to_remove) stop_session.

Definition cleanup : M unit :=
  let! st := Mget in
  let hosts := elements (active_sessions st) in
  let! _ := Mfor hosts stop_session in
  Mmodify (set_active (fun _ => ∅)).

(** *** core/geo.py *)

Definition get_continent (alpha2 : string) : string :=
  let result := coco_convert "continent" alpha2 in
  if String.eqb result "not found" then "Unknown"
  else if String.eqb result "America" then
    let region := coco_convert "UNregion" alpha2 in
    if String.eqb region "South America" then "South America"
    else "North America"
  else result.

(** *** core/node_cache_store.py *)

(** Fresh dict objects for a list of dict values. *)
Definition new_objects (contents : list dict) : M (list node_obj) :=
  fun s =>
    (Ok (imap (fun i d => NodeObj (next_oid s + i) d) contents),
     set_next_oid (next_oid s + length contents) s).

(** [disk_ok] tells whether the file operations of this call succeed; a
    failed write leaves the cache file as it was. *)
Definition save_node_cache (disk_ok : bool) (nodes : list node_obj) : M unit :=
  if disk_ok
  then Mmodify (set_cache_file (Some (json_dumps (ofields <$> nodes))))
  else Mret tt.

(** [None] on any error. *)
Definition load_node_cache : M (option (list node_obj)) :=
  let! st := Mget in
  match cache_file st with
  | None => Mret None
  | Some text =>
      match json_loads text with
      | Ok contents => let! nodes := new_objects contents in Mret (Some nodes)
      | Raise _ => Mret None
      end
  end.

(** *** core/node_manager.py: the [NodeManager] *)

(** [str(v)] *)
Definition py_str (v : pyval) : string :=
  match v with
  | PNone => "None"
  | PBool true => "True"
  | PBool false => "False"
  | PInt z => Z_to_string z
  | PStr s => s
  end.

(** [participants.get(key, dflt)]: the participant directory is keyed by
    integer ids, and [True]/[False] compare equal to 1/0. *)
Definition participants_get (participants : gmap Z pyval) (key dflt : pyval)
  : pyval :=
  match key with
  | PInt z => default dflt (participants !! z)
  | PBool b => default dflt (participants !! (if b then 1 else 0))
  | _ => dflt
  end.

(** The answers of the upstream catalog and of the disk during one
    fetch: the participant directory, the raw node list, and whether the
    cache file can be written. *)
Record catalog : Type := Catalog {
  participants_response : result (gmap Z pyval);
  nodes_response : result (list dict);
  disk_ok : bool;
}.

Definition fetch_participants (c : catalog) : gmap Z pyval :=
  match participants_response c with
  | Ok participants => participants
  | Raise _ => ∅
  end.

(** The dict literal of [filter_api_nodes]. *)
Definition node_dict (hostname asn city countrycode continent company : pyval)
  : dict :=
  <["hostname" := hostname]>
  (<["asn" := asn]>
  (<["city" := city]>
  (<["countrycode" := countrycode]>
  (<["continent" := continent]>
  (<["company" := company]> ∅))))).

(** The loop of [filter_api_nodes]; [filtered] is the list built so far. *)
Fixpoint filter_api_nodes_from (raw_nodes : list dict)
    (participants : gmap Z pyval) (filtered : list dict)
  : result (list dict) :=
  match raw_nodes with
  | [] => Ok filtered
  | n :: rest =>
      let? alive4 := getitem n "alive_ipv4" in
      let? alive :=
        (if truthy alive4
         then let? alive6 := getitem n "alive_ipv6" in Ok (truthy alive6)
         else Ok false) in
      if negb alive then filter_api_nodes_from rest participants filtered
      else
        let? ccv := getitem n "countrycode" in
        let? cc := py_upper ccv in
        let continent := get_continent cc in
        let company :=
          participants_get participants (dict_get n (Some "participant"))
                           (PStr "Unknown") in
        let? hostname := getitem n "hostname" in
        let? asn := getitem n "asn" in
        let? city := getitem n "city" in
        let node :=
          node_dict hostname (PStr (py_str asn)) city (PStr cc)
                    (PStr continent) company in
        filter_api_nodes_from rest participants (filtered ++ [node])%list
  end.

Definition filter_api_nodes (raw_nodes : list dict)
    (participants : gmap Z pyval) : result (list dict) :=
  filter_api_nodes_from raw_nodes participants [].

(** [n["hostname"]] as a hostname of the session manager, which takes
    strings; another value is outside the model and stops it. *)
Definition node_hostname (n : node_obj) : result string :=
  let? h := getitem (ofields n) "hostname" in
  match h with
  | PStr s => Ok s
  | _ => Raise TypeError
  end.

(** The callback of [startup_restore_sessions]. *)
Definition _progress (hostname : string) (success : bool) : M unit :=
  if success
  then Mmodify (set_health (fun m => <[hostname := "healthy"]> m))
  else Mret tt.

Definition startup_restore_sessions (c : catalog) : M unit :=
  let! _ := cleanup_stale_sockets in
  let! cached_nodes := load_node_cache in
  let! api_nodes :=
    (let participants := fetch_participants c in
     match (let? raw_nodes := nodes_response c in
            filter_api_nodes raw_nodes participants) with
     | Ok contents =>
         let! api_nodes := new_objects contents in
         let! _ := save_node_cache (disk_ok c) api_nodes in
         Mret (Some api_nodes)
     | Raise _ => Mret None
     end) in
  let nodes := match api_nodes with Some _ => api_nodes | None => cached_nodes end in
  match nodes with
  | None => Mret tt
  | Some nodes =>
      let! _ := Mmodify (set_node_cache nodes) in
      match rmap node_hostname nodes with
      | Raise e => Mraise e
      | Ok hs =>
          let hostnames : gset string := list_to_set hs in
          start_sessions_parallel hostnames (Some _progress)
      end
  end.

Definition check_and_manage_ssh_session (hostname : string) : M bool :=
  let! _ := start_session hostname in
  let control_path := ssh_control_path hostname in
  let! rc := subprocess_run (SshCheck control_path hostname) in
  if rc =? 0 then
    let! _ := Mmodify (set_health (fun m => <[hostname := "healthy"]> m)) in
    Mret true
  else
    let! _ := stop_session hostname in
    let! _ := start_session hostname in
    let! _ := Mmodify (set_health (fun m => <[hostname := "restarted"]> m)) in
    Mret false.

(** One iteration of the loop of [run_cache_loop] (without the wait). *)
Definition refresh_iteration (c : catalog) : M unit :=
  Mtry
    (let participants := fetch_participants c in
     match (let? raw_nodes := nodes_response c in
            filter_api_nodes raw_nodes participants) with
     | Raise e => Mraise e
     | Ok contents =>
         let! filtered := new_objects contents in
         let! _ := save_node_cache (disk_ok c) filtered in
         let! _ := Mmodify (set_node_cache filtered) in
         match rmap node_hostname filtered with
         | Raise e => Mraise e
         | Ok hs =>
             let hostnames : gset string := list_to_set hs in
             let! _ := Mfor (sorted hostnames) (fun h =>
                         Mtry (let! _ := check_and_manage_ssh_session h in Mret tt)
                              (fun _ => Mret tt)) in
             let! st := Mget in
             let stale := dom (session_health st) ∖ hostnames in
             let! _ := Mmodify (set_health (fun m =>
                         foldr (fun h m' => delete h m') m (elements stale))) in
             Mfor (elements stale) stop_session
         end
     end)
    (fun _ => Mret tt).

(** [run_cache_loop], for the catalog answers of the startup and of the
    iterations that run before shutdown. *)
Definition run_cache_loop (startup : catalog) (iterations : list catalog)
  : M unit :=
  let! st := Mget in
  let! _ :=
    (if negb (_startup_done st) then
       let! _ := startup_restore_sessions startup in
       Mmodify (set_startup_done true)
     else Mret tt) in
  Mfor iterations refresh_iteration.

Definition shutdown : M unit := cleanup.

(** *** core/ping.py *)

(** [float(s)], [None] standing for [ValueError]; the values are kept
    abstract. *)
Variable float : Type.
Variable py_float : string → option float.

(** The resolver behind [is_valid_target]. *)
Variable resolves : string → bool.

Variable PING_COUNT PING_TIMEOUT : Z.

Record rtt_stats : Type := RttStats {
  rtt_min : float; rtt_avg : float; rtt_max : float; rtt_mdev : float;
}.

(** Line boundaries of [str.splitlines] on ASCII text. *)
Definition is_linebreak (c : ascii) : bool :=
  let n := nat_of_ascii c in
  (((10 <=? n) && (n <=? 13)) || ((28 <=? n) && (n <=? 30)))%nat.

(** [skip_lf]: the previous character was a carriage return. *)
Fixpoint splitlines_from (skip_lf : bool) (s : string) : list string :=
  match s with
  | EmptyString => []
  | String c s' =>
      if skip_lf && Ascii.eqb c "010" then splitlines_from false s'
      else if is_linebreak c then
        EmptyString :: splitlines_from (Ascii.eqb c "013") s'
      else match splitlines_from false s' with
           | [] => [String c EmptyString]
           | l :: ls => String c l :: ls
           end
  end.

(** [s.splitlines()] *)
Definition splitlines (s : string) : list string := splitlines_from false s.

(** [s.split()] *)
Fixpoint split_ws (s : string) : list string :=
  match s with
  | EmptyString => []
  | String c s' =>
      if is_space c then split_ws s'
      else match s' with
           | EmptyString => [String c EmptyString]
           | String c' _ =>
               if is_space c' then String c EmptyString :: split_ws s'
               else match split_ws s' with
                    | l :: ls => String c l :: ls
                    | [] => [String c EmptyString]
                    end
           end
  end.

Definition to_float (s : string) : result float :=
  match py_float s with
  | Some x => Ok x
  | None => Raise ValueError
  end.

(** [a, b, c, d = map(float, fields)] *)
Definition unpack_floats (fields : list string) : result rtt_stats :=
  match fields with
  | [a; b; c; d] =>
      let? a := to_float a in
      let? b := to_float b in
      let? c := to_float c in
      let? d := to_float d in
      Ok (RttStats a b c d)
  | _ => Raise ValueError
  end.

(** The body of the [try] of [ping_from_node] after the command returned
    [output]: the status and the statistics. *)
Definition classify_output (output : string)
  : result (string * option rtt_stats) :=
  if contains "rtt" output then
    match List.find (String.prefix "rtt") (splitlines output) with
    | None => Ok ("no_rtt", None)
    | Some rtt_line =>
        if String.eqb rtt_line "" then Ok ("no_rtt", None)
        else
          let? after := list_item (split_on "=" rtt_line) 1 in
          let? parts := list_item (split_ws after) 0 in
          let? stats := unpack_floats (split_on "/" parts) in
          Ok ("ok", Some stats)
    end
  else Ok ("no_rtt", None).

(** [subprocess.check_output(cmd, timeout=...)] *)
Definition check_output (cmd : command) : M string :=
  fun s =>
    let s' := log_call cmd s in
    match env (length (calls s)) with
    | Exited rc out =>
        if rc =? 0 then (Ok out, s') else (Raise CalledProcessError, s')
    | ProcTimeout => (Raise TimeoutExpired, s')
    | ProcOSError => (Raise OSError, s')
    end.

Definition ping_from_node (node target : string)
  : M (string * string * option rtt_stats) :=
  let control_path := ssh_control_path node in
  let remote :=
    "ping -c" ++ Z_to_string PING_COUNT ++ " -W" ++ Z_to_string PING_TIMEOUT
      ++ " " ++ target in
  Mtry
    (let! output := check_output (SshPing control_path node remote) in
     match classify_output output with
     | Ok (status, stats) => Mret (node, status, stats)
     | Raise e => Mraise e
     end)
    (fun e =>
       match e with
       | TimeoutExpired => Mret (node, "ssh_timeout", None)
       | CalledProcessError => Mret (node, "ping_error", None)
       | _ => Mret (node, "exception", None)
       end).

(** *** app/routes.py: the [/probe] handler *)

(** Digits with single underscores between them, as [int] accepts. *)
Fixpoint int_digits (s : string) (v : N) (after_digit : bool) : option N :=
  match s with
  | EmptyString => if after_digit then Some v else None
  | String c s' =>
      match digit_value c with
      | Some d => int_digits s' (10 * v + d)%N true
      | None =>
          if Ascii.eqb c "_" && after_digit then int_digits s' v false
          else None
      end
  end.

(** [int(s)] in base ten; [None] stands for [ValueError]. *)
Definition py_int (s : string) : option Z :=
  match strip s with
  | String c body =>
      if Ascii.eqb c "-" then (fun n => - Z.of_N n) <$> int_digits body 0 false
      else if Ascii.eqb c "+" then Z.of_N <$> int_digits body 0 false
      else Z.of_N <$> int_digits (String c body) 0 false
  | EmptyString => None
  end.

(** [request.args.get(key)] *)
Fixpoint args_get (args : list (string * string)) (key : string)
  : option string :=
  match args with
  | [] => None
  | (k, v) :: rest => if String.eqb k key then Some v else args_get rest key
  end.

(** The filters of a request, in the order of [NODE_FILTER_FIELDS]. *)
Definition build_filters (args : list (string * string)) : filters_t :=
  omap (fun f =>
          match args_get args (field_name f) with
          | Some value =>
              if String.eqb value "" then None
              else Some (f, list_to_set ((fun v => lower (strip v)) <$> split_on "," value))
          | None => None
          end)
       all_fields.

(** A response: its status code and, for a successful probe, one result
    per node (short name, status, statistics). *)
Record response : Type := Response {
  status_code : Z;
  results : list (string * string * option rtt_stats);
}.

(** The part of the loop over the futures that can raise. *)
Definition probe_one (target : string) (node_info : node_obj)
  : M (string * string * option rtt_stats) :=
  match node_hostname node_info with
  | Raise e => Mraise e
  | Ok node =>
      match (let? _ := getitem (ofields node_info) "asn" in
             let? _ := getitem (ofields node_info) "city" in
             let? _ := getitem (ofields node_info) "countrycode" in
             let? _ := getitem (ofields node_info) "continent" in
             list_item (split_on "." node) 0) with
      | Raise e => Mraise e
      | Ok node_short =>
          let! r := Mtry (ping_from_node node target)
                         (fun _ => Mret (node, "future_error", None)) in
          Mret (node_short, snd (fst r), snd r)
      end
  end.

Fixpoint Mmap {A B} (f : A → M B) (l : list A) : M (list B) :=
  match l with
  | [] => Mret []
  | x :: l' => let! y := f x in let! ys := Mmap f l' in Mret (y :: ys)
  end.

Definition probe (args : list (string * string)) (g : rng) : M response :=
  match args_get args "target" with
  | None => Mret (Response 400 [])
  | Some target =>
      if String.eqb target "" then Mret (Response 400 [])
      else
        let target := strip (default EmptyString (split_on "?" target !! 0%nat)) in
        if negb (resolves target) then Mret (Response 400 [])
        else
          let limit_param := args_get args "limit" in
          match (match limit_param with
                 | Some p =>
                     match py_int p with
                     | Some z => Ok (Some z)
                     | None => Raise ValueError
                     end
                 | None => Ok None
                 end) with
          | Raise _ => Mret (Response 400 [])
          | Ok limit =>
              let filters := build_filters args in
              let! st := Mget in
              match fetch_healthy_nodes (node_cache st) (session_health st)
                                        limit filters g with
              | Raise e => Mraise e
              | Ok (nodes, _) =>
                  match nodes with
                  | [] => Mret (Response 503 [])
                  | _ =>
                      let! rs := Mmap (probe_one target) nodes in
                      Mret (Response 200 rs)
                  end
              end
          end
  end.

(** The status the framework answers: 500 for an unhandled exception. *)
Definition http_status (r : result response) : Z :=
  match r with
  | Ok resp => status_code resp
  | Raise _ => 500
  end.

End Exporter.

(** ** Auxiliary notions for the properties of [_balanced_sample] *)

(** The nodes of the groups named by [keys], in that order. *)
Definition members (groups : list (list string * list node_obj))
    (keys : list (list string)) : list node_obj :=
  concat ((fun k => default [] (pd_get groups k)) <$> keys).

(** The sum of the quotas of [keys]. *)
Definition total_quota (quotas : list (list string * Z))
    (keys : list (list string)) : Z :=
  foldr Z.add 0 ((fun k => default 0 (pd_get quotas k)) <$> keys).

(** The sum of the quotas given to positions [i], ..., [i + n - 1]. *)
Fixpoint quota_sum (base_quota remainder i : Z) (n : nat) : Z :=
  match n with
  | O => 0
  | S n' =>
      (base_quota + (if i <? remainder then 1 else 0))
      + quota_sum base_quota remainder (i + 1) n'
  end.

(** ** Well-formed node records *)

(** A node record has a hostname, and its values are strings or [None]. *)
Definition wf_node (n : node_obj) : Prop :=
  is_Some (ofields n !! "hostname") ∧
  ∀ k v, ofields n !! k = Some v → v = PNone ∨ ∃ s, v = PStr s.

(** Every filter field of the node has a string value. *)
Definition fields_readable (n : node_obj) : Prop :=
  ∀ f, ∃ s, _node_field_value n f = Ok (PStr s).

(** ** Sample data *)

Definition sample_node (i : nat) (hostname continent : string) : node_obj :=
  NodeObj i (<["hostname" := PStr hostname]>
             (<["asn" := PStr "64500"]>
             (<["city" := PNone]>
             (<["countrycode" := PStr "NL"]>
             (<["continent" := PStr continent]> ∅))))).

Definition sample_roster : list node_obj :=
  [sample_node 0 "a.example" "Europe"; sample_node 1 "b.example" "Europe";
   sample_node 2 "c.example" "Asia"; sample_node 3 "d.example" "Africa"].

Definition sample_health : gmap string string :=
  <["a.example" := "healthy"]>
  (<["b.example" := "healthy"]>
  (<["c.example" := "healthy"]>
  (<["d.example" := "restarted"]> ∅))).

Definition sample_filters : filters_t :=
  [(F_continent, {["europe"; "asia"]})].

(** ** The health invariant *)

(** Every hostname labelled healthy or restarted has an active session. *)
Definition health_implies_session (st : state) : Prop :=
  ∀ h, session_health st !! h = Some "healthy"
       ∨ session_health st !! h = Some "restarted" →
       h ∈ active_sessions st.

(** The state of a freshly created exporter. *)
Definition initial_state : state := State ∅ [] ∅ false 0 None None [].

(** An environment in which every command fails with exit code 255. *)
Definition unreachable : nat → proc_result := fun _ => Exited 255 "".

(** What a step from [s] to [s'] leaves alone as far as the host [h] is
    concerned: its session stays, its health label is the same, and the
    command [spawn] (the start of its master) is not run. *)
Definition keeps (spawn : command) (h : string) (s s' : state) : Prop :=
  (h ∈ active_sessions s → h ∈ active_sessions s') ∧
  session_health s' !! h = session_health s !! h ∧
  (∀ snap, (spawn, snap) ∈ calls s' → (spawn, snap) ∈ calls s).

(** An environment in which every command succeeds. *)
Definition all_up : nat → proc_result := fun _ => Exited 0 "".

Definition default_template : string := "/tmp/ssh-control/nlnog-%r@%h:%p".

(** A fresh exporter that finds the control socket of a previous run. *)
Definition restarted_state : state :=
  State ∅ [] ∅ false 0 None (Some ["nlnog-rise@a.example:22"]) [].

Definition sample_raw (hostname : string) : dict :=
  <["hostname" := PStr hostname]>
  (<["asn" := PInt 64500]>
  (<["city" := PStr "Amsterdam"]>
  (<["countrycode" := PStr "nl"]>
  (<["alive_ipv4" := PBool true]>
  (<["alive_ipv6" := PBool true]>
  (<["participant" := PInt 7]> ∅)))))).

Definition sample_catalog : catalog :=
  Catalog (Ok (<[7 := PStr "ACME"]> ∅))
          (Ok [sample_raw "a.example"; sample_raw "b.example"]) true.

Definition sample_coco (to code : string) : string :=
  if String.eqb to "continent" then "Europe" else "Western Europe".

(** The command that [start_session] runs for a hostname. *)
Definition master_command (user template home h : string) : command :=
  SshMaster (ssh_control_path user template home h) (user ++ "@" ++ h).

(** ** The shape of the statistics line of ping *)

Section RttShape.
Variable float : Type.
Variable py_float : string → option float.

(** The first line of the output that begins with [rtt]. *)
Definition first_rtt_line (output : string) : option string :=
  List.find (String.prefix "rtt") (splitlines output).

(** The statistics of a line of the shape [rtt ... = MIN/AVG/MAX/MDEV ...]:
    the text after the first [=] (up to a second one) starts, after optional
    blanks, with a word of four numbers separated by [/]. *)
Definition rtt_line_stats (line : string) : option (rtt_stats float) :=
  match split_on "=" line with
  | _ :: after :: _ =>
      match split_ws after with
      | word :: _ =>
          match split_on "/" word with
          | [a; b; c; d] =>
              match py_float a, py_float b, py_float c, py_float d with
              | Some a, Some b, Some c, Some d => Some (RttStats float a b c d)
              | _, _, _, _ => None
              end
          | _ => None
          end
      | [] => None
      end
  | _ => None
  end.
End RttShape.

Definition newline : string := String "010"%char EmptyString.

(** The last lines of the output of a successful ping. *)
Definition sample_ping_output : string :=
  "10 packets transmitted, 10 received, 0% packet loss, time 9013ms"
  ++ newline ++ "rtt min/avg/max/mdev = 1.204/1.318/1.522/0.094 ms" ++ newline.

(** An output whose first line beginning with [rtt] has no statistics. *)
Definition truncated_ping_output : string :=
  "rtt" ++ newline ++ "rtt min/avg/max/mdev = 1.204/1.318/1.522/0.094 ms".

(** ** Normalisation of catalog records *)

(** Both liveness flags of a raw record are true. *)
Definition both_alive (n : dict) : Prop :=
  truthy (dict_get n (Some "alive_ipv4")) = true ∧
  truthy (dict_get n (Some "alive_ipv6")) = true.

#[global] Instance both_alive_dec (n : dict) : Decision (both_alive n).
Proof. unfold both_alive. apply _. Defined.

(** [node] is the Node record of the raw record [n]: hostname and city are
    taken over, the ASN is its string form, the country code is
    upper-cased, the continent is derived from it, and the company is
    resolved through the participant id, ["Unknown"] when the id is missing,
    null or not in the directory. *)
Definition normalized (coco : string → string → string)
    (participants : gmap Z pyval) (n node : dict) : Prop :=
  node !! "hostname" = n !! "hostname" ∧
  node !! "city" = n !! "city" ∧
  (∃ a, n !! "asn" = Some a ∧ node !! "asn" = Some (PStr (py_str a))) ∧
  (∃ cc, n !! "countrycode" = Some (PStr cc) ∧
         node !! "countrycode" = Some (PStr (upper cc)) ∧
         node !! "continent" = Some (PStr (get_continent coco (upper cc)))) ∧
  (∀ id c, n !! "participant" = Some (PInt id) → participants !! id = Some c →
           node !! "company" = Some c) ∧
  (∀ id, n !! "participant" = Some (PInt id) → participants !! id = None →
         node !! "company" = Some (PStr "Unknown")) ∧
  (n !! "participant" = None ∨ n !! "participant" = Some PNone →
   node !! "company" = Some (PStr "Unknown")).

(** A raw record with the fields the catalog promises. *)
Definition wf_raw (n : dict) : Prop :=
  is_Some (n !! "alive_ipv4") ∧ is_Some (n !! "alive_ipv6") ∧
  is_Some (n !! "hostname") ∧ is_Some (n !! "asn") ∧ is_Some (n !! "city") ∧
  ∃ cc, n !! "countrycode" = Some (PStr cc).

(** A raw record of a node that does not answer over IPv6. *)
Definition sample_raw_v4_only : dict :=
  <["alive_ipv6" := PBool false]> (sample_raw "c.example").

Definition sample_raw_nodes : list dict :=
  [sample_raw "a.example"; sample_raw_v4_only; sample_raw "b.example"].

Definition sample_participants : gmap Z pyval := <[7 := PStr "ACME"]> ∅.

(** ** What follows an item in the JSON text of a sequence *)

(** The text goes on with a comma or with the closing bracket. *)
Definition ends_item (close : ascii) (rest : string) : Prop :=
  ∃ tl, rest = String "," tl ∨ rest = String close tl.

(** The text starts with a character that is not blank and not [avoid]. *)
Definition starts_item (avoid : ascii) (s : string) : Prop :=
  ∃ c t, s = String c t ∧ is_json_ws c = false ∧ Ascii.eqb c avoid = false.

(** A step from [s] to [s'] that touches the session and the label of the
    host [h] only. *)
Definition only_touches (h : string) (s s' : state) : Prop :=
  (∀ x, x ≠ h → (x ∈ active_sessions s' ↔ x ∈ active_sessions s)) ∧
  (∀ x, x ≠ h → session_health s' !! x = session_health s !! x).

(** The command that [stop_session] runs for a hostname. *)
Definition exit_command (user template home h : string) : command :=
  SshExit (ssh_control_path user template home h) (user ++ "@" ++ h).

(** Every subprocess exits with code zero. *)
Definition always_succeeds (env : nat → proc_result) : Prop :=
  ∀ n, ∃ out, env n = Exited 0 out.

(** The file-name prefix of the control sockets, as [cleanup_stale_sockets]
    derives it from the template. *)
Definition socket_prefix (template : string) : string :=
  default EmptyString (split_on "%" (basename template) !! 0%nat).

(** A directory entry that [cleanup_stale_sockets] takes for the control
    socket of the host [h]. *)
Definition socket_of (template entry h : string) : Prop :=
  String.prefix (socket_prefix template) entry = true ∧
  parse_socket_hostname (socket_prefix template) entry = Ok h.

(** The directory that [cleanup_stale_sockets] scans. *)
Definition control_directory (user template : string) : string :=
  dirname (str_replace "%p" "22"
             (str_replace "%h" "x" (str_replace "%r" user template))).

(** The liveness check that [cleanup_stale_sockets] runs for an entry. *)
Definition check_command (user template entry h : string) : command :=
  SshCheck (path_join (control_directory user template) entry) (user ++ "@" ++ h).

(** The character [c] does not occur in [s]. *)
Definition lacks (c : ascii) (s : string) : Prop := find_char c s = None.

(** The command that [ping_from_node] runs. *)
Definition ping_command (user template home : string) (count timeout : Z)
    (node target : string) : command :=
  SshPing (ssh_control_path user template home node) node
    ("ping -c" ++ Z_to_string count ++ " -W" ++ Z_to_string timeout
       ++ " " ++ target).

(** The statuses [ping_from_node] can report. *)
Definition ping_statuses : list string :=
  ["ok"; "no_rtt"; "ssh_timeout"; "ping_error"; "exception"].

(** A node record with every field that the [/probe] handler reads. *)
Definition complete_node (n : node_obj) : Prop :=
  wf_node n ∧
  is_Some (ofields n !! "asn") ∧ is_Some (ofields n !! "city") ∧
  is_Some (ofields n !! "countrycode") ∧ is_Some (ofields n !! "continent").

(** A running exporter with the sample roster. *)
Definition sample_state : state :=
  State ∅ sample_roster sample_health true 4 None None [].

(** A value that is a string or [None]. *)
Definition str_or_none (v : pyval) : Prop := v = PNone ∨ ∃ s, v = PStr s.

(** A raw catalog record whose hostname and city, if present, are strings
    or null. *)
Definition typed_raw (n : dict) : Prop :=
  (∀ v, n !! "hostname" = Some v → str_or_none v) ∧
  (∀ v, n !! "city" = Some v → str_or_none v).

(** A participant directory whose companies are strings or null. *)
Definition typed_participants (participants : gmap Z pyval) : Prop :=
  ∀ id v, participants !! id = Some v → str_or_none v.

(** The parts of the state that the session manager never writes. *)
Definition store (s : state)
  : list node_obj * option string * nat * option (list string) * bool :=
  (node_cache s, cache_file s, next_oid s, control_dir s, _startup_done s).

(** Every subprocess runs to an exit code. *)
Definition always_exits (env : nat → proc_result) : Prop :=
  ∀ n, ∃ rc out, env n = Exited rc out.

(** A label that the exporter writes. *)
Definition known_label (v : string) : Prop := v = "healthy" ∨ v = "restarted".

(** The hostname of a record, when it is a string. *)
Definition record_hostname (d : dict) : option string :=
  match d !! "hostname" with
  | Some (PStr h) => Some h
  | _ => None
  end.

(** The hostnames of a roster. *)
Definition hostnames_of (contents : list dict) : gset string :=
  list_to_set (omap record_hostname contents).

(** The state after reconciling the hosts of a list, one after the
    other. *)
Definition reconciled (env : nat → proc_result) (user template home : string)
    (l : list string) (s : state) : state :=
  foldl (fun s h => snd (check_and_manage_ssh_session env user template home h s))
        s l.

(** A raw record on which [filter_api_nodes] raises. *)
Definition malformed (n : dict) : Prop :=
  n !! "alive_ipv4" = None ∨
  (truthy (dict_get n (Some "alive_ipv4")) = true ∧ n !! "alive_ipv6" = None) ∨
  (both_alive n ∧
   ((∀ cc, n !! "countrycode" ≠ Some (PStr cc)) ∨ n !! "hostname" = None ∨
    n !! "asn" = None ∨ n !! "city" = None)).

(** A catalog whose second record lacks a liveness flag. *)
Definition broken_catalog : catalog :=
  Catalog (Ok ∅)
          (Ok [sample_raw "a.example"; delete "alive_ipv4" (sample_raw "b.example")])
          true.

(** The roster that the catalog yields during one fetch. *)
Definition api_roster (coco : string → string → string) (c : catalog)
  : result (list dict) :=
  let? raw_nodes := nodes_response c in
  filter_api_nodes coco raw_nodes (fetch_participants c).

(** The roster that the cache file holds, if it can be decoded. *)
Definition cached_roster (st : state) : option (list dict) :=
  match cache_file st with
  | Some text =>
      match json_loads text with
      | Ok cached => Some cached
      | Raise _ => None
      end
  | None => None
  end.

(** The roster that startup works with: the one of the catalog if it is
    available, otherwise the cached one. *)
Definition chosen_roster (coco : string → string → string) (c : catalog)
    (st : state) : option (list dict) :=
  match api_roster coco c with
  | Ok contents => Some contents
  | Raise _ => cached_roster st
  end.

(** The cache file after a fetch. *)
Definition saved_file (coco : string → string → string) (c : catalog)
    (st : state) : option string :=
  match api_roster coco c with
  | Ok contents => if disk_ok c then Some (json_dumps contents) else cache_file st
  | Raise _ => cache_file st
  end.

(** A catalog that cannot be fetched. *)
Definition catalog_down : catalog := Catalog (Raise OSError) (Raise OSError) true.

(** A fresh process that finds the cache file of an earlier run. *)
Definition warm_state : state :=
  snd (save_node_cache true sample_roster initial_state).

(** ** Decidable equality of results *)

#[global] Instance exn_eq_dec : EqDecision exn.
Proof. solve_decision. Defined.

#[global] Instance result_eq_dec {A} `{EqDecision A} : EqDecision (result A).
Proof. solve_decision. Defined.

(** A node that is labelled healthy and passes every filter. *)
Definition matching (session_health : gmap string string) (filters : filters_t)
    (n : node_obj) : Prop :=
  is_healthy session_health n = Ok true ∧
  Forall (fun fv => passes_filter fv n = Ok true) filters.

#[global] Instance matching_dec session_health filters n :
  Decision (matching session_health filters n).
Proof. unfold matching. apply _. Defined.

(** ** app/routes.py: [/sessions] and [/health] *)

(** [sum(1 for v in nodes.values() if v == label)] *)
Definition count_label (label : string) (nodes : gmap string string) : nat :=
  length (filter (fun v => v = label) (map_to_list nodes).*2).

(** The summary of [/sessions]. *)
Record summary : Set := Summary {
  sum_healthy : nat; sum_restarted : nat; sum_error : nat; sum_total : nat;
}.

(** [GET /sessions]: the summary and the labels. *)
Definition sessions (st : state) : summary * gmap string string :=
  let nodes := session_health st in
  let healthy := count_label "healthy" nodes in
  let restarted := count_label "restarted" nodes in
  let error := count_label "error" nodes in
  (Summary healthy restarted error (size nodes), nodes).

(** The payload of [/health]. *)
Record health_data : Set := HealthData {
  data_node_cache_size : nat;
  data_sessions_total : nat;
  data_sessions_healthy : nat;
  data_status : string;
}.

(** [GET /health]: the payload and the status code. *)
Definition health (st : state) : health_data * Z :=
  let cache_size := length (node_cache st) in
  let total_sessions := size (session_health st) in
  let healthy_sessions := count_label "healthy" (session_health st) in
  if ((0 <? cache_size) && (0 <? healthy_sessions))%nat
  then (HealthData cache_size total_sessions healthy_sessions "healthy", 200)
  else (HealthData cache_size total_sessions healthy_sessions "unhealthy", 503).

(** Every label is one that the exporter writes. *)
Definition labels_known (st : state) : Prop :=
  ∀ h v, session_health st !! h = Some v → known_label v.

(** The node belongs to the group with key [k]. *)
Definition same_group (balance_fields : list field) (k : list string)
    (n : node_obj) : Prop :=
  group_key balance_fields n = Ok k.

#[global] Instance same_group_dec balance_fields k n :
  Decision (same_group balance_fields k n).
Proof. unfold same_group. apply _. Defined.

(** ** core/geo.py: [get_country_name] and app/routes.py: [/api/filter-options] *)

Section FilterOptions.
Variable coco_convert : string → string → string.

Definition get_country_name (alpha2 : string) : string :=
  let result := coco_convert "name_short" alpha2 in
  if negb (String.eqb result "not found") then result else alpha2.

(** [options[field].add(val)]; the dict [options] has every field as a
    key, so it is a set for each field. *)
Definition options_add (options : field → gset string) (f : field) (val : string)
  : field → gset string :=
  fun f' => if decide (f' = f) then options f' ∪ {[val]} else options f'.

(** The loop [for field in NODE_FILTER_FIELDS] for one node.  The values
    of a roster are strings or [None]; a true value of another type is
    outside the model and stops it. *)
Fixpoint fields_loop (node : node_obj) (fields : list field)
    (options : field → gset string) : result (field → gset string) :=
  match fields with
  | [] => Ok options
  | f :: rest =>
      let? val := _node_field_value node f in
      let? options' :=
        (if truthy val then
           match val with
           | PStr s => Ok (options_add options f s)
           | _ => Raise TypeError
           end
         else Ok options) in
      fields_loop node rest options'
  end.

(** The loop [for node in nodes]. *)
Fixpoint options_loop (nodes : list node_obj) (options : field → gset string)
  : result (field → gset string) :=
  match nodes with
  | [] => Ok options
  | node :: rest =>
      let? options' := fields_loop node all_fields options in
      options_loop rest options'
  end.

(** The dict [result] that the handler serialises: the sorted options of
    every field, and the country names. *)
Record filter_options_result : Type := FilterOptionsResult {
  option_lists : list (field * list string);
  countryNames : gmap string string;
}.

Definition filter_options (st : state) (g : rng) : result filter_options_result :=
  let? fetched :=
    fetch_healthy_nodes (node_cache st) (session_health st) None [] g in
  let nodes := fst fetched in
  let? options := options_loop nodes (fun _ => ∅) in
  let result := (fun f => (f, sorted (options f))) <$> all_fields in
  let names :=
    list_to_map ((fun cc => (cc, get_country_name cc))
                   <$> elements (options F_countrycode)) in
  Ok (FilterOptionsResult result names).
End FilterOptions.

(** * Properties *)

(** ** Comprehensions that may raise *)

Lemma rfilter_ok {A} (p : A → result bool) (l l' : list A) :
  rfilter p l = Ok l' →
  l' `sublist_of` l ∧ Forall (fun x => p x = Ok true) l'.
Proof.
  revert l'. induction l as [|x l IH]; intros l' H; simpl in H.
  - injection H as <-. split; constructor.
  - destruct (p x) as [b|] eqn:Hp; [|discriminate]. simpl in H.
    destruct (rfilter p l) as [ys|]; [|discriminate]. simpl in H.
    injection H as <-. destruct (IH ys eq_refl) as [Hs Hf].
    destruct b.
    + split; [by constructor | by constructor].
    + split; [by constructor | done].
Qed.

Lemma rfilter_total {A} (p : A → result bool) (l : list A) :
  Forall (fun x => ∃ b, p x = Ok b) l → ∃ l', rfilter p l = Ok l'.
Proof.
  induction 1 as [|x l [b Hb] _ [ys IH]]; simpl; [by eexists|].
  rewrite Hb, IH. simpl. by eexists.
Qed.

Lemma apply_filters_ok (filters : filters_t) (l l' : list node_obj) :
  apply_filters filters l = Ok l' →
  l' `sublist_of` l ∧
  Forall (fun n => Forall (fun fv => passes_filter fv n = Ok true) filters) l'.
Proof.
  revert l l'. induction filters as [|fv rest IH]; intros l l' H; simpl in H.
  - injection H as <-. split; [done|]. apply Forall_forall. intros; constructor.
  - destruct (rfilter (passes_filter fv) l) as [l1|] eqn:H1; [|discriminate].
    simpl in H. destruct (rfilter_ok _ _ _ H1) as [Hs1 Hf1].
    destruct (IH _ _ H) as [Hs2 Hf2]. split; [by etrans|].
    apply Forall_forall. intros n Hn. constructor.
    + rewrite Forall_forall in Hf1. apply Hf1. by eapply elem_of_sublist.
    + rewrite Forall_forall in Hf2. by apply Hf2.
Qed.

(** ** The random module *)

Lemma pick_spec {A} (k : nat) (pool : list A) (g : rng) :
  (pick k pool g).1 ⊆+ pool ∧
  length (pick k pool g).1 = Nat.min k (length pool).
Proof.
  revert pool g. induction k as [|k IH]; intros pool g.
  - split; [apply submseteq_nil_l | done].
  - cbn [pick]. destruct (draw g) as [c g1].
    destruct (pool !! (c mod length pool)%nat) as [x|] eqn:Hx.
    + specialize (IH (delete (c mod length pool)%nat pool) g1).
      destruct (pick k (delete (c mod length pool)%nat pool) g1) as [r g2].
      cbn [fst] in *. destruct IH as [Hsub Hlen].
      pose proof (lookup_lt_Some _ _ _ Hx) as Hlt.
      split.
      * rewrite (delete_Permutation pool _ x Hx). by apply submseteq_skip.
      * cbn [length]. rewrite Hlen, length_delete by eauto. lia.
    + cbn [fst]. split; [apply submseteq_nil_l|].
      apply lookup_ge_None in Hx. destruct pool as [|y pool]; [simpl; lia|].
      exfalso.
      pose proof (Nat.mod_upper_bound c (length (y :: pool))).
      cbn [length] in *. lia.
Qed.

Lemma random_sample_ok {A} (l : list A) (k : Z) (g g' : rng) (r : list A) :
  random_sample l k g = Ok (r, g') →
  0 ≤ k ≤ len l ∧ r ⊆+ l ∧ len r = k.
Proof.
  unfold random_sample, len. intros H.
  destruct ((0 <=? k) && (k <=? Z.of_nat (length l))) eqn:Hk; [|discriminate].
  apply andb_true_iff in Hk as [H0 H1].
  apply Z.leb_le in H0. apply Z.leb_le in H1.
  injection H as Hp. pose proof (pick_spec (Z.to_nat k) l g) as [Hs Hl].
  destruct (pick (Z.to_nat k) l g) as [r0 g0]. simpl in *.
  injection Hp as <- <-. split; [lia|]. split; [done|]. lia.
Qed.

Lemma random_sample_total {A} (l : list A) (k : Z) (g : rng) :
  0 ≤ k ≤ len l → ∃ r g', random_sample l k g = Ok (r, g').
Proof.
  unfold random_sample, len. intros [H0 H1].
  apply Z.leb_le in H0. apply Z.leb_le in H1. rewrite H0, H1. simpl.
  destruct (pick (Z.to_nat k) l g) as [r g'] eqn:E. by exists r, g'.
Qed.

Lemma random_shuffle_ok {A} (l : list A) (g g' : rng) (r : list A) :
  random_shuffle l g = Ok (r, g') → r ≡ₚ l.
Proof.
  unfold random_shuffle. intros H.
  pose proof (pick_spec (length l) l g) as [Hs Hl].
  destruct (pick (length l) l g) as [r0 g0]. simpl in *.
  injection H as <- <-. apply submseteq_length_Permutation; [done|]. lia.
Qed.

(** Every selection of elements at distinct positions, in any order, is
    drawn for some stream of choices. *)
Lemma pick_complete {A} (pool r : list A) :
  r ⊆+ pool → ∃ g, pick (length r) pool g = (r, []).
Proof.
  revert pool. induction r as [|x r IH]; intros pool Hsub.
  - by exists [].
  - apply submseteq_cons_l in Hsub as (k & Hperm & Hsub).
    assert (Hx : x ∈ pool) by (rewrite Hperm; by left).
    apply list_elem_of_lookup in Hx as [i Hi].
    pose proof (lookup_lt_Some _ _ _ Hi) as Hlt.
    destruct (IH (delete i pool)) as [g Hg].
    { rewrite (delete_Permutation pool i x Hi) in Hperm.
      apply Permutation_cons_inv in Hperm. by rewrite Hperm. }
    exists (i :: g). cbn [length pick draw].
    rewrite Nat.mod_small by done. rewrite Hi, Hg. done.
Qed.

Lemma random_sample_complete {A} (population r : list A) :
  r ⊆+ population →
  ∃ g, random_sample population (len r) g = Ok (r, []).
Proof.
  intros Hsub. destruct (pick_complete population r Hsub) as [g Hg].
  exists g. unfold random_sample, len.
  pose proof (submseteq_length _ _ Hsub) as Hlen.
  rewrite Nat2Z.id, Hg.
  destruct (0 <=? Z.of_nat (length r)) eqn:H0; [|apply Z.leb_gt in H0; lia].
  destruct (Z.of_nat (length r) <=? Z.of_nat (length population)) eqn:H1;
    [done | apply Z.leb_gt in H1; lia].
Qed.

(** ** Insertion-ordered dictionaries *)

Section pydict_facts.
Context {K V : Type} `{EqDecision K}.
Implicit Types (d : list (K * V)) (k : K) (v : V).

Lemma pd_get_set_eq d k v : pd_get (pd_set d k v) k = Some v.
Proof.
  induction d as [|[k' v'] d IH]; simpl.
  - by rewrite decide_True.
  - destruct (decide (k' = k)) as [->|Hne]; simpl.
    + by rewrite decide_True.
    + by rewrite decide_False.
Qed.

Lemma pd_get_set_ne d k k' v : k ≠ k' → pd_get (pd_set d k v) k' = pd_get d k'.
Proof.
  intros Hne. induction d as [|[k0 v0] d IH]; simpl.
  - by rewrite decide_False.
  - destruct (decide (k0 = k)) as [->|Hne0]; simpl.
    + by rewrite !decide_False.
    + by rewrite IH.
Qed.

Lemma pd_get_None d k : pd_get d k = None ↔ k ∉ pd_keys d.
Proof.
  unfold pd_keys. induction d as [|[k' v'] d IH]; simpl.
  - split; [intros _; apply not_elem_of_nil | done].
  - rewrite not_elem_of_cons. destruct (decide (k' = k)) as [Heq|Hne].
    + split; [done | intros [? _]; done].
    + rewrite IH. split; [intros ?; split; [congruence | done] | by intros [_ ?]].
Qed.

Lemma pd_set_new d k v : pd_get d k = None → pd_set d k v = (d ++ [(k, v)])%list.
Proof.
  induction d as [|[k' v'] d IH]; simpl; [done|].
  destruct (decide (k' = k)); [done|]. intros H1. by rewrite IH.
Qed.

Lemma pd_set_old d k v v0 :
  pd_get d k = Some v0 →
  ∃ d1 d2, d = (d1 ++ (k, v0) :: d2)%list ∧ pd_set d k v = (d1 ++ (k, v) :: d2)%list.
Proof.
  induction d as [|[k' v'] d IH]; simpl; [done|].
  destruct (decide (k' = k)) as [->|Hne].
  - intros Heq. injection Heq as ->. by exists [], d.
  - intros H1. destruct (IH H1) as (d1 & d2 & Hd & Hs).
    exists ((k', v') :: d1), d2. by rewrite Hd at 1; rewrite Hs.
Qed.

Lemma pd_keys_set_NoDup d k v : NoDup (pd_keys d) → NoDup (pd_keys (pd_set d k v)).
Proof.
  intros Hnd. destruct (pd_get d k) as [v0|] eqn:Hg.
  - destruct (pd_set_old d k v v0 Hg) as (d1 & d2 & Hd & ->).
    rewrite Hd in Hnd. unfold pd_keys in *.
    by rewrite fmap_app, fmap_cons in *.
  - rewrite pd_set_new by done. unfold pd_keys in *.
    rewrite fmap_app. simpl. apply NoDup_app. split; [done|].
    split; [|apply NoDup_singleton].
    intros x Hx ->%list_elem_of_singleton. by apply pd_get_None in Hg.
Qed.

Lemma pd_get_keys {W} (f : option V → W) d :
  NoDup (pd_keys d) →
  (fun k => f (pd_get d k)) <$> pd_keys d = (fun kv => f (Some kv.2)) <$> d.
Proof.
  unfold pd_keys. induction d as [|[k v] d IH]; csimpl; [done|].
  intros [Hk Hnd]%NoDup_cons. rewrite decide_True by done. f_equal.
  rewrite <- IH by done. apply Forall_fmap_ext_1, Forall_forall.
  intros k' Hk'. rewrite decide_False; [done|]. by intros ->.
Qed.
End pydict_facts.

(** ** Grouping *)

Lemma groups_add_spec groups key node :
  NoDup (pd_keys groups) →
  NoDup (pd_keys (groups_add groups key node)) ∧
  concat (groups_add groups key node).*2 ≡ₚ (concat groups.*2 ++ [node])%list.
Proof.
  intros Hnd. unfold groups_add.
  destruct (pd_get groups key) as [ms|] eqn:Hg.
  - split; [by apply pd_keys_set_NoDup|].
    destruct (pd_set_old groups key (ms ++ [node])%list ms Hg) as (d1 & d2 & Hd & ->).
    rewrite Hd. rewrite !fmap_app, !fmap_cons, !concat_app, !concat_cons. simpl.
    rewrite <- !(assoc_L (++)). apply Permutation_app_head.
    apply Permutation_app_head. symmetry. by rewrite (comm (++)).
  - split; [by apply pd_keys_set_NoDup|].
    rewrite pd_set_new by done. by rewrite fmap_app, concat_app; simpl.
Qed.

Lemma build_groups_spec balance_fields nodes groups groups' :
  build_groups balance_fields nodes groups = Ok groups' →
  NoDup (pd_keys groups) →
  NoDup (pd_keys groups') ∧
  concat groups'.*2 ≡ₚ (concat groups.*2 ++ nodes)%list.
Proof.
  revert groups. induction nodes as [|n nodes IH]; intros groups H Hnd; simpl in H.
  - injection H as <-. by rewrite app_nil_r.
  - destruct (group_key balance_fields n) as [key|]; [|discriminate]. simpl in H.
    destruct (groups_add_spec groups key n Hnd) as [Hnd1 Hp1].
    destruct (IH _ H Hnd1) as [Hnd2 Hp2]. split; [done|].
    rewrite Hp2, Hp1. by rewrite <- (assoc_L (++)).
Qed.

Lemma build_groups_total balance_fields nodes groups :
  Forall (fun n => ∃ key, group_key balance_fields n = Ok key) nodes →
  ∃ groups', build_groups balance_fields nodes groups = Ok groups'.
Proof.
  intros H. revert groups. induction H as [|n nodes [key Hk] _ IH]; intros groups; simpl.
  - by eexists.
  - rewrite Hk. simpl. apply IH.
Qed.

Lemma members_keys groups :
  NoDup (pd_keys groups) → members groups (pd_keys groups) = concat groups.*2.
Proof.
  intros Hnd. unfold members.
  by rewrite (pd_get_keys (fun o => default [] o) groups Hnd).
Qed.

Lemma members_perm groups keys keys' :
  keys ≡ₚ keys' → members groups keys ≡ₚ members groups keys'.
Proof. intros Hp. unfold members. by rewrite Hp. Qed.

Lemma total_quota_perm quotas keys keys' :
  keys ≡ₚ keys' → total_quota quotas keys = total_quota quotas keys'.
Proof.
  intros Hp. unfold total_quota.
  apply (foldr_permutation (=) Z.add 0); [intros; lia | by rewrite Hp].
Qed.


(** ** Quotas *)

Lemma make_quotas_other base r i keys quotas k :
  k ∉ keys → pd_get (make_quotas base r i keys quotas) k = pd_get quotas k.
Proof.
  revert i quotas. induction keys as [|k0 keys IH]; intros i quotas Hk; simpl; [done|].
  apply not_elem_of_cons in Hk as [Hne Hk].
  rewrite IH by done. by apply pd_get_set_ne.
Qed.

Lemma make_quotas_total base r i keys quotas :
  NoDup keys →
  total_quota (make_quotas base r i keys quotas) keys
  = quota_sum base r i (length keys).
Proof.
  revert i quotas. induction keys as [|k keys IH]; intros i quotas Hnd; [done|].
  apply NoDup_cons in Hnd as [Hk Hnd]. unfold total_quota in *.
  cbn [make_quotas length quota_sum]. rewrite fmap_cons. cbn [foldr].
  rewrite IH by done. rewrite make_quotas_other by done.
  by rewrite pd_get_set_eq.
Qed.

Lemma make_quotas_lookup base r i keys quotas k :
  0 ≤ base →
  (∀ k' q, pd_get quotas k' = Some q → 0 ≤ q) →
  (k ∈ keys ∨ is_Some (pd_get quotas k)) →
  ∃ q, pd_get (make_quotas base r i keys quotas) k = Some q ∧ 0 ≤ q.
Proof.
  intros Hb. revert i quotas.
  induction keys as [|k0 keys IH]; intros i quotas Hq Hk; simpl.
  - destruct Hk as [Hk|[q Hk]]; [by apply elem_of_nil in Hk|]. eauto.
  - apply IH.
    + intros k' q. destruct (decide (k0 = k')) as [->|Hne].
      * rewrite pd_get_set_eq. intros [= <-]. destruct (i <? r); lia.
      * rewrite pd_get_set_ne by done. apply Hq.
    + destruct (decide (k0 = k)) as [->|Hne].
      * right. rewrite pd_get_set_eq. eauto.
      * rewrite pd_get_set_ne by done.
        destruct Hk as [Hk|Hk]; [|by right].
        apply elem_of_cons in Hk as [->|Hk]; [done | by left].
Qed.

Lemma quota_sum_closed base r i n :
  quota_sum base r i n
  = Z.of_nat n * base + Z.max 0 (Z.min (i + Z.of_nat n) r - i).
Proof.
  revert i. induction n as [|n IH]; intros i; cbn [quota_sum]; [lia|].
  rewrite IH. destruct (i <? r) eqn:Hi.
  - apply Z.ltb_lt in Hi. lia.
  - apply Z.ltb_ge in Hi. lia.
Qed.

Lemma quota_sum_divmod limit n :
  (0 < n)%nat →
  quota_sum (limit / Z.of_nat n) (limit mod Z.of_nat n) 0 n = limit.
Proof.
  intros Hn. rewrite quota_sum_closed.
  pose proof (Z.mod_pos_bound limit (Z.of_nat n) ltac:(lia)).
  pose proof (Z.div_mod limit (Z.of_nat n) ltac:(lia)). lia.
Qed.

(** ** The loop over the groups *)

Lemma take_loop_ok groups quotas keys res sf g res' sf' g' :
  take_loop groups quotas keys res sf g = Ok ((res', sf'), g') →
  ∃ picked,
    res' = (res ++ picked)%list ∧
    picked ⊆+ members groups keys ∧
    len picked + (sf' - sf) = total_quota quotas keys ∧
    0 ≤ sf' - sf.
Proof.
  revert res sf g. induction keys as [|key keys IH]; intros res sf g H.
  - injection H as <- <- <-. exists []. rewrite app_nil_r.
    split; [done|]. split; [apply submseteq_nil_l|].
    unfold len, total_quota. simpl. lia.
  - cbn [take_loop] in H. unfold Rbind, Rlift, pd_getitem in H.
    unfold members, total_quota. rewrite !fmap_cons. cbn [concat foldr].
    destruct (pd_get groups key) as [group|]; [|discriminate].
    destruct (pd_get quotas key) as [quota|]; [|discriminate].
    cbn [default].
    destruct (random_sample group (Z.min quota (len group)) g)
      as [[s g1]|] eqn:Hs; [|discriminate].
    apply random_sample_ok in Hs as (Hk & Hsub & Hlen).
    destruct (IH _ _ _ H) as (picked & -> & Hsub' & Hsum & Hsf).
    exists (s ++ picked)%list. split; [by rewrite (assoc_L (++))|].
    split; [by apply submseteq_app|].
    fold (members groups keys) in *. fold (total_quota quotas keys) in *.
    unfold len, id in *. rewrite length_app. split; lia.
Qed.

Lemma take_loop_total groups quotas keys res sf g :
  (∀ k, k ∈ keys → is_Some (pd_get groups k)) →
  (∀ k, k ∈ keys → ∃ q, pd_get quotas k = Some q ∧ 0 ≤ q) →
  ∃ out g', take_loop groups quotas keys res sf g = Ok (out, g').
Proof.
  revert res sf g. induction keys as [|key keys IH]; intros res sf g Hg Hq.
  - by eexists _, _.
  - cbn [take_loop]. unfold Rbind, Rlift, pd_getitem.
    destruct (Hg key) as [group ->]; [by left|].
    destruct (Hq key) as (quota & -> & Hq0); [by left|].
    destruct (random_sample_total group (Z.min quota (len group)) g)
      as (s & g1 & ->); [unfold len; lia|].
    apply IH; intros k Hk; [apply Hg | apply Hq]; by right.
Qed.

(** ** [_balanced_sample] *)

Lemma submseteq_NoDup {A} (l k : list A) : l ⊆+ k → NoDup k → NoDup l.
Proof.
  intros [k' Hk]%submseteq_Permutation Hnd. rewrite Hk in Hnd.
  by apply NoDup_app in Hnd as [? _].
Qed.

Lemma filter_none {A} (P : A → Prop) `{∀ x, Decision (P x)} (l : list A) :
  Forall (fun x => ¬ P x) l → filter P l = [].
Proof.
  induction 1 as [|x l Hx _ IH]; [done|].
  by rewrite filter_cons, decide_False.
Qed.

Lemma filter_all {A} (P : A → Prop) `{∀ x, Decision (P x)} (l : list A) :
  Forall P l → filter P l = l.
Proof.
  induction 1 as [|x l Hx _ IH]; [done|].
  by rewrite filter_cons, decide_True, IH.
Qed.

(** The nodes not yet selected are those left over by the selection. *)
Lemma remaining_spec (nodes picked : list node_obj) :
  NoDup (oid <$> nodes) → picked ⊆+ nodes →
  picked ++ filter (fun n => oid n ∉ (list_to_set (oid <$> picked) : gset nat)) nodes
  ≡ₚ nodes.
Proof.
  intros Hnd [rest Hrest]%submseteq_Permutation.
  rewrite Hrest at 2. rewrite Hrest in Hnd |- *.
  rewrite filter_app. rewrite filter_none, filter_all; [done| |].
  - rewrite fmap_app in Hnd. apply NoDup_app in Hnd as (_ & Hdisj & _).
    apply Forall_forall. intros x Hx [y [Hy Hin]]%elem_of_list_to_set%list_elem_of_fmap.
    apply (Hdisj (oid y)); [by apply list_elem_of_fmap_2 |].
    rewrite <- Hy. by apply list_elem_of_fmap_2.
  - apply Forall_forall. intros x Hx Hn. apply Hn.
    apply elem_of_list_to_set. by apply list_elem_of_fmap_2.
Qed.

Lemma balanced_sample_ok nodes limit filters g r g' :
  _balanced_sample nodes limit filters g = Ok (r, g') →
  (∀ n, n ∈ r → n ∈ nodes) ∧
  len r ≤ limit ∧
  (NoDup (oid <$> nodes) → limit ≤ len nodes →
   len r = limit ∧ NoDup (oid <$> r)).
Proof.
  unfold _balanced_sample. destruct (balance_fields_of filters) as [|f fs] eqn:Hbf.
  { intros (Hk & Hsub & Hlen)%random_sample_ok. split; [|split; [lia|]].
    - intros n Hn. by eapply elem_of_submseteq.
    - intros Hnd _. split; [done|].
      eapply submseteq_NoDup; [by apply fmap_submseteq | done]. }
  unfold Rbind, Rlift, Rret. rewrite <- Hbf. clear f fs Hbf.
  destruct (build_groups _ nodes []) as [groups|] eqn:Hgroups; [|discriminate].
  destruct (build_groups_spec _ _ _ _ Hgroups) as [Hkeys Hperm]; [constructor|].
  simpl in Hperm.
  destruct (random_shuffle (pd_keys groups) g) as [[group_keys g1]|] eqn:Hsh;
    [|discriminate].
  apply random_shuffle_ok in Hsh.
  unfold divmod. destruct (len group_keys =? 0) eqn:Hz; [discriminate|].
  apply Z.eqb_neq in Hz. cbn [fst snd].
  destruct (take_loop _ _ group_keys [] 0 g1) as [[[res sf] g2]|] eqn:Hloop;
    [|discriminate].
  destruct (take_loop_ok _ _ _ _ _ _ _ _ _ Hloop) as (picked & -> & Hsub & Hsum & Hsf).
  cbn [fst snd app].
  assert (Hmem : members groups group_keys ≡ₚ nodes).
  { rewrite (members_perm _ _ _ Hsh), members_keys by done. done. }
  rewrite Hmem in Hsub.
  assert (Htot : len picked + sf = limit).
  { rewrite make_quotas_total in Hsum by (by rewrite Hsh).
    unfold len in Hsum, Hz |- *.
    rewrite quota_sum_divmod in Hsum; lia. }
  destruct (0 <? sf) eqn:Hpos.
  - apply Z.ltb_lt in Hpos.
    set (remaining := filter _ nodes).
    assert (Hrem_in : ∀ n, n ∈ remaining → n ∈ nodes).
    { intros n Hn. by apply list_elem_of_filter in Hn as [_ ?]. }
    assert (Hexact : NoDup (oid <$> nodes) → limit ≤ len nodes →
              picked ++ remaining ≡ₚ nodes ∧ sf ≤ len remaining).
    { intros Hnd Hle. pose proof (remaining_spec nodes picked Hnd Hsub) as Hp.
      split; [done|]. apply Permutation_length in Hp.
      rewrite length_app in Hp. fold remaining in Hp. unfold len in *. lia. }
    destruct remaining as [|n0 remaining'] eqn:Hrem.
    + intros [= <- <-]. split; [|split; [lia|]].
      * intros n Hn. by eapply elem_of_submseteq.
      * intros Hnd Hle. destruct (Hexact Hnd Hle) as [_ Hl]. unfold len in Hl.
        simpl in Hl. lia.
    + rewrite <- Hrem in *. clear Hrem n0 remaining'.
      destruct (random_sample remaining _ g2) as [[extra g3]|] eqn:Hextra;
        [|discriminate].
      apply random_sample_ok in Hextra as (Hk & Hsub2 & Hlen2).
      intros [= <- <-]. split; [|split].
      * intros n [Hn|Hn]%elem_of_app; [by eapply elem_of_submseteq|].
        apply Hrem_in. by eapply elem_of_submseteq.
      * unfold len in *. rewrite length_app. lia.
      * intros Hnd Hle. destruct (Hexact Hnd Hle) as [Hp Hl]. split.
        -- unfold len in *. rewrite length_app. lia.
        -- eapply submseteq_NoDup; [|exact Hnd].
           apply fmap_submseteq. rewrite <- Hp. by apply submseteq_skips_l.
  - apply Z.ltb_ge in Hpos. intros [= <- <-]. split; [|split; [lia|]].
    + intros n Hn. by eapply elem_of_submseteq.
    + intros Hnd _. split; [lia|].
      eapply submseteq_NoDup; [by apply fmap_submseteq | done].
Qed.

Lemma sublist_Forall {A} (P : A → Prop) (l1 l2 : list A) :
  l1 `sublist_of` l2 → Forall P l2 → Forall P l1.
Proof.
  intros Hs Hf. rewrite Forall_forall in Hf |- *.
  intros x Hx. apply Hf. by eapply elem_of_sublist.
Qed.

Lemma group_key_total balance_fields n :
  fields_readable n → ∃ key, group_key balance_fields n = Ok key.
Proof.
  intros Hn. unfold group_key.
  induction balance_fields as [|f fs [key IH]]; simpl; [by eexists|].
  destruct (Hn f) as [s ->]. simpl. rewrite IH. simpl. by eexists.
Qed.

Lemma balanced_sample_total nodes limit filters g :
  0 ≤ limit < len nodes →
  Forall fields_readable nodes →
  ∃ r g', _balanced_sample nodes limit filters g = Ok (r, g').
Proof.
  intros [H0 Hlt] Hwf. unfold _balanced_sample.
  destruct (balance_fields_of filters) as [|f fs] eqn:Hbf.
  { apply random_sample_total. lia. }
  unfold Rbind, Rlift, Rret. rewrite <- Hbf. clear f fs Hbf.
  destruct (build_groups_total (balance_fields_of filters) nodes [])
    as [groups Hgroups].
  { eapply Forall_impl; [exact Hwf|]. intros n Hn. by apply group_key_total. }
  rewrite Hgroups.
  destruct (build_groups_spec _ _ _ _ Hgroups) as [Hkeys Hperm]; [constructor|].
  simpl in Hperm.
  destruct (random_shuffle (pd_keys groups) g) as [[group_keys g1]|] eqn:Hsh;
    [|discriminate].
  apply random_shuffle_ok in Hsh.
  assert (Hne : (0 < length group_keys)%nat).
  { rewrite Hsh. destruct groups as [|kv groups]; [|simpl; lia].
    simpl in Hperm. apply Permutation_length in Hperm. unfold len in Hlt.
    simpl in Hperm. lia. }
  unfold divmod. destruct (len group_keys =? 0) eqn:Hz.
  { apply Z.eqb_eq in Hz. unfold len in Hz. lia. }
  cbn [fst snd].
  destruct (take_loop_total groups
              (make_quotas (limit `div` len group_keys)
                 (limit `mod` len group_keys) 0 group_keys [])
              group_keys [] 0 g1) as ([res sf] & g2 & Hloop).
  { intros k Hk. rewrite Hsh in Hk.
    destruct (pd_get groups k) eqn:Hg; [by eexists|].
    by apply pd_get_None in Hg. }
  { intros k Hk. apply make_quotas_lookup; [|done|by left].
    apply Z.div_pos; unfold len; lia. }
  rewrite Hloop. cbn [fst snd].
  destruct (take_loop_ok _ _ _ _ _ _ _ _ _ Hloop) as (picked & -> & _ & _ & Hsf).
  destruct (0 <? sf) eqn:Hpos; [|by eexists _, _].
  apply Z.ltb_lt in Hpos.
  destruct (filter _ nodes) as [|n0 remaining] eqn:Hrem; [by eexists _, _|].
  destruct (random_sample_total (n0 :: remaining)
              (sf `min` len (n0 :: remaining)) g2) as (extra & g3 & ->).
  { unfold len. simpl. lia. }
  by eexists _, _.
Qed.

(** ** [fetch_healthy_nodes] *)

Lemma apply_filters_total (filters : filters_t) (l : list node_obj) :
  Forall fields_readable l → ∃ l', apply_filters filters l = Ok l'.
Proof.
  revert l. induction filters as [|fv rest IH]; intros l Hl; simpl; [by eexists|].
  destruct (rfilter_total (passes_filter fv) l) as [l1 H1].
  { eapply Forall_impl; [exact Hl|]. intros n Hn. unfold passes_filter.
    destruct (Hn (fst fv)) as [s ->]. simpl. by eexists. }
  rewrite H1. simpl. apply IH. apply rfilter_ok in H1 as [Hs _].
  by apply (sublist_Forall _ _ _ Hs).
Qed.

Lemma healthy_hostname health n :
  is_healthy health n = Ok true →
  ∃ h, ofields n !! "hostname" = Some (PStr h) ∧ health !! h = Some "healthy".
Proof.
  unfold is_healthy, getitem. destruct (ofields n !! "hostname") as [v|]; [|done].
  simpl. intros [= Hd]. apply bool_decide_eq_true in Hd.
  destruct v; try discriminate. by exists s.
Qed.

Lemma wf_healthy_readable health n :
  wf_node n → is_healthy health n = Ok true → fields_readable n.
Proof.
  intros [_ Hv] (h & Hh & _)%healthy_hostname f.
  assert (Hget : ∀ k, ∃ s, py_or (dict_get (ofields n) (Some k)) (PStr "") = PStr s).
  { intros k. simpl. destruct (ofields n !! k) as [v|] eqn:Hk; simpl; [|by eexists].
    destruct (Hv _ _ Hk) as [->|[s ->]]; unfold py_or; simpl; [by eexists|].
    destruct (negb _); by eexists. }
  destruct f; unfold _node_field_value, getitem; cbn [NODE_FILTER_FIELDS].
  { rewrite Hh. simpl. unfold list_item.
    destruct (split_on "." h) as [|p ps] eqn:Hs; [|by eexists].
    destruct h; simpl in Hs; [done|]. destruct (Ascii.eqb _ _); [done|].
    by destruct (split_on _ h). }
  all: match goal with |- context [dict_get _ (Some ?k)] =>
         destruct (Hget k) as [s ->] end; by eexists.
Qed.

Lemma fetch_healthy_nodes_ok cache health limit filters g r g' :
  fetch_healthy_nodes cache health limit filters g = Ok (r, g') →
  (∀ L, limit = Some L → len r ≤ L) ∧
  Forall (fun n => n ∈ cache ∧ is_healthy health n = Ok true ∧
                   Forall (fun fv => passes_filter fv n = Ok true) filters) r.
Proof.
  unfold fetch_healthy_nodes, Rbind, Rlift, Rret.
  destruct (rfilter (is_healthy health) cache) as [h0|] eqn:H0; [|discriminate].
  apply rfilter_ok in H0 as [Hs0 Hf0].
  assert (Hsame : match filters with [] => Ok h0 | _ => apply_filters filters h0 end
                  = apply_filters filters h0) by (by destruct filters).
  rewrite Hsame. clear Hsame.
  destruct (apply_filters filters h0) as [h1|] eqn:H1; [|discriminate].
  apply apply_filters_ok in H1 as [Hs1 Hf1].
  assert (Hall : ∀ n, n ∈ h1 →
            n ∈ cache ∧ is_healthy health n = Ok true ∧
            Forall (fun fv => passes_filter fv n = Ok true) filters).
  { intros n Hn. rewrite Forall_forall in Hf0, Hf1.
    pose proof (elem_of_sublist _ _ _ Hn Hs1) as Hn0.
    split; [by eapply elem_of_sublist|]. split; [by apply Hf0 | by apply Hf1]. }
  destruct limit as [L|]; [destruct (L <? len h1) eqn:HL|].
  - destruct filters as [|fv filters].
    + intros (Hk & Hsub & Hlen)%random_sample_ok. split.
      * intros ? [= <-]. lia.
      * apply Forall_forall. intros n Hn. apply Hall. by eapply elem_of_submseteq.
    + intros (Hin & Hlen & _)%balanced_sample_ok. split.
      * by intros ? [= <-].
      * apply Forall_forall. intros n Hn. by apply Hall, Hin.
  - apply Z.ltb_ge in HL. intros [= <- <-]. split.
    + by intros ? [= <-].
    + by apply Forall_forall.
  - intros [= <- <-]. split; [done | by apply Forall_forall].
Qed.

Lemma fetch_healthy_nodes_total cache health limit filters g :
  Forall wf_node cache →
  (∀ L, limit = Some L → 0 ≤ L) →
  ∃ r g', fetch_healthy_nodes cache health limit filters g = Ok (r, g').
Proof.
  intros Hwf HL. unfold fetch_healthy_nodes, Rbind, Rlift, Rret.
  destruct (rfilter_total (is_healthy health) cache) as [h0 H0].
  { eapply Forall_impl; [exact Hwf|]. intros n [[v Hv] _].
    unfold is_healthy, getitem. rewrite Hv. simpl. by eexists. }
  rewrite H0. apply rfilter_ok in H0 as [Hs0 Hf0].
  assert (Hr0 : Forall fields_readable h0).
  { apply Forall_forall. intros n Hn. rewrite Forall_forall in Hf0, Hwf.
    eapply wf_healthy_readable; [|by apply Hf0]. apply Hwf.
    by eapply elem_of_sublist. }
  assert (Hsame : match filters with [] => Ok h0 | _ => apply_filters filters h0 end
                  = apply_filters filters h0) by (by destruct filters).
  rewrite Hsame. clear Hsame.
  destruct (apply_filters_total filters h0 Hr0) as [h1 H1]. rewrite H1.
  apply apply_filters_ok in H1 as [Hs1 _].
  destruct limit as [L|]; [|by eexists _, _].
  destruct (L <? len h1) eqn:Hlt; [|by eexists _, _].
  apply Z.ltb_lt in Hlt. specialize (HL L eq_refl).
  destruct filters as [|fv filters].
  - apply random_sample_total. lia.
  - apply balanced_sample_total; [lia|]. by apply (sublist_Forall _ _ _ Hs1).
Qed.

(** ** Claims on sampling and on the query for healthy nodes *)

Lemma passes_filter_true fv n :
  passes_filter fv n = Ok true →
  ∃ v, _node_field_value n (fst fv) = Ok (PStr v) ∧ lower v ∈ snd fv.
Proof.
  unfold passes_filter.
  destruct (_node_field_value n (fst fv)) as [v|]; [|discriminate]. simpl.
  destruct v; try discriminate. simpl. intros [= Hd%bool_decide_eq_true].
  by eexists.
Qed.

(** C2: for a list of distinct node objects, a limit [L] with
    [0 <= L < len nodes] and any filter map, every result of
    [_balanced_sample] has exactly [min L (len nodes)] records and no
    record twice; and the call returns whenever the filter fields of the
    nodes can be read. *)
Theorem C2_balanced_sample_size (nodes : list node_obj) (L : Z)
    (filters : filters_t) (g : rng) :
  0 ≤ L < len nodes →
  NoDup (oid <$> nodes) →
  (∀ r g', _balanced_sample nodes L filters g = Ok (r, g') →
     len r = Z.min L (len nodes) ∧ NoDup (oid <$> r) ∧ NoDup r) ∧
  (Forall fields_readable nodes →
   ∃ r g', _balanced_sample nodes L filters g = Ok (r, g')).
Proof.
  intros HL Hnd. split.
  - intros r g' (_ & _ & Hex)%balanced_sample_ok.
    destruct Hex as [Hlen Hnd']; [done | lia |].
    split; [lia|]. split; [done | by eapply NoDup_fmap_1].
  - intros Hr. by apply balanced_sample_total.
Qed.

Lemma C2_balanced_sample_size_witness :
  (0 ≤ 2 < len sample_roster) ∧
  NoDup (oid <$> sample_roster) ∧
  (∀ r g', _balanced_sample sample_roster 2 sample_filters [3; 1; 4]%nat
           = Ok (r, g') →
     len r = Z.min 2 (len sample_roster) ∧ NoDup (oid <$> r) ∧ NoDup r) ∧
  (Forall fields_readable sample_roster →
   ∃ r g', _balanced_sample sample_roster 2 sample_filters [3; 1; 4]%nat
           = Ok (r, g')).
Proof.
  assert (H1 : 0 ≤ 2 < len sample_roster) by (unfold len; simpl; lia).
  assert (H2 : NoDup (oid <$> sample_roster)).
  { apply (bool_decide_unpack _). vm_compute. exact I. }
  split; [exact H1|]. split; [exact H2|].
  exact (C2_balanced_sample_size sample_roster 2 sample_filters [3; 1; 4]%nat H1 H2).
Defined.

(** C3: whatever [fetch_healthy_nodes] returns for a limit [L] has at
    most [L] records, each of a hostname labelled healthy and each passing
    every filter; and the call returns for every non-negative limit on a
    roster of well-formed records. *)
Theorem C3_fetch_healthy_nodes (cache : list node_obj)
    (health : gmap string string) (L : Z) (filters : filters_t) (g : rng) :
  (∀ r g', fetch_healthy_nodes cache health (Some L) filters g = Ok (r, g') →
     len r ≤ L ∧
     Forall (fun n =>
       (∃ h, ofields n !! "hostname" = Some (PStr h)
             ∧ health !! h = Some "healthy") ∧
       Forall (fun fv => ∃ v, _node_field_value n (fst fv) = Ok (PStr v)
                              ∧ lower v ∈ snd fv) filters) r) ∧
  (0 ≤ L → Forall wf_node cache →
   ∃ r g', fetch_healthy_nodes cache health (Some L) filters g = Ok (r, g')).
Proof.
  split.
  - intros r g' [HL Hall]%fetch_healthy_nodes_ok. split; [by apply HL|].
    eapply Forall_impl; [exact Hall|]. intros n (_ & Hh & Hf). split.
    + by apply healthy_hostname.
    + eapply Forall_impl; [exact Hf|]. intros fv. apply passes_filter_true.
  - intros H0 Hwf. apply fetch_healthy_nodes_total; [done|]. by intros ? [= <-].
Qed.

Lemma sample_node_wf i hostname continent :
  wf_node (sample_node i hostname continent).
Proof.
  split; [by eexists|]. intros k v H. unfold sample_node in H. simpl in H.
  repeat (apply lookup_insert_Some in H as [[_ <-]|[_ H]]; [eauto|]).
  by rewrite lookup_empty in H.
Qed.

Lemma C3_fetch_healthy_nodes_witness :
  0 ≤ 1 ∧
  Forall wf_node sample_roster ∧
  ∃ r g',
    fetch_healthy_nodes sample_roster sample_health (Some 1) sample_filters
                        [2; 7]%nat = Ok (r, g') ∧
    len r ≤ 1 ∧
    Forall (fun n =>
      (∃ h, ofields n !! "hostname" = Some (PStr h)
            ∧ sample_health !! h = Some "healthy") ∧
      Forall (fun fv => ∃ v, _node_field_value n (fst fv) = Ok (PStr v)
                             ∧ lower v ∈ snd fv) sample_filters) r.
Proof.
  assert (H0 : 0 ≤ 1) by lia.
  assert (Hwf : Forall wf_node sample_roster)
    by (repeat (apply Forall_cons; split; [apply sample_node_wf|]);
        apply Forall_nil_2).
  split; [exact H0|]. split; [exact Hwf|].
  destruct (C3_fetch_healthy_nodes sample_roster sample_health 1
              sample_filters [2; 7]%nat) as [Hpartial Htotal].
  destruct (Htotal H0 Hwf) as (r & g' & Hr).
  exists r, g'. split; [exact Hr|]. exact (Hpartial r g' Hr).
Defined.

(** C10: when the record's value for a filter field is missing or [None],
    [_node_field_value] returns the empty string for that field, the test
    of a filter on that field whose allowed values do not contain the
    empty string is false, and [fetch_healthy_nodes] called with such a
    filter never returns the record. *)
Theorem C10_missing_field_fails_filter (n : node_obj) (f : field)
    (key : string) :
  NODE_FILTER_FIELDS f = Some key →
  (ofields n !! key = None ∨ ofields n !! key = Some PNone) →
  _node_field_value n f = Ok (PStr "") ∧
  ∀ allowed : gset string, "" ∉ allowed →
    passes_filter (f, allowed) n = Ok false ∧
    ∀ cache health limit (filters : filters_t) g r g',
      (f, allowed) ∈ filters →
      fetch_healthy_nodes cache health limit filters g = Ok (r, g') →
      n ∉ r.
Proof.
  intros Hf Hv.
  assert (Hval : _node_field_value n f = Ok (PStr "")).
  { destruct f; try discriminate; injection Hf as <-;
      unfold _node_field_value; simpl; by destruct Hv as [-> | ->]. }
  split; [exact Hval|]. intros allowed Hne.
  assert (Hpass : passes_filter (f, allowed) n = Ok false).
  { unfold passes_filter. simpl. rewrite Hval. simpl.
    by rewrite bool_decide_eq_false_2. }
  split; [exact Hpass|].
  intros cache health limit filters g r g' Hin [_ Hall]%fetch_healthy_nodes_ok Hn.
  rewrite Forall_forall in Hall. destruct (Hall n Hn) as (_ & _ & Hfs).
  rewrite Forall_forall in Hfs. specialize (Hfs _ Hin). congruence.
Qed.

Lemma C10_missing_field_fails_filter_witness :
  NODE_FILTER_FIELDS F_city = Some "city" ∧
  (ofields (sample_node 0 "a.example" "Europe") !! "city" = None ∨
   ofields (sample_node 0 "a.example" "Europe") !! "city" = Some PNone) ∧
  _node_field_value (sample_node 0 "a.example" "Europe") F_city = Ok (PStr "") ∧
  ∀ allowed : gset string, "" ∉ allowed →
    passes_filter (F_city, allowed) (sample_node 0 "a.example" "Europe")
      = Ok false ∧
    ∀ cache health limit (filters : filters_t) g r g',
      (F_city, allowed) ∈ filters →
      fetch_healthy_nodes cache health limit filters g = Ok (r, g') →
      sample_node 0 "a.example" "Europe" ∉ r.
Proof.
  assert (H1 : NODE_FILTER_FIELDS F_city = Some "city") by reflexivity.
  assert (H2 : ofields (sample_node 0 "a.example" "Europe") !! "city" = None ∨
               ofields (sample_node 0 "a.example" "Europe") !! "city" = Some PNone)
    by (right; reflexivity).
  split; [exact H1|]. split; [exact H2|].
  exact (C10_missing_field_fails_filter _ F_city "city" H1 H2).
Defined.

(** ** The session manager *)

Lemma add_then_discard (a : gset string) (h : string) :
  h ∉ a → (a ∪ {[h]}) ∖ {[h]} = a.
Proof. set_solver. Qed.

Section SessionFacts.
Variable env : nat → proc_result.
Variables user template home : string.

Local Abbreviation start := (start_session env user template home).
Local Abbreviation stop := (stop_session env user template home).
Local Abbreviation master := (master_command user template home).

(** The three ways a call of [start_session] can go. *)
Lemma start_session_cases (h : string) (st : state) :
  (h ∈ active_sessions st ∧ start h st = (Ok true, st)) ∨
  ((h ∉ active_sessions st) ∧
   (∃ out, env (length (calls st)) = Exited 0 out) ∧
   start h st =
     (Ok true, log_call (master h) (set_active (fun a => a ∪ {[h]}) st))) ∨
  ((h ∉ active_sessions st) ∧
   (∀ out, env (length (calls st)) ≠ Exited 0 out) ∧
   start h st =
     (Ok false,
      set_active (fun a => a ∖ {[h]})
        (log_call (master h) (set_active (fun a => a ∪ {[h]}) st)))).
Proof.
  unfold start_session, master_command, Mbind, Mget, Mtry, Mmodify, Mret, subprocess_run.
  destruct (bool_decide (h ∈ active_sessions st)) eqn:Hin.
  - left. by apply bool_decide_eq_true in Hin.
  - right. apply bool_decide_eq_false in Hin. simpl.
    destruct (env (length (calls st))) as [rc out| |] eqn:Henv.
    + destruct (rc =? 0) eqn:Hrc; simpl.
      * left. apply Z.eqb_eq in Hrc as ->. split; [done|]. split; [by eexists|done].
      * right. apply Z.eqb_neq in Hrc. split; [done|].
        split; [intros out' [= -> _]; done | done].
    + right. split; [done|]. split; [by intros out'|done].
    + right. split; [done|]. split; [by intros out'|done].
Qed.

(** C4: [start_session] on a present hostname returns ok and changes
    nothing (so runs no command); otherwise it runs exactly one command,
    the spawn of the master, at a moment where the hostname is already
    recorded as present; it returns ok exactly if the spawn exits zero, and
    on a spawn failure (non-zero exit, timeout or OS error) it returns
    fail with the set of active sessions as it was before the call. *)
Theorem C4_start_session_idempotent_atomic (h : string) (st : state) :
  (h ∈ active_sessions st →
   start_session env user template home h st = (Ok true, st)) ∧
  (h ∉ active_sessions st →
   ∃ r st',
     start_session env user template home h st = (r, st') ∧
     calls st' = (master h, active_sessions st ∪ {[h]}) :: calls st ∧
     (r = Ok true ↔ ∃ out, env (length (calls st)) = Exited 0 out) ∧
     (r = Ok true → active_sessions st' = active_sessions st ∪ {[h]}) ∧
     (r ≠ Ok true → r = Ok false ∧ active_sessions st' = active_sessions st) ∧
     node_cache st' = node_cache st ∧
     session_health st' = session_health st).
Proof.
  split; intros Hin.
  - destruct (start_session_cases h st) as [[_ ->]|[[? _]|[? _]]]; done.
  - destruct (start_session_cases h st)
      as [[? _]|[(_ & [out Hout] & ->)|(_ & Hfail & ->)]]; [done| |].
    + eexists _, _. split; [done|]. simpl.
      split; [done|]. split; [split; [by eauto | done]|].
      split; [done|]. split; [done|]. done.
    + eexists _, _. split; [done|]. simpl.
      split; [done|]. split.
      { split; [done|]. intros [out Hout]. by destruct (Hfail out). }
      split; [done|]. split; [|done]. intros _. split; [done|].
      by apply add_then_discard.
Qed.

Lemma stop_session_cases (h : string) (st : state) :
  ((h ∉ active_sessions st) ∧ stop h st = (Ok tt, st)) ∨
  (h ∈ active_sessions st ∧
   stop h st =
     (Ok tt,
      log_call (SshExit (ssh_control_path user template home h)
                        (user ++ "@" ++ h))
               (set_active (fun a => a ∖ {[h]}) st))).
Proof.
  unfold stop_session, Mbind, Mget, Mtry, Mmodify, Mret, subprocess_run.
  destruct (bool_decide (h ∈ active_sessions st)) eqn:Hin; simpl.
  - right. apply bool_decide_eq_true in Hin. split; [done|].
    by destruct (env (length (calls st))).
  - left. by apply bool_decide_eq_false in Hin.
Qed.

(** *** Reconciliation of an unreachable host *)

(** When the health check and the restart both fail, the host is labelled
    restarted although it has no session. *)
Lemma check_and_manage_restart_fails (h : string) (st : state) :
  (∀ n out, env n ≠ Exited 0 out) →
  (∀ n, env n ≠ ProcTimeout ∧ env n ≠ ProcOSError) →
  ∃ st',
    check_and_manage_ssh_session env user template home h st = (Ok false, st') ∧
    session_health st' !! h = Some "restarted" ∧
    h ∉ active_sessions st'.
Proof.
  intros Hfail Hexit.
  assert (Hrun : ∀ cmd s, ∃ rc out,
            env (length (calls s)) = Exited rc out ∧ rc ≠ 0 ∧
            subprocess_run env cmd s = (Ok rc, log_call cmd s)).
  { intros cmd s. unfold subprocess_run.
    destruct (env (length (calls s))) as [rc out| |] eqn:He.
    - exists rc, out. split; [done|]. split; [|done]. intros ->. by eapply Hfail.
    - by destruct (Hexit (length (calls s))).
    - by destruct (Hexit (length (calls s))). }
  assert (Hstart : ∀ s, ∃ s', start h s = (Ok (bool_decide (h ∈ active_sessions s)), s')
            ∧ (h ∈ active_sessions s' ↔ h ∈ active_sessions s)
            ∧ session_health s' = session_health s).
  { intros s. destruct (start_session_cases h s)
      as [[Hin ->]|[(_ & [out Hout] & _)|(Hin & _ & ->)]].
    - exists s. by rewrite bool_decide_eq_true_2.
    - by destruct (Hfail (length (calls s)) out).
    - eexists. rewrite bool_decide_eq_false_2 by done. split; [done|].
      simpl. split; [|done]. set_solver. }
  unfold check_and_manage_ssh_session, Mbind.
  destruct (Hstart st) as (s1 & -> & Hin1 & Hh1).
  destruct (Hrun (SshCheck (ssh_control_path user template home h) h) s1)
    as (rc & out & _ & Hrc & ->).
  apply Z.eqb_neq in Hrc. rewrite Hrc.
  set (s2 := log_call _ s1).
  destruct (stop_session_cases h s2) as [[Hout ->]|[Hin ->]].
  - destruct (Hstart s2) as (s3 & -> & Hin3 & Hh3).
    eexists. split; [done|]. simpl. rewrite lookup_insert_eq. split; [done|].
    by rewrite Hin3.
  - set (s3 := log_call _ _).
    destruct (Hstart s3) as (s4 & -> & Hin4 & Hh4).
    eexists. split; [done|]. simpl. rewrite lookup_insert_eq. split; [done|].
    rewrite Hin4. subst s3. simpl. set_solver.
Qed.
End SessionFacts.

(** *** When reconciliation keeps the invariant *)

Section ReconcileFacts.
Variable env : nat → proc_result.
Variables user template home : string.

Lemma only_touches_refl h s : only_touches h s s.
Proof. by split. Qed.

Lemma only_touches_trans h s1 s2 s3 :
  only_touches h s1 s2 → only_touches h s2 s3 → only_touches h s1 s3.
Proof.
  intros [A1 B1] [A2 B2]. split; intros x Hx.
  - by rewrite A2, A1.
  - by rewrite B2, B1.
Qed.

Lemma start_session_only_touches h s :
  only_touches h s (snd (start_session env user template home h s)).
Proof.
  destruct (start_session_cases env user template home h s)
    as [[_ ->]|[(_ & _ & ->)|(_ & _ & ->)]]; simpl.
  - apply only_touches_refl.
  - split; intros x Hx; simpl; [set_solver | done].
  - split; intros x Hx; simpl; [set_solver | done].
Qed.

Lemma stop_session_only_touches h s :
  only_touches h s (snd (stop_session env user template home h s)).
Proof.
  destruct (stop_session_cases env user template home h s)
    as [[_ ->]|[_ ->]]; simpl.
  - apply only_touches_refl.
  - split; intros x Hx; simpl; [set_solver | done].
Qed.

Lemma check_and_manage_only_touches h s :
  only_touches h s
    (snd (check_and_manage_ssh_session env user template home h s)).
Proof.
  unfold check_and_manage_ssh_session, Mbind.
  pose proof (start_session_only_touches h s) as H1.
  destruct (start_session env user template home h s) as [[b1|e1] s1];
    simpl in H1 |- *; [|done].
  unfold subprocess_run.
  assert (H2 : only_touches h s (log_call
                 (SshCheck (ssh_control_path user template home h) h) s1)).
  { destruct H1 as [A B]. by split. }
  destruct (env (length (calls s1))) as [rc out| |]; simpl; [|done|done].
  destruct (rc =? 0); simpl.
  - destruct H2 as [A B]. split; intros x Hx; simpl; [by apply A|].
    rewrite lookup_insert_ne by done. by apply B.
  - set (s2 := log_call _ s1) in *.
    pose proof (stop_session_only_touches h s2) as H3.
    destruct (stop_session env user template home h s2) as [[[]|e3] s3];
      simpl in H3 |- *; [|by eapply only_touches_trans].
    pose proof (start_session_only_touches h s3) as H4.
    destruct (start_session env user template home h s3) as [[b4|e4] s4];
      simpl in H4 |- *.
    + pose proof (only_touches_trans _ _ _ _ H2
                    (only_touches_trans _ _ _ _ H3 H4)) as [A B].
      split; intros x Hx; simpl; [by apply A|].
      rewrite lookup_insert_ne by done. by apply B.
    + by eapply only_touches_trans; [|eapply only_touches_trans].
Qed.

(** The reconciliation of a host keeps the invariant exactly if the host
    has a session when it ends. *)
Lemma check_and_manage_keeps_invariant h s :
  health_implies_session s →
  h ∈ active_sessions
        (snd (check_and_manage_ssh_session env user template home h s)) →
  health_implies_session
    (snd (check_and_manage_ssh_session env user template home h s)).
Proof.
  intros Hinv Hh x Hx. destruct (decide (x = h)) as [->|Hne]; [done|].
  destruct (check_and_manage_only_touches h s) as [A B].
  rewrite A by done. apply Hinv. by rewrite <- B.
Qed.
End ReconcileFacts.

(** C1 (fails on the code): from the initial state, where the invariant
    holds, reconciling a host that cannot be reached labels it restarted
    while it has no active session. *)
Theorem C1_restart_failure_breaks_invariant :
  health_implies_session initial_state ∧
  ∃ st',
    check_and_manage_ssh_session unreachable "rise"
      "/tmp/ssh-control/nlnog-%r@%h:%p" "/root" "b.example" initial_state
      = (Ok false, st') ∧
    session_health st' !! "b.example" = Some "restarted" ∧
    ("b.example" ∉ active_sessions st') ∧
    ¬ health_implies_session st'.
Proof.
  split.
  - intros h [H|H]; simpl in H; by rewrite lookup_empty in H.
  - destruct (check_and_manage_restart_fails unreachable "rise"
                "/tmp/ssh-control/nlnog-%r@%h:%p" "/root" "b.example"
                initial_state) as (st' & Hrun & Hh & Hout).
    + by intros n out.
    + by intros n.
    + exists st'. split; [done|]. split; [done|]. split; [done|].
      intros Hinv. apply Hout, Hinv. by right.
Qed.

(** ** Loops over the state *)

Lemma Mfor_ext {A} (l : list A) (body body' : A → M unit) :
  (∀ x s, x ∈ l → body x s = body' x s) →
  ∀ s, Mfor l body s = Mfor l body' s.
Proof.
  induction l as [|x l IH]; intros Hb s; [done|].
  simpl. unfold Mbind. rewrite Hb by (by left).
  destruct (body' x s) as [[[]|e] s']; [|done].
  apply IH. intros y s0 Hy. apply Hb. by right.
Qed.

Lemma Mfor_inv {A} (I : state → Prop) (l : list A) (body : A → M unit) :
  (∀ x s, x ∈ l → I s → I (snd (body x s))) →
  ∀ s, I s → I (snd (Mfor l body s)).
Proof.
  induction l as [|x l IH]; intros Hb s Hs; [done|].
  simpl. unfold Mbind. pose proof (Hb x s ltac:(by left) Hs) as H1.
  destruct (body x s) as [[[]|e] s']; [|done].
  apply IH; [|done]. intros y s0 Hy. apply Hb. by right.
Qed.

Lemma append_inj_r (p a b : string) : p ++ a = p ++ b → a = b.
Proof. induction p as [|c p IH]; simpl; [done|]. intros [= H]. by apply IH. Qed.

Lemma elem_of_sorted (hosts : gset string) (h : string) :
  h ∈ sorted hosts ↔ h ∈ hosts.
Proof. unfold sorted. by rewrite merge_sort_Permutation, elem_of_elements. Qed.

(** ** Startup *)

Section StartupFacts.
Variable env : nat → proc_result.
Variables user template home : string.

Local Abbreviation master := (master_command user template home).

Lemma keeps_refl cmd h s : keeps cmd h s s.
Proof. by repeat split. Qed.

Lemma keeps_trans cmd h s1 s2 s3 :
  keeps cmd h s1 s2 → keeps cmd h s2 s3 → keeps cmd h s1 s3.
Proof.
  intros (A1 & B1 & C1) (A2 & B2 & C2). split; [by auto|].
  split; [by rewrite B2|]. by auto.
Qed.

Lemma start_session_keeps (h x : string) (s : state) :
  x ≠ h → keeps (master h) h s (snd (start_session env user template home x s)).
Proof.
  intros Hne.
  destruct (start_session_cases env user template home x s)
    as [[_ ->]|[(_ & _ & ->)|(_ & _ & ->)]]; simpl.
  - apply keeps_refl.
  - split; [simpl; set_solver|]. split; [done|]. simpl.
    intros snap [Heq|?]%elem_of_cons; [|done].
    unfold master_command in Heq. injection Heq as _ Heq _.
    by apply append_inj_r, append_inj_r in Heq.
  - split; [simpl; set_solver|]. split; [done|]. simpl.
    intros snap [Heq|?]%elem_of_cons; [|done].
    unfold master_command in Heq. injection Heq as _ Heq _.
    by apply append_inj_r, append_inj_r in Heq.
Qed.

(** The step of [start_sessions_parallel] for one host. *)
Lemma parallel_step_keeps (h x : string) (s : state) :
  x ≠ h →
  keeps (master h) h s
    (snd ((let! success := Mtry (start_session env user template home x)
                                (fun _ => Mret false) in
           _progress x success) s)).
Proof.
  intros Hne. unfold Mbind, Mtry.
  pose proof (start_session_keeps h x s Hne) as Hk.
  destruct (start_session env user template home x s) as [[b|e] s1]; simpl in *.
  - destruct b; simpl; [|done]. destruct Hk as (A & B & C).
    split; [done|]. split; [|done]. simpl. by rewrite lookup_insert_ne.
  - done.
Qed.

Lemma start_sessions_parallel_keeps (h : string) (hostnames : gset string)
    (s : state) :
  h ∈ active_sessions s →
  keeps (master h) h s (snd (start_sessions_parallel env user template home hostnames
                    (Some _progress) s)).
Proof.
  intros Hin. unfold start_sessions_parallel, Mbind, Mget.
  destruct (bool_decide (hostnames ∖ active_sessions s = ∅)); [apply keeps_refl|].
  apply (Mfor_inv (fun s' => keeps (master h) h s s')); [|apply keeps_refl].
  intros x s' Hx Hk. eapply keeps_trans; [exact Hk|].
  apply parallel_step_keeps. intros ->.
  apply elem_of_sorted in Hx. set_solver.
Qed.

Lemma cleanup_stale_sockets_health (s : state) :
  session_health (snd (cleanup_stale_sockets env user template s))
  = session_health s.
Proof.
  unfold cleanup_stale_sockets, Mbind, Mget.
  destruct (control_dir s) as [entries|]; [|done].
  apply (Mfor_inv (fun s' => session_health s' = session_health s)); [|done].
  intros entry s' _ Hs'.
  destruct (negb _); [done|].
  destruct (parse_socket_hostname _ entry) as [hostname|]; [|done].
  unfold Mtry, Mbind, subprocess_run, os_remove, Mmodify, Mraise, Mret.
  destruct (env (length (calls s'))) as [rc out| |]; simpl; [|done|done].
  by destruct (rc =? 0).
Qed.

Lemma parallel_callback_unused (h : string) (hostnames : gset string)
    (cb cb' : string → bool → M unit) (s : state) :
  h ∈ active_sessions s →
  (∀ x ok s', x ≠ h → cb x ok s' = cb' x ok s') →
  start_sessions_parallel env user template home hostnames (Some cb) s
  = start_sessions_parallel env user template home hostnames (Some cb') s.
Proof.
  intros Hin Hcb. unfold start_sessions_parallel, Mbind, Mget.
  destruct (bool_decide (hostnames ∖ active_sessions s = ∅)); [done|].
  apply Mfor_ext. intros x s' Hx. unfold Mbind.
  destruct (Mtry _ _ s') as [[ok|e] s'']; [|done].
  apply Hcb. intros ->. apply elem_of_sorted in Hx. set_solver.
Qed.

Lemma startup_restore_sessions_keeps (coco : string → string → string)
    (h : string) (c : catalog) (s0 : state) :
  h ∈ active_sessions (snd (cleanup_stale_sockets env user template s0)) →
  keeps (master h) h (snd (cleanup_stale_sockets env user template s0))
        (snd (startup_restore_sessions env user template home coco c s0)).
Proof.
  unfold startup_restore_sessions, Mbind.
  destruct (cleanup_stale_sockets env user template s0) as [[[]|e] s1];
    simpl; intros Hin; [|apply keeps_refl].
  unfold load_node_cache, new_objects, save_node_cache, Mbind, Mget, Mret,
    Mmodify, Mraise.
  destruct (cache_file s1) as [text|];
    [destruct (json_loads text) as [cached|]|];
    (destruct (let? raw_nodes := nodes_response c in
               filter_api_nodes coco raw_nodes (fetch_participants c))
       as [contents|]; [destruct (disk_ok c)|]); simpl;
    repeat match goal with
           | |- context [rmap node_hostname ?l] =>
               destruct (rmap node_hostname l) as [hs|]; simpl
           end;
    try apply keeps_refl; try (by repeat split).
  all: match goal with
       | |- keeps _ _ _ (snd (start_sessions_parallel _ _ _ _ ?hs _ ?s)) =>
           pose proof (start_sessions_parallel_keeps h hs s Hin) as Hk
       end.
  all: by destruct Hk as (A & B & C).
Qed.
End StartupFacts.

Section StartupClaim.
Variable env : nat → proc_result.
Variables user template home : string.
Variable coco : string → string → string.

Lemma check_and_manage_labels (h : string) (s : state) (out : string) :
  h ∈ active_sessions s →
  env (length (calls s)) = Exited 0 out →
  ∃ s', check_and_manage_ssh_session env user template home h s = (Ok true, s') ∧
        session_health s' !! h = Some "healthy" ∧ h ∈ active_sessions s'.
Proof.
  intros Hin Henv. unfold check_and_manage_ssh_session, Mbind.
  destruct (start_session_cases env user template home h s)
    as [[_ ->]|[(? & _)|(? & _)]]; [|done|done].
  unfold subprocess_run. rewrite Henv. simpl.
  eexists. split; [done|]. simpl. by rewrite lookup_insert_eq.
Qed.

(** C9: a hostname present in the set of active sessions when
    [start_sessions_parallel] is called is not started (the spawn of its
    master is not run) and the callback is never invoked for it (the run
    does not depend on what the callback does for it).  So a hostname [h]
    present after [cleanup_stale_sockets], in particular an adopted one,
    that had no health label before startup, is present and has no health
    label after [startup_restore_sessions]; no query for healthy nodes
    returns a record of [h]; and a later reconciliation of [h] whose health
    check succeeds labels it healthy. *)
Theorem C9_adopted_host_unlabelled (c : catalog) (h : string) (st0 : state) :
  h ∈ active_sessions (snd (cleanup_stale_sockets env user template st0)) →
  session_health st0 !! h = None →
  (∀ hostnames s, h ∈ active_sessions s →
     (∀ cb cb' : string → bool → M unit,
        (∀ x ok s', x ≠ h → cb x ok s' = cb' x ok s') →
        start_sessions_parallel env user template home hostnames (Some cb) s
        = start_sessions_parallel env user template home hostnames (Some cb') s) ∧
     (∀ snap,
        (master_command user template home h, snap)
          ∈ calls (snd (start_sessions_parallel env user template home
                          hostnames (Some _progress) s)) →
        (master_command user template home h, snap) ∈ calls s)) ∧
  let st2 := snd (startup_restore_sessions env user template home coco c st0) in
  h ∈ active_sessions st2 ∧
  session_health st2 !! h = None ∧
  (∀ limit filters g r g',
     fetch_healthy_nodes (node_cache st2) (session_health st2) limit filters g
       = Ok (r, g') →
     ∀ n, n ∈ r → ofields n !! "hostname" ≠ Some (PStr h)) ∧
  (∀ out, env (length (calls st2)) = Exited 0 out →
     ∃ st3,
       check_and_manage_ssh_session env user template home h st2 = (Ok true, st3) ∧
       session_health st3 !! h = Some "healthy").
Proof.
  intros Hin Hnone. split.
  { intros hostnames s Hs. split.
    - intros cb cb'. by apply parallel_callback_unused.
    - intros snap Hsnap.
      destruct (start_sessions_parallel_keeps env user template home h
                  hostnames s Hs) as (_ & _ & Hc).
      by apply Hc. }
  intros st2.
  destruct (startup_restore_sessions_keeps env user template home coco h c st0 Hin)
    as (Ha & Hh & _).
  fold st2 in Ha, Hh. rewrite cleanup_stale_sockets_health in Hh.
  assert (Hin2 : h ∈ active_sessions st2) by auto.
  assert (Hn2 : session_health st2 !! h = None) by congruence.
  split; [done|]. split; [done|]. split.
  - intros limit filters g r g' [_ Hall]%fetch_healthy_nodes_ok n Hn Hhost.
    rewrite Forall_forall in Hall. destruct (Hall n Hn) as (_ & Hhealthy & _).
    apply healthy_hostname in Hhealthy as (h' & Hh' & Hlabel). congruence.
  - intros out Hout.
    destruct (check_and_manage_labels h st2 out Hin2 Hout) as (st3 & ? & ? & _).
    by exists st3.
Qed.
End StartupClaim.

Lemma C9_adopted_host_unlabelled_witness :
  "a.example" ∈ active_sessions
     (snd (cleanup_stale_sockets all_up "rise" default_template restarted_state)) ∧
  session_health restarted_state !! "a.example" = None ∧
  let st2 := snd (startup_restore_sessions all_up "rise" default_template "/root"
                    sample_coco sample_catalog restarted_state) in
  "a.example" ∈ active_sessions st2 ∧
  session_health st2 !! "a.example" = None ∧
  session_health st2 !! "b.example" = Some "healthy".
Proof.
  assert (H1 : "a.example" ∈ active_sessions
     (snd (cleanup_stale_sockets all_up "rise" default_template restarted_state))).
  { apply (bool_decide_unpack _). vm_compute. exact I. }
  assert (H2 : session_health restarted_state !! "a.example" = None)
    by reflexivity.
  split; [exact H1|]. split; [exact H2|].
  destruct (C9_adopted_host_unlabelled all_up "rise" default_template "/root"
              sample_coco sample_catalog "a.example" restarted_state H1 H2)
    as (_ & Ha & Hh & _).
  intros st2. split; [exact Ha|]. split; [exact Hh|].
  vm_compute. reflexivity.
Defined.

(** ** The [/probe] handler *)

Lemma fetch_negative_limit_raises cache health (L : Z) filters g :
  L < 0 → ∃ e, fetch_healthy_nodes cache health (Some L) filters g = Raise e.
Proof.
  intros HL.
  destruct (fetch_healthy_nodes cache health (Some L) filters g)
    as [[r g']|e] eqn:H; [|by eexists].
  apply fetch_healthy_nodes_ok in H as [Hlen _].
  specialize (Hlen L eq_refl). unfold len in Hlen. lia.
Qed.

Section ProbeFacts.
Variable env : nat → proc_result.
Variables user template home : string.
Variable float : Type.
Variable py_float : string → option float.
Variable resolves : string → bool.
Variables count timeout : Z.

Local Abbreviation probe' :=
  (probe env user template home float py_float resolves count timeout).

(** A limit that is not an integer is answered 400. *)
Lemma probe_unparsable_limit args g st target p :
  args_get args "target" = Some target →
  args_get args "limit" = Some p →
  py_int p = None →
  http_status float (fst (probe' args g st)) = 400.
Proof.
  intros Ht Hp Hint. unfold probe. rewrite Ht, Hp, Hint.
  destruct (String.eqb target ""); [done|].
  by destruct (negb (resolves _)).
Qed.

(** A negative limit passes the parsing of the handler and makes the
    query for healthy nodes raise: the answer is 500, unless the target is
    already rejected. *)
Lemma probe_negative_limit args g st target p (z : Z) :
  args_get args "target" = Some target →
  target ≠ "" →
  resolves (strip (default "" (split_on "?" target !! 0%nat))) = true →
  args_get args "limit" = Some p →
  py_int p = Some z → z < 0 →
  ∃ e, fst (probe' args g st) = Raise e ∧
       http_status float (fst (probe' args g st)) = 500.
Proof.
  intros Ht Hne Hres Hp Hint Hz. unfold probe. rewrite Ht, Hp, Hint.
  apply String.eqb_neq in Hne. rewrite Hne, Hres. simpl.
  unfold Mbind, Mget, Mraise.
  destruct (fetch_negative_limit_raises (node_cache st) (session_health st) z
              (build_filters args) g Hz) as [e ->].
  by exists e.
Qed.
End ProbeFacts.

(** C5 (fails on the code): the request [/probe?target=1.1.1.1&limit=-1]
    is not rejected with 400.  The limit parses as the integer -1, the
    query for healthy nodes raises [ValueError], and the answer is 500. *)
Theorem C5_negative_limit_not_rejected :
  py_int "-1" = Some (-1) ∧
  fst (probe all_up "rise" default_template "/root" unit (fun _ => None)
             (fun _ => true) 10 5
             [("target", "1.1.1.1"); ("limit", "-1")] [] initial_state)
    = Raise ValueError ∧
  http_status unit
    (fst (probe all_up "rise" default_template "/root" unit (fun _ => None)
                (fun _ => true) 10 5
                [("target", "1.1.1.1"); ("limit", "-1")] [] initial_state))
    = 500.
Proof. split; [reflexivity|]. split; vm_compute; reflexivity. Qed.

(** ** Classification of the output of ping *)

Lemma prefix_nil_r (p : string) : String.prefix p "" = true → p = "".
Proof. destruct p; simpl; [reflexivity | discriminate]. Qed.

Lemma prefix_app (p l r : string) :
  String.prefix p l = true → String.prefix p (l ++ r) = true.
Proof.
  revert l. induction p as [|a p IH]; intros l; [by destruct (l ++ r)|].
  destruct l as [|b l]; simpl; [discriminate|].
  destruct (ascii_dec a b); [apply IH | discriminate].
Qed.

Lemma splitlines_head (s l : string) (ls : list string) :
  splitlines_from false s = l :: ls → ∃ rest, s = l ++ rest.
Proof.
  revert l ls. induction s as [|c s IH]; intros l ls; [done|].
  simpl. destruct (is_linebreak c).
  - intros [= <- _]. by exists (String c s).
  - destruct (splitlines_from false s) as [|l1 ls1] eqn:Hs.
    + intros [= <- _]. by exists s.
    + intros [= <- _]. destruct (IH l1 ls1 eq_refl) as [rest ->].
      by exists rest.
Qed.

Lemma splitlines_contains (p s l : string) (skip : bool) :
  p ≠ "" → l ∈ splitlines_from skip s → String.prefix p l = true →
  contains p s = true.
Proof.
  intros Hp. revert skip l. induction s as [|c s IH]; intros skip l Hl Hpre.
  { by apply elem_of_nil in Hl. }
  cbn [contains]. apply orb_true_iff.
  cbn [splitlines_from] in Hl.
  destruct (skip && Ascii.eqb c "010"); [right; by eapply IH|].
  destruct (is_linebreak c).
  - apply elem_of_cons in Hl as [->|Hl]; [|right; by eapply IH].
    by apply prefix_nil_r in Hpre.
  - destruct (splitlines_from false s) as [|l1 ls1] eqn:Hs.
    + apply list_elem_of_singleton in Hl as ->. left.
      by apply (prefix_app p (String c "") s).
    + apply elem_of_cons in Hl as [->|Hl].
      * left. destruct (splitlines_head s l1 ls1 Hs) as [rest ->].
        by apply (prefix_app p (String c l1) rest).
      * right. apply (IH false l); [|done]. rewrite Hs. by right.
Qed.

Lemma find_some_elem {A} (f : A → bool) (l : list A) (x : A) :
  List.find f l = Some x → x ∈ l ∧ f x = true.
Proof.
  intros [Hin Hf]%List.find_some. split; [by apply list_elem_of_In | done].
Qed.

Section PingFacts.
Variable env : nat → proc_result.
Variables user template home : string.
Variable float : Type.
Variable py_float : string → option float.
Variables count timeout : Z.

(** The parse of the code and the shape of the first [rtt] line agree. *)
Lemma classify_output_spec (output : string) :
  match first_rtt_line output with
  | None => classify_output float py_float output = Ok ("no_rtt", None)
  | Some line =>
      match rtt_line_stats float py_float line with
      | Some stats => classify_output float py_float output = Ok ("ok", Some stats)
      | None => classify_output float py_float output = Raise IndexError
                ∨ classify_output float py_float output = Raise ValueError
      end
  end.
Proof.
  unfold classify_output, first_rtt_line.
  destruct (List.find (String.prefix "rtt") (splitlines output)) as [line|] eqn:Hf.
  - apply find_some_elem in Hf as [Hin Hpre].
    rewrite (splitlines_contains "rtt" output line false) by done.
    destruct (String.eqb line "") eqn:He.
    { apply String.eqb_eq in He as ->. discriminate. }
    unfold rtt_line_stats, list_item, unpack_floats, to_float.
    destruct (split_on "=" line) as [|x [|after rest]]; simpl; [by left..|].
    destruct (split_ws after) as [|word ws]; simpl; [by left|].
    destruct (split_on "/" word) as [|a [|b [|c [|d [|??]]]]]; simpl;
      [by right..| |by right].
    destruct (py_float a); simpl; [|by right].
    destruct (py_float b); simpl; [|destruct (py_float c); by right].
    destruct (py_float c); simpl; [|by right].
    destruct (py_float d); simpl; [done | by right].
  - by destruct (contains "rtt" output).
Qed.

(** C6 (amended): when the remote command succeeds, [ping_from_node]
    returns; the outcome is [no_rtt] exactly if no line of the output begins
    with [rtt]; otherwise the first such line decides: the outcome is [ok]
    with its four numbers if that line has the shape
    [rtt ... = MIN/AVG/MAX/MDEV ...], and [exception] if it has not. *)
Theorem C6_ping_classification (node target output : string) (st : state) :
  env (length (calls st)) = Exited 0 output →
  ∃ status stats st',
    ping_from_node env user template home float py_float count timeout
                   node target st = (Ok (node, status, stats), st') ∧
    (status = "no_rtt" ↔ first_rtt_line output = None) ∧
    match first_rtt_line output with
    | None => status = "no_rtt" ∧ stats = None
    | Some line =>
        match rtt_line_stats float py_float line with
        | Some s => status = "ok" ∧ stats = Some s
        | None => status = "exception" ∧ stats = None
        end
    end.
Proof.
  intros Henv. unfold ping_from_node, Mtry, Mbind, check_output.
  rewrite Henv. simpl. pose proof (classify_output_spec output) as Hc.
  destruct (first_rtt_line output) as [line|].
  - destruct (rtt_line_stats float py_float line) as [s|].
    + rewrite Hc. simpl. eexists _, _, _. split; [done|]. split; [|done].
      split; discriminate.
    + destruct Hc as [-> | ->]; simpl; eexists _, _, _;
        (split; [done|]); (split; [|done]); split; discriminate.
  - rewrite Hc. simpl. eexists _, _, _. split; [done|]. by split.
Qed.
End PingFacts.

Lemma C6_ping_classification_witness :
  (fun _ : nat => Exited 0 sample_ping_output)
    (length (calls initial_state)) = Exited 0 sample_ping_output ∧
  ∃ status stats st',
    ping_from_node (fun _ => Exited 0 sample_ping_output) "rise"
                   default_template "/root" string Some 10 5
                   "a.example" "1.1.1.1" initial_state
      = (Ok ("a.example", status, stats), st') ∧
    (status = "no_rtt" ↔ first_rtt_line sample_ping_output = None) ∧
    match first_rtt_line sample_ping_output with
    | None => status = "no_rtt" ∧ stats = None
    | Some line =>
        match rtt_line_stats string Some line with
        | Some s => status = "ok" ∧ stats = Some s
        | None => status = "exception" ∧ stats = None
        end
    end.
Proof.
  assert (H : (fun _ : nat => Exited 0 sample_ping_output)
                (length (calls initial_state)) = Exited 0 sample_ping_output)
    by reflexivity.
  split; [exact H|].
  exact (C6_ping_classification (fun _ => Exited 0 sample_ping_output) "rise"
           default_template "/root" string Some 10 5
           "a.example" "1.1.1.1" sample_ping_output initial_state H).
Defined.

(** The claim as stated fails: the output below has a second line of the
    shape, and no line of the shape before it, yet the outcome is neither
    [ok] nor [no_rtt] but [exception], because its first line begins with
    [rtt] and has no statistics. *)
Lemma C6_counterexample :
  splitlines truncated_ping_output
    = ["rtt"; "rtt min/avg/max/mdev = 1.204/1.318/1.522/0.094 ms"] ∧
  rtt_line_stats string Some "rtt" = None ∧
  rtt_line_stats string Some "rtt min/avg/max/mdev = 1.204/1.318/1.522/0.094 ms"
    = Some (RttStats string "1.204" "1.318" "1.522" "0.094") ∧
  fst (ping_from_node (fun _ => Exited 0 truncated_ping_output) "rise"
         default_template "/root" string Some 10 5
         "a.example" "1.1.1.1" initial_state)
    = Ok ("a.example", "exception", None) ∧
  fst (ping_from_node (fun _ => Exited 0 "rtt") "rise"
         default_template "/root" string Some 10 5
         "a.example" "1.1.1.1" initial_state)
    = Ok ("a.example", "exception", None).
Proof. repeat split; vm_compute; reflexivity. Qed.

(** ** [filter_api_nodes] *)

Lemma node_dict_lookup (hostname asn city countrycode continent company : pyval) :
  let node := node_dict hostname asn city countrycode continent company in
  node !! "hostname" = Some hostname ∧ node !! "asn" = Some asn ∧
  node !! "city" = Some city ∧ node !! "countrycode" = Some countrycode ∧
  node !! "continent" = Some continent ∧ node !! "company" = Some company.
Proof. repeat split; reflexivity. Qed.

Section CatalogFacts.
Variable coco : string → string → string.
Variable participants : gmap Z pyval.

Lemma filter_api_nodes_from_ok (raw_nodes filtered out : list dict) :
  filter_api_nodes_from coco raw_nodes participants filtered = Ok out →
  ∃ new, out = (filtered ++ new)%list ∧
         Forall2 (normalized coco participants) (filter both_alive raw_nodes) new.
Proof.
  revert filtered. induction raw_nodes as [|n rest IH]; intros filtered H.
  - injection H as <-. exists []. by rewrite app_nil_r.
  - cbn [filter_api_nodes_from] in H. unfold getitem in H.
    destruct (n !! "alive_ipv4") as [a4|] eqn:H4; [|discriminate].
    cbn [rbind] in H.
    destruct (truthy a4) eqn:Ht4.
    2:{ cbn [rbind negb] in H. rewrite filter_cons_False; [by apply IH|].
        unfold both_alive. cbn [dict_get]. rewrite H4. simpl.
        intros [? _]. congruence. }
    destruct (n !! "alive_ipv6") as [a6|] eqn:H6; [|discriminate].
    cbn [rbind] in H.
    destruct (truthy a6) eqn:Ht6.
    2:{ cbn [negb] in H. rewrite filter_cons_False; [by apply IH|].
        unfold both_alive. cbn [dict_get]. rewrite H6. simpl.
        intros [_ ?]. congruence. }
    cbn [negb] in H. rewrite filter_cons_True.
    2:{ unfold both_alive. cbn [dict_get]. by rewrite H4, H6. }
    destruct (n !! "countrycode") as [ccv|] eqn:Hcc; [|discriminate].
    cbn [rbind] in H. destruct ccv as [| | |cc]; try discriminate.
    cbn [py_upper rbind] in H.
    destruct (n !! "hostname") as [hostname|] eqn:Hh; [|discriminate].
    cbn [rbind] in H.
    destruct (n !! "asn") as [asn|] eqn:Ha; [|discriminate].
    cbn [rbind] in H.
    destruct (n !! "city") as [city|] eqn:Hc; [|discriminate].
    cbn [rbind] in H.
    destruct (IH _ H) as (new & -> & Hnew).
    eexists (_ :: new). split; [by rewrite <- (assoc_L (++))|].
    constructor; [|done].
    match goal with |- normalized _ _ _ ?node => set (nd := node) end.
    destruct (node_dict_lookup hostname (PStr (py_str asn)) city (PStr (upper cc))
                (PStr (get_continent coco (upper cc)))
                (participants_get participants
                   (dict_get n (Some "participant")) (PStr "Unknown")))
      as (L1 & L2 & L3 & L4 & L5 & L6).
    fold nd in L1, L2, L3, L4, L5, L6.
    unfold normalized. rewrite L1, L2, L3, L4, L5, L6, Hh, Hc.
    split; [done|]. split; [done|]. split; [by eexists|].
    split; [by eexists|].
    cbn [dict_get]. split; [|split].
    + intros id c Hn Hp. rewrite Hn. simpl. by rewrite Hp.
    + intros id Hn Hp. rewrite Hn. simpl. by rewrite Hp.
    + by intros [-> | ->].
Qed.

Lemma filter_api_nodes_from_total (raw_nodes filtered : list dict) :
  Forall wf_raw raw_nodes →
  ∃ out, filter_api_nodes_from coco raw_nodes participants filtered = Ok out.
Proof.
  intros Hwf. revert filtered.
  induction Hwf as [|n rest Hn _ IH]; intros filtered; [by eexists|].
  destruct Hn as ([a4 H4] & [a6 H6] & [h Hh] & [a Ha] & [c Hc] & [cc Hcc]).
  cbn [filter_api_nodes_from]. unfold getitem.
  rewrite H4, H6, Hcc, Hh, Ha, Hc. cbn [rbind].
  destruct (truthy a4); cbn [rbind negb]; [|apply IH].
  destruct (truthy a6); cbn [rbind negb py_upper]; apply IH.
Qed.

(** C8: the result of [filter_api_nodes] holds, in order, one Node record
    for every raw record whose two liveness flags are true, and none for the
    others; each has the country code upper-cased, the continent derived
    from it by [get_continent] and the company of its participant id, or
    ["Unknown"] when the id is missing or not in the directory.  The call
    returns for raw records that carry the fields of the catalog. *)
Theorem C8_filter_api_nodes (raw_nodes : list dict) :
  (∀ out, filter_api_nodes coco raw_nodes participants = Ok out →
     Forall2 (normalized coco participants) (filter both_alive raw_nodes) out) ∧
  (Forall wf_raw raw_nodes →
   ∃ out, filter_api_nodes coco raw_nodes participants = Ok out).
Proof.
  split.
  - intros out (new & -> & Hnew)%filter_api_nodes_from_ok. done.
  - apply filter_api_nodes_from_total.
Qed.
End CatalogFacts.

Lemma sample_raw_wf hostname : wf_raw (sample_raw hostname).
Proof. repeat split; by eexists. Qed.

Lemma C8_filter_api_nodes_witness :
  Forall wf_raw sample_raw_nodes ∧
  ∃ out,
    filter_api_nodes sample_coco sample_raw_nodes sample_participants = Ok out ∧
    Forall2 (normalized sample_coco sample_participants)
            (filter both_alive sample_raw_nodes) out ∧
    length out = 2%nat.
Proof.
  assert (Hwf : Forall wf_raw sample_raw_nodes).
  { apply Forall_cons; split; [exact (sample_raw_wf "a.example")|].
    apply Forall_cons; split; [repeat split; by eexists|].
    apply Forall_cons; split; [exact (sample_raw_wf "b.example")|].
    apply Forall_nil_2. }
  split; [exact Hwf|].
  destruct (C8_filter_api_nodes sample_coco sample_participants sample_raw_nodes)
    as [Hpartial Htotal].
  destruct (Htotal Hwf) as [out Hout].
  pose proof (Hpartial out Hout) as Hnorm.
  exists out. split; [exact Hout|]. split; [exact Hnorm|].
  apply Forall2_length in Hnorm as <-. reflexivity.
Defined.

(** ** The JSON text of a roster *)

Lemma string_app_assoc (a b c : string) : (a ++ b) ++ c = a ++ (b ++ c).
Proof.
  induction a as [|x a IH]; [done|].
  cbv beta iota fix delta [String.append]. fold String.append. by rewrite IH.
Qed.

Lemma string_app_cons (x : ascii) (a b : string) :
  String x a ++ b = String x (a ++ b).
Proof. reflexivity. Qed.

Lemma string_app_nil_l (a : string) : "" ++ a = a.
Proof. reflexivity. Qed.

Ltac compute_escape :=
  match goal with
  | |- context [escape_char ?c] =>
      let e := eval vm_compute in (escape_char c) in
      change (escape_char c) with e
  end.

Lemma parse_escape_char (c : ascii) (tail r rest : string) :
  parse_string_body tail = Some (r, rest) →
  parse_string_body (escape_char c ++ tail) = Some (String c r, rest).
Proof.
  intros H.
  destruct c as [[] [] [] [] [] [] [] []]; compute_escape;
    cbv beta iota fix delta [String.append]; simpl; rewrite H; reflexivity.
Qed.

Lemma parse_string_body_escape (s rest : string) :
  parse_string_body (escape_chars s ++ String dquote rest) = Some (s, rest).
Proof.
  induction s as [|c s IH].
  - reflexivity.
  - cbn [escape_chars]. rewrite string_app_assoc. by apply parse_escape_char.
Qed.

Lemma parse_string_encode (s rest : string) :
  parse_string (encode_string s ++ rest) = Some (s, rest).
Proof.
  unfold encode_string. rewrite string_app_cons, string_app_assoc.
  rewrite string_app_cons, string_app_nil_l. cbn [parse_string].
  change (Ascii.eqb dquote dquote) with true. cbn iota.
  apply parse_string_body_escape.
Qed.

(** *** Integers *)

Lemma digit_value_of (d : N) :
  (d < 10)%N → digit_value (ascii_of_N (48 + d)) = Some d.
Proof.
  intros Hd.
  assert (d = 0 ∨ d = 1 ∨ d = 2 ∨ d = 3 ∨ d = 4 ∨ d = 5 ∨ d = 6 ∨ d = 7
          ∨ d = 8 ∨ d = 9)%N as Hcases by lia.
  repeat (destruct Hcases as [-> | Hcases]; [reflexivity|]). by subst.
Qed.

Lemma div10_bound (n : N) (fuel : nat) :
  (n < 2 ^ N.of_nat (S fuel))%N → (n / 10 < 2 ^ N.of_nat fuel)%N.
Proof.
  intros Hn. rewrite Nat2N.inj_succ, N.pow_succ_r' in Hn.
  apply N.Div0.div_lt_upper_bound; lia.
Qed.

Lemma read_digits_of (fuel : nat) (n : N) (acc rest : string) :
  (n < 2 ^ N.of_nat fuel)%N →
  read_digits (digits_of fuel n acc ++ rest) 0
  = read_digits (acc ++ rest) n.
Proof.
  revert n acc. induction fuel as [|fuel IH]; intros n acc Hn.
  - simpl in Hn. assert (n = 0%N) as -> by lia. reflexivity.
  - cbn [digits_of].
    pose proof (N.mod_upper_bound n 10 ltac:(lia)) as Hmod.
    pose proof (N.div_mod n 10 ltac:(lia)) as Hdm.
    destruct (n / 10 =? 0)%N eqn:Hz.
    + apply N.eqb_eq in Hz. rewrite string_app_cons. cbn [read_digits].
      rewrite digit_value_of by done. f_equal. lia.
    + rewrite IH by (by apply div10_bound).
      rewrite string_app_cons. cbn [read_digits].
      rewrite digit_value_of by done. f_equal. lia.
Qed.

(** The digits start with a digit, which is zero only for zero itself. *)
Lemma digits_of_head (fuel : nat) (n : N) (acc : string) :
  (n < 2 ^ N.of_nat (S fuel))%N →
  ∃ d t, digits_of (S fuel) n acc = String (ascii_of_N (48 + d)) t ∧
         (d < 10)%N ∧ (n = 0%N → t = acc) ∧ (n ≠ 0%N → d ≠ 0%N).
Proof.
  revert n acc. induction fuel as [|fuel IH]; intros n acc Hn.
  - cbn [digits_of].
    pose proof (N.mod_upper_bound n 10 ltac:(lia)) as Hmod.
    assert (n < 2)%N as Hn2 by (simpl in Hn; lia).
    assert (n / 10 = 0)%N as Hz by (apply N.div_small; lia).
    rewrite Hz. simpl. exists (n mod 10)%N, acc.
    split; [done|]. split; [done|]. split; [done|].
    rewrite N.mod_small by lia. done.
  - cbn [digits_of].
    pose proof (N.mod_upper_bound n 10 ltac:(lia)) as Hmod.
    destruct (n / 10 =? 0)%N eqn:Hz.
    + apply N.eqb_eq in Hz. exists (n mod 10)%N, acc.
      split; [done|]. split; [done|]. split; [done|].
      pose proof (N.div_mod n 10 ltac:(lia)). lia.
    + apply N.eqb_neq in Hz.
      destruct (IH (n / 10)%N (String (ascii_of_N (48 + n mod 10)) acc))
        as (d & t & Hd & Hlt & _ & Hnz); [by apply div10_bound|].
      exists d, t. split; [done|]. split; [done|].
      split; [intros ->; by rewrite N.Div0.div_0_l in Hz | auto].
Qed.

Lemma log2_fuel (n : N) : (n < 2 ^ N.of_nat (S (N.to_nat (N.log2 n))))%N.
Proof.
  rewrite Nat2N.inj_succ, N2Nat.id.
  destruct (N.eq_dec n 0%N) as [->|Hn]; [done|].
  apply N.log2_spec. lia.
Qed.

Lemma read_digits_end (rest : string) (n : N) :
  ends_item "}" rest → read_digits rest n = (n, rest).
Proof. by intros [tl [-> | ->]]. Qed.

Lemma parse_nat_encode (n : N) (rest : string) :
  ends_item "}" rest → parse_nat (N_to_string n ++ rest) = Some (n, rest).
Proof.
  intros Hrest. unfold N_to_string.
  destruct (digits_of_head (N.to_nat (N.log2 n)) n "" (log2_fuel n))
    as (d & t & Hd & Hlt & Hz & Hnz).
  pose proof (read_digits_of (S (N.to_nat (N.log2 n))) n "" rest (log2_fuel n))
    as Hread.
  rewrite string_app_nil_l, (read_digits_end rest n) in Hread by done.
  rewrite Hd in Hread |- *. rewrite string_app_cons in Hread |- *.
  unfold parse_nat. rewrite digit_value_of by done. rewrite Hread.
  destruct Hrest as [tl Hrest].
  assert (Hbad : match rest with
                 | String r _ => Ascii.eqb r "." || Ascii.eqb r "e" || Ascii.eqb r "E"
                 | "" => false
                 end = false) by (destruct Hrest as [-> | ->]; reflexivity).
  rewrite Hbad. cbn [orb].
  destruct (N.eq_dec n 0%N) as [Hn|Hn].
  - rewrite (Hz Hn), string_app_nil_l.
    by destruct Hrest as [-> | ->]; rewrite andb_false_r.
  - apply Hnz, N.eqb_neq in Hn. rewrite Hn. by destruct (t ++ rest).
Qed.

Lemma digit_head_not_special (d : N) (s : string) :
  (d < 10)%N →
  let c := ascii_of_N (48 + d) in
  Ascii.eqb c dquote = false ∧ Ascii.eqb c "-" = false ∧
  String.prefix "null" (String c s) = false ∧
  String.prefix "true" (String c s) = false ∧
  String.prefix "false" (String c s) = false.
Proof.
  intros Hd.
  assert (d = 0 ∨ d = 1 ∨ d = 2 ∨ d = 3 ∨ d = 4 ∨ d = 5 ∨ d = 6 ∨ d = 7
          ∨ d = 8 ∨ d = 9)%N as Hcases by lia.
  repeat (destruct Hcases as [-> | Hcases]; [by repeat split|]).
  subst. by repeat split.
Qed.

Lemma parse_value_encode (v : pyval) (rest : string) :
  ends_item "}" rest → parse_value (encode_value v ++ rest) = Some (v, rest).
Proof.
  intros Hrest. destruct v as [|b|z|s].
  - destruct Hrest as [tl [-> | ->]]; reflexivity.
  - destruct Hrest as [tl [-> | ->]]; destruct b; reflexivity.
  - cbn [encode_value]. unfold Z_to_string. destruct (z <? 0) eqn:Hz.
    + rewrite string_app_cons. set (body := N_to_string (Z.abs_N z) ++ rest).
      unfold parse_value.
      change (Ascii.eqb "-" dquote) with false. cbn iota.
      replace (String.prefix "null" (String "-" body)) with false by reflexivity.
      replace (String.prefix "true" (String "-" body)) with false by reflexivity.
      replace (String.prefix "false" (String "-" body)) with false by reflexivity.
      change (Ascii.eqb "-" "-") with true. cbn iota. subst body.
      rewrite parse_nat_encode by done. do 2 f_equal. f_equal.
      apply Z.ltb_lt in Hz. lia.
    + unfold N_to_string at 1.
      destruct (digits_of_head (N.to_nat (N.log2 (Z.abs_N z))) (Z.abs_N z) ""
                  (log2_fuel _)) as (d & t & Hd & Hlt & _).
      pose proof (parse_nat_encode (Z.abs_N z) rest Hrest) as Hnat.
      unfold N_to_string in Hnat. rewrite Hd in Hnat |- *.
      rewrite string_app_cons in Hnat |- *.
      destruct (digit_head_not_special d (t ++ rest) Hlt)
        as (Hq & Hm & H1 & H2 & H3).
      unfold parse_value. rewrite Hq, H1, H2, H3, Hm, Hnat.
      do 2 f_equal. f_equal. apply Z.ltb_ge in Hz. lia.
  - cbn [encode_value]. unfold encode_string.
    rewrite string_app_cons, string_app_assoc, string_app_cons, string_app_nil_l.
    unfold parse_value. change (Ascii.eqb dquote dquote) with true. cbn iota.
    by rewrite parse_string_body_escape.
Qed.

(** *** Sequences *)

Lemma str_length_app (a b : string) :
  String.length (a ++ b) = (String.length a + String.length b)%nat.
Proof.
  induction a as [|c a IH]; [done|].
  rewrite string_app_cons. simpl. by rewrite IH.
Qed.

Section Items.
Context {A : Type}.
Variable item : string → option (A * string).
Variable enc : A → string.
Variable close : ascii.
Hypothesis close_not_comma : Ascii.eqb "," close = false.
Hypothesis close_not_blank : is_json_ws close = false.
Hypothesis item_enc :
  ∀ x r, ends_item close r → item (enc x ++ r) = Some (x, r).
Hypothesis enc_starts : ∀ x r, starts_item close (enc x ++ r).

Lemma skip_ws_starts (avoid : ascii) (s : string) :
  starts_item avoid s → skip_ws s = s.
Proof. intros (c & t & -> & Hc & _). simpl. by rewrite Hc. Qed.

Lemma join_cons_app (x : A) (xs : list A) (r : string) :
  ∃ r', join ", " (enc <$> (x :: xs)) ++ r = enc x ++ r' ∧
        (xs = [] → r' = r) ∧
        (xs ≠ [] → r' = String "," (String " " (join ", " (enc <$> xs) ++ r))).
Proof.
  destruct xs as [|y ys].
  - exists r. by split.
  - exists (String "," (String " " (join ", " (enc <$> (y :: ys)) ++ r))).
    split; [|split; [done | by intros _]].
    rewrite !fmap_cons. cbn [join].
    by rewrite !string_app_assoc, !string_app_cons, string_app_nil_l.
Qed.

Lemma parse_items_encode (xs : list A) (rest : string) (fuel : nat) :
  xs ≠ [] → (length xs ≤ fuel)%nat →
  parse_items item close fuel (join ", " (enc <$> xs) ++ String close rest)
  = Some (xs, rest).
Proof.
  revert fuel. induction xs as [|x xs IH]; intros fuel Hne Hfuel; [done|].
  destruct fuel as [|fuel]; [simpl in Hfuel; lia|].
  destruct (join_cons_app x xs (String close rest)) as (r' & -> & Hnil & Hcons).
  cbn [parse_items]. destruct xs as [|y ys].
  - rewrite (Hnil eq_refl). rewrite item_enc by (eexists; by right).
    cbn [skip_ws]. rewrite close_not_blank. by rewrite Ascii.eqb_refl.
  - rewrite (Hcons ltac:(done)). rewrite item_enc by (eexists; by left).
    change (skip_ws (String "," ?s)) with (String "," s). cbn iota.
    rewrite close_not_comma. change (Ascii.eqb "," ",") with true. cbn iota.
    change (skip_ws (String " " ?s)) with (skip_ws s).
    destruct (join_cons_app y ys (String close rest)) as (r2 & Hj & _).
    rewrite (skip_ws_starts close) by (rewrite Hj; apply enc_starts).
    rewrite IH; [done | done | simpl in *; lia].
Qed.

Lemma join_length (xs : list A) :
  (∀ x, 1 ≤ String.length (enc x))%nat →
  (length xs ≤ String.length (join ", " (enc <$> xs)))%nat.
Proof.
  intros Henc. induction xs as [|x [|y ys] IH]; [simpl; lia|apply Henc|].
  rewrite !fmap_cons in *. cbn [join] in *.
  rewrite !str_length_app. specialize (Henc x). simpl in *. lia.
Qed.

Lemma parse_seq_encode (open : ascii) (xs : list A) (rest : string) :
  (∀ x, 1 ≤ String.length (enc x))%nat →
  parse_seq item open close
    (String open (join ", " (enc <$> xs) ++ String close rest))
  = Some (xs, rest).
Proof.
  intros Henc. unfold parse_seq. rewrite Ascii.eqb_refl.
  destruct xs as [|x xs].
  - cbn [fmap list_fmap join]. rewrite string_app_nil_l. cbn [skip_ws].
    rewrite close_not_blank. by rewrite Ascii.eqb_refl.
  - destruct (join_cons_app x xs (String close rest)) as (r' & Hj & _).
    pose proof (enc_starts x r') as Hstart. rewrite <- Hj in Hstart.
    rewrite (skip_ws_starts close) by done.
    destruct Hstart as (c & t & Hs & _ & Hc). rewrite Hs, Hc. rewrite <- Hs.
    apply parse_items_encode; [done|].
    cbn [String.length]. rewrite str_length_app.
    pose proof (join_length (x :: xs) Henc). lia.
Qed.
End Items.

(** *** Dicts and rosters *)

Lemma encode_value_starts (v : pyval) (r : string) :
  ∃ c t, encode_value v ++ r = String c t ∧ is_json_ws c = false.
Proof.
  destruct v as [|b|z|s].
  - by eexists _, _.
  - destruct b; by eexists _, _.
  - cbn [encode_value]. unfold Z_to_string.
    destruct (z <? 0); [by eexists _, _|].
    unfold N_to_string.
    destruct (digits_of_head (N.to_nat (N.log2 (Z.abs_N z))) (Z.abs_N z) ""
                (log2_fuel _)) as (d & t & -> & Hlt & _).
    eexists _, _. split; [reflexivity|].
    assert (d = 0 ∨ d = 1 ∨ d = 2 ∨ d = 3 ∨ d = 4 ∨ d = 5 ∨ d = 6 ∨ d = 7
            ∨ d = 8 ∨ d = 9)%N as Hcases by lia.
    repeat (destruct Hcases as [-> | Hcases]; [reflexivity|]). by subst.
  - by eexists _, _.
Qed.

Lemma parse_member_encode (kv : string * pyval) (r : string) :
  ends_item "}" r → parse_member (encode_member kv ++ r) = Some (kv, r).
Proof.
  intros Hr. destruct kv as [k v]. unfold encode_member, parse_member.
  cbn [fst snd]. rewrite string_app_assoc, parse_string_encode.
  rewrite string_app_assoc, !string_app_cons, string_app_nil_l.
  change (skip_ws (String ":" ?s)) with (String ":" s).
  change (Ascii.eqb ":" ":") with true. cbn iota.
  change (skip_ws (String " " ?s)) with (skip_ws s).
  destruct (encode_value_starts v r) as (c & t & Hs & Hc).
  assert (Hskip : skip_ws (encode_value v ++ r) = encode_value v ++ r).
  { rewrite Hs. simpl. by rewrite Hc. }
  by rewrite Hskip, parse_value_encode.
Qed.

Lemma encode_member_starts (kv : string * pyval) (r : string) :
  starts_item "}" (encode_member kv ++ r).
Proof. by eexists _, _. Qed.

Lemma encode_member_length (kv : string * pyval) :
  (1 ≤ String.length (encode_member kv))%nat.
Proof. unfold encode_member, encode_string. simpl. lia. Qed.

Lemma foldl_insert_rev (l : list (string * pyval)) (m : dict) :
  foldl (fun (d : dict) kv => <[fst kv := snd kv]> d) m l
  = foldr (fun kv (d : dict) => <[fst kv := snd kv]> d) m (rev l).
Proof.
  revert m. induction l as [|kv l IH]; intros m; [done|].
  simpl. by rewrite IH, foldr_app.
Qed.

Lemma foldl_insert_map_to_list (d : dict) :
  foldl (fun (d : dict) kv => <[fst kv := snd kv]> d) ∅ (map_to_list d) = d.
Proof.
  rewrite foldl_insert_rev.
  transitivity (list_to_map (map_to_list d) : dict);
    [|apply list_to_map_to_list].
  symmetry. apply list_to_map_proper; [apply NoDup_fst_map_to_list|].
  apply Permutation_rev.
Qed.

Lemma parse_dict_encode (d : dict) (rest : string) :
  parse_dict (encode_dict d ++ rest) = Some (d, rest).
Proof.
  unfold parse_dict, encode_dict.
  repeat (rewrite string_app_cons || rewrite string_app_nil_l
          || rewrite string_app_assoc).
  rewrite (parse_seq_encode parse_member encode_member "}"); try done.
  - by rewrite foldl_insert_map_to_list.
  - intros x r Hr. by apply parse_member_encode.
  - apply encode_member_starts.
  - apply encode_member_length.
Qed.

Lemma encode_dict_starts (d : dict) (r : string) :
  starts_item "]" (encode_dict d ++ r).
Proof. by eexists _, _. Qed.

Lemma encode_dict_length (d : dict) : (1 ≤ String.length (encode_dict d))%nat.
Proof. unfold encode_dict. simpl. lia. Qed.

(** What [json.dump] writes, [json.load] reads back. *)
Lemma json_loads_dumps (nodes : list dict) :
  json_loads (json_dumps nodes) = Ok nodes.
Proof.
  unfold json_loads, json_dumps.
  repeat (rewrite string_app_cons || rewrite string_app_nil_l
          || rewrite string_app_assoc).
  change (skip_ws (String "[" ?s)) with (String "[" s).
  rewrite (parse_seq_encode parse_dict encode_dict "]"); try done.
  - intros x r _. apply parse_dict_encode.
  - apply encode_dict_starts.
  - apply encode_dict_length.
Qed.

(** ** core/node_cache_store.py *)

(** C7: after [save_node_cache] wrote the roster, [load_node_cache] returns
    a list of records equal, as values, to the saved ones; and a cache file
    that cannot be read or decoded makes [load_node_cache] return [None]. *)
Theorem C7_cache_round_trip (nodes : list node_obj) (st : state) :
  (∃ loaded st',
     load_node_cache (snd (save_node_cache true nodes st))
       = (Ok (Some loaded), st') ∧
     ofields <$> loaded = ofields <$> nodes) ∧
  (∀ st0,
     cache_file st0 = None ∨
     (∃ text e, cache_file st0 = Some text ∧ json_loads text = Raise e) →
     load_node_cache st0 = (Ok None, st0)).
Proof.
  split.
  - unfold save_node_cache, load_node_cache, Mmodify, Mbind, Mget, Mret,
      new_objects. cbn [snd cache_file set_cache_file].
    rewrite json_loads_dumps. eexists _, _. split; [done|].
    rewrite fmap_imap.
    rewrite (imap_ext _ (const id)) by done.
    by rewrite imap_const, list_fmap_id.
  - intros st0 [Hnone | (text & e & Hsome & Herr)];
      unfold load_node_cache, Mbind, Mget, Mret.
    + by rewrite Hnone.
    + by rewrite Hsome, Herr.
Qed.

(** ** Instances of the claims on the session manager and the cache *)

Lemma C4_start_session_idempotent_atomic_witness :
  ("a.example" ∉ active_sessions initial_state) ∧
  ∃ st',
    start_session all_up "rise" default_template "/root" "a.example"
                  initial_state = (Ok true, st') ∧
    active_sessions st' = active_sessions initial_state ∪ {["a.example"]} ∧
    start_session all_up "rise" default_template "/root" "a.example" st'
      = (Ok true, st').
Proof.
  assert (Hout : "a.example" ∉ active_sessions initial_state)
    by (simpl; apply not_elem_of_empty).
  split; [exact Hout|].
  destruct (C4_start_session_idempotent_atomic all_up "rise" default_template
              "/root" "a.example" initial_state) as [_ Habsent].
  destruct (Habsent Hout) as (r & st' & Hrun & _ & Hiff & Hadd & _).
  assert (Hr : r = Ok true) by (apply Hiff; by exists "").
  subst r. exists st'. split; [exact Hrun|]. split; [by apply Hadd|].
  destruct (C4_start_session_idempotent_atomic all_up "rise" default_template
              "/root" "a.example" st') as [Hpresent _].
  apply Hpresent. rewrite (Hadd eq_refl).
  apply elem_of_union_r, elem_of_singleton. reflexivity.
Defined.

Lemma C7_cache_round_trip_witness :
  ∃ loaded st',
    load_node_cache (snd (save_node_cache true sample_roster initial_state))
      = (Ok (Some loaded), st') ∧
    ofields <$> loaded = ofields <$> sample_roster.
Proof.
  exact (proj1 (C7_cache_round_trip sample_roster initial_state)).
Defined.

(** ** Worked examples *)

(** The socket of a previous run names its host. *)
Example parse_socket_hostname_example :
  parse_socket_hostname "nlnog-" "nlnog-rise@a.example:22" = Ok "a.example".
Proof. reflexivity. Qed.

Example ssh_control_path_example :
  ssh_control_path "rise" default_template "/root" "a.example"
  = "/tmp/ssh-control/nlnog-rise@a.example:22".
Proof. reflexivity. Qed.

(** Two of three healthy nodes, one per continent of the filter. *)
Example balanced_sample_example :
  (fun r => match r with
            | Ok (nodes, _) => Ok (oid <$> nodes)
            | Raise e => Raise e
            end)
    (fetch_healthy_nodes sample_roster sample_health (Some 2) sample_filters
                         [0; 1; 0]%nat)
  = Ok [0; 2]%nat.
Proof. vm_compute. reflexivity. Qed.

Example py_int_examples :
  py_int " 12 " = Some 12 ∧ py_int "-1" = Some (-1) ∧ py_int "1_000" = Some 1000
  ∧ py_int "1.5" = None ∧ py_int "" = None ∧ py_int "ten" = None.
Proof. repeat split; reflexivity. Qed.

Example json_dumps_example :
  json_dumps [<["hostname" := PStr "a.example"]> (<["city" := PNone]> ∅)]
  = String "[" (String "{" (String dquote ("city" ++
      String dquote (": null, " ++ String dquote ("hostname" ++
      String dquote (": " ++ String dquote ("a.example" ++
      String dquote "}]"))))))).
Proof. vm_compute. reflexivity. Qed.

(** ** The session manager beyond [start_session] *)

Lemma Mfor_ok {A} (l : list A) (body : A → M unit) :
  (∀ x s, x ∈ l → fst (body x s) = Ok tt) →
  ∀ s, fst (Mfor l body s) = Ok tt.
Proof.
  induction l as [|x l IH]; intros Hb s; [done|].
  simpl. unfold Mbind. pose proof (Hb x s ltac:(by left)) as H1.
  destruct (body x s) as [[[]|e] s']; [|done].
  apply IH. intros y s0 Hy. apply Hb. by right.
Qed.

Section SessionManagerFacts.
Variable env : nat → proc_result.
Variables user template home : string.

Local Abbreviation start := (start_session env user template home).
Local Abbreviation stop := (stop_session env user template home).

(** X1: [stop_session] never raises and leaves the hostname absent,
    whatever the exit command does; for an absent hostname it changes
    nothing and runs no command, for a present one it runs exactly the
    exit command, at a moment where the hostname is already removed;
    labels and roster are not touched. *)
Theorem X1_stop_session_forgets (h : string) (st : state) :
  ∃ st',
    stop_session env user template home h st = (Ok tt, st') ∧
    active_sessions st' = active_sessions st ∖ {[h]} ∧
    (h ∉ active_sessions st → st' = st) ∧
    (h ∈ active_sessions st →
     calls st' = (exit_command user template home h, active_sessions st ∖ {[h]})
                   :: calls st) ∧
    session_health st' = session_health st ∧
    node_cache st' = node_cache st.
Proof.
  destruct (stop_session_cases env user template home h st)
    as [[Hout ->]|[Hin ->]]; eexists; (split; [done|]); simpl.
  - split; [set_solver|]. by repeat split.
  - by repeat split.
Qed.

(** Stopping the sessions of a list of distinct active hostnames. *)
Lemma Mfor_stop (l : list string) (s : state) :
  NoDup l → (∀ h, h ∈ l → h ∈ active_sessions s) →
  ∃ s', Mfor l stop s = (Ok tt, s') ∧
    active_sessions s' = active_sessions s ∖ list_to_set l ∧
    (calls s').*1 = (rev (exit_command user template home <$> l) ++ (calls s).*1)%list ∧
    session_health s' = session_health s ∧
    node_cache s' = node_cache s.
Proof.
  revert s. induction l as [|x l IH]; intros s Hnd Hin.
  - exists s. simpl. split; [done|]. split; [set_solver|]. by repeat split.
  - apply NoDup_cons in Hnd as [Hx Hnd]. simpl. unfold Mbind.
    destruct (stop_session_cases env user template home x s)
      as [[Hout _]|[_ ->]]; [destruct Hout; apply Hin; by left|].
    set (s1 := log_call _ _).
    destruct (IH s1 Hnd) as (s' & -> & Ha & Hc & Hh & Hn).
    { intros h Hh. subst s1. simpl. apply elem_of_difference. split.
      - apply Hin. by right.
      - intros ->%elem_of_singleton. done. }
    exists s'. split; [done|]. subst s1. simpl in *.
    split; [rewrite Ha; set_solver|]. split; [|done].
    rewrite Hc. unfold exit_command. by rewrite <- app_assoc.
Qed.

(** X2: [cleanup] never raises and leaves no active session, whatever the
    exit commands do; it runs one exit command for each session that was
    active, and nothing else; labels and roster are not touched. *)
Theorem X2_cleanup_stops_all (st : state) :
  ∃ st',
    cleanup env user template home st = (Ok tt, st') ∧
    active_sessions st' = ∅ ∧
    (calls st').*1
      = (rev (exit_command user template home <$> elements (active_sessions st))
           ++ (calls st).*1)%list ∧
    session_health st' = session_health st ∧
    node_cache st' = node_cache st.
Proof.
  unfold cleanup, Mbind, Mget, Mmodify.
  destruct (Mfor_stop (elements (active_sessions st)) st)
    as (s' & -> & Ha & Hc & Hh & Hn).
  { apply NoDup_elements. }
  { intros h. by rewrite elem_of_elements. }
  eexists. split; [done|]. by repeat split.
Qed.

(** Starting the sessions of a list of hostnames. *)
Lemma Mfor_start (l : list string) (s : state) :
  ∃ s', Mfor l (fun host => let! _ := start host in Mret tt) s = (Ok tt, s') ∧
    active_sessions s ⊆ active_sessions s' ∧
    active_sessions s' ⊆ active_sessions s ∪ list_to_set l ∧
    (always_succeeds env → active_sessions s' = active_sessions s ∪ list_to_set l) ∧
    session_health s' = session_health s ∧
    node_cache s' = node_cache s.
Proof.
  revert s. induction l as [|x l IH]; intros s.
  - exists s. simpl. split; [done|]. split; [done|]. split; [set_solver|].
    split; [set_solver|]. done.
  - simpl. unfold Mbind at 1. unfold Mbind at 1.
    destruct (start_session_cases env user template home x s)
      as [[Hin ->]|[(Hout & _ & ->)|(Hout & Hfail & ->)]]; unfold Mret at 1.
    + destruct (IH s) as (s' & -> & H1 & H2 & H3 & H4 & H5).
      exists s'. split; [done|]. split; [done|]. split; [set_solver|].
      split; [|done]. intros Hup. rewrite (H3 Hup). set_solver.
    + set (s1 := log_call _ _).
      destruct (IH s1) as (s' & -> & H1 & H2 & H3 & H4 & H5).
      exists s'. subst s1. simpl in *. split; [done|]. split; [set_solver|].
      split; [set_solver|]. split; [|done]. intros Hup. rewrite (H3 Hup).
      set_solver.
    + set (s1 := set_active _ _).
      destruct (IH s1) as (s' & -> & H1 & H2 & H3 & H4 & H5).
      exists s'. subst s1. simpl in *. split; [done|]. split; [set_solver|].
      split; [set_solver|]. split; [|done]. intros Hup.
      destruct (Hup (length (calls s))) as [out Hout']. by destruct (Hfail out).
Qed.

(** X3: [sync_sessions] never raises; afterwards every active session is
    a desired one, and every desired session that was active still is;
    if every subprocess exits with zero the active sessions are exactly
    the desired ones. *)
Theorem X3_sync_sessions_converges (desired : gset string) (st : state) :
  ∃ st',
    sync_sessions env user template home desired st = (Ok tt, st') ∧
    active_sessions st' ⊆ desired ∧
    active_sessions st ∩ desired ⊆ active_sessions st' ∧
    (always_succeeds env → active_sessions st' = desired) ∧
    session_health st' = session_health st ∧
    node_cache st' = node_cache st.
Proof.
  unfold sync_sessions. unfold Mbind at 1. unfold Mget.
  unfold Mbind at 1.
  destruct (Mfor_start (elements (desired ∖ active_sessions st)) st)
    as (s1 & -> & H1 & H2 & H3 & H4 & H5).
  rewrite list_to_set_elements_L in H2, H3.
  destruct (Mfor_stop (elements (active_sessions st ∖ desired)) s1)
    as (s2 & -> & Ha & _ & Hh & Hn).
  { apply NoDup_elements. }
  { intros h Hh%elem_of_elements. set_solver. }
  rewrite list_to_set_elements_L in Ha.
  exists s2. split; [done|]. rewrite Ha.
  split; [set_solver|]. split; [set_solver|].
  split; [|split; congruence]. intros Hup. rewrite (H3 Hup).
  generalize (active_sessions st). clear. intros a.
  apply set_eq. intros x.
  rewrite elem_of_difference, elem_of_union, !elem_of_difference.
  destruct (decide (x ∈ a)), (decide (x ∈ desired)); tauto.
Qed.
End SessionManagerFacts.

Lemma X3_sync_sessions_converges_witness :
  always_succeeds all_up ∧
  ∃ st',
    sync_sessions all_up "rise" default_template "/root" {["a.example"]}
      (set_active (fun _ => {["b.example"]}) initial_state) = (Ok tt, st') ∧
    active_sessions st' = {["a.example"]}.
Proof.
  assert (Hup : always_succeeds all_up) by (intros n; by exists "").
  split; [exact Hup|].
  destruct (X3_sync_sessions_converges all_up "rise" default_template "/root"
              {["a.example"]} (set_active (fun _ => {["b.example"]}) initial_state))
    as (st' & Hrun & _ & _ & Heq & _).
  exists st'. split; [exact Hrun|]. exact (Heq Hup).
Defined.

(** ** Parallel start *)

Section ParallelFacts.
Variable env : nat → proc_result.
Variables user template home : string.

Local Abbreviation step :=
  (fun hostname : string =>
     let! success := Mtry (start_session env user template home hostname)
                          (fun _ => Mret false) in
     _progress hostname success).

Lemma Mfor_cons_ok {A} (x : A) (l : list A) (body : A → M unit) (s s1 : state) :
  body x s = (Ok tt, s1) → Mfor (x :: l) body s = Mfor l body s1.
Proof. intros H. simpl. unfold Mbind. by rewrite H. Qed.

(** The step for one hostname that has no session. *)
Lemma parallel_step (x : string) (s : state) :
  x ∉ active_sessions s →
  ∃ s1, step x s = (Ok tt, s1) ∧ node_cache s1 = node_cache s ∧
    ((active_sessions s1 = active_sessions s ∪ {[x]} ∧
      session_health s1 = <[x := "healthy"]> (session_health s)) ∨
     (active_sessions s1 = active_sessions s ∧
      session_health s1 = session_health s ∧
      ∀ out, env (length (calls s)) ≠ Exited 0 out)).
Proof.
  intros Hx. unfold Mbind, Mtry.
  destruct (start_session_cases env user template home x s)
    as [[Hin _]|[(_ & _ & ->)|(_ & Hfail & ->)]]; [done| |].
  - eexists. split; [done|]. split; [done|]. by left.
  - eexists. split; [done|]. split; [done|]. right. simpl.
    split; [by apply add_then_discard|]. done.
Qed.

Lemma Mfor_parallel (l : list string) (s : state) :
  NoDup l → (∀ x, x ∈ l → x ∉ active_sessions s) →
  ∃ s', Mfor l step s = (Ok tt, s') ∧
    active_sessions s ⊆ active_sessions s' ∧
    active_sessions s' ⊆ active_sessions s ∪ list_to_set l ∧
    (∀ h, h ∈ active_sessions s' → h ∉ active_sessions s →
          session_health s' !! h = Some "healthy") ∧
    (∀ h, h ∈ active_sessions s ∨ h ∉ active_sessions s' →
          session_health s' !! h = session_health s !! h) ∧
    (always_succeeds env → active_sessions s' = active_sessions s ∪ list_to_set l) ∧
    node_cache s' = node_cache s.
Proof.
  revert s. induction l as [|x l IH]; intros s Hnd Hout.
  - exists s. simpl. split; [done|]. split; [done|]. split; [set_solver|].
    split; [done|]. split; [done|]. split; [set_solver|]. done.
  - apply NoDup_cons in Hnd as [Hx Hnd].
    assert (Hxs : x ∉ active_sessions s) by (apply Hout; by left).
    destruct (parallel_step x s Hxs) as (s1 & Hstep & Hn1 & Hcase).
    rewrite (Mfor_cons_ok x l step s s1 Hstep).
    destruct Hcase as [[Ha Hh]|(Ha & Hh & Hfail)].
    + destruct (IH s1 Hnd) as (s' & -> & H1 & H2 & H3 & H4 & H5 & H6).
      { intros y Hy. rewrite Ha. apply not_elem_of_union. split.
        - apply Hout. by right.
        - intros ->%elem_of_singleton. done. }
      rewrite Ha in *. rewrite Hh in *.
      exists s'. split; [done|].
      split; [set_solver|]. split; [set_solver|]. split; [|split; [|split]].
      * intros h Hh' Hhs. destruct (decide (h = x)) as [->|Hne].
        -- rewrite H4 by (left; set_solver). by rewrite lookup_insert_eq.
        -- apply H3; [done|]. set_solver.
      * intros h Hh'. rewrite H4 by set_solver.
        apply lookup_insert_ne. intros ->. destruct Hh' as [?|Hh']; [done|].
        apply Hh', H1. set_solver.
      * intros Hup. rewrite (H5 Hup). set_solver.
      * congruence.
    + destruct (IH s1 Hnd) as (s' & -> & H1 & H2 & H3 & H4 & H5 & H6).
      { intros y Hy. rewrite Ha. apply Hout. by right. }
      rewrite Ha in *. rewrite Hh in *.
      exists s'. split; [done|]. split; [done|]. split; [set_solver|].
      split; [done|]. split; [done|]. split; [|congruence].
      intros Hup. destruct (Hup (length (calls s))) as [out Ho].
      by destruct (Hfail out).
Qed.

Lemma sorted_NoDup (hosts : gset string) : NoDup (sorted hosts).
Proof.
  unfold sorted. rewrite merge_sort_Permutation. apply NoDup_elements.
Qed.

(** X4: [start_sessions_parallel] with the startup callback never raises;
    sessions are only added, and only for the given hostnames; a hostname
    whose session is new is labelled healthy, every other label is as
    before (a failed start writes none); nothing at all happens when every
    hostname is active already; if every subprocess exits with zero all the
    given hostnames are active afterwards. *)
Theorem X4_start_sessions_parallel_labels (hostnames : gset string) (st : state) :
  ∃ st',
    start_sessions_parallel env user template home hostnames (Some _progress) st
      = (Ok tt, st') ∧
    active_sessions st ⊆ active_sessions st' ∧
    active_sessions st' ⊆ active_sessions st ∪ hostnames ∧
    (∀ h, h ∈ active_sessions st' → h ∉ active_sessions st →
          session_health st' !! h = Some "healthy") ∧
    (∀ h, h ∈ active_sessions st ∨ h ∉ active_sessions st' →
          session_health st' !! h = session_health st !! h) ∧
    (hostnames ⊆ active_sessions st → st' = st) ∧
    (always_succeeds env →
     active_sessions st' = active_sessions st ∪ hostnames) ∧
    node_cache st' = node_cache st.
Proof.
  unfold start_sessions_parallel, Mbind, Mget.
  destruct (bool_decide (hostnames ∖ active_sessions st = ∅)) eqn:He.
  - apply bool_decide_eq_true in He. exists st. split; [done|].
    split; [done|]. split; [set_solver|]. split; [done|]. split; [done|].
    split; [done|]. split; [|done]. intros _. apply set_eq. intros x.
    rewrite elem_of_union. split; [by left|]. intros [?|Hx]; [done|].
    destruct (decide (x ∈ active_sessions st)); [done|]. set_solver.
  - apply bool_decide_eq_false in He.
    destruct (Mfor_parallel (sorted (hostnames ∖ active_sessions st)) st)
      as (s' & Hrun & H1 & H2 & H3 & H4 & H5 & H6).
    { apply sorted_NoDup. }
    { intros x Hx%elem_of_sorted. set_solver. }
    assert (Hset : (list_to_set (sorted (hostnames ∖ active_sessions st)) : gset string)
                   = hostnames ∖ active_sessions st).
    { apply set_eq. intros x. by rewrite elem_of_list_to_set, elem_of_sorted. }
    rewrite Hset in H2, H5.
    exists s'. split; [exact Hrun|]. split; [done|]. split; [set_solver|].
    split; [done|]. split; [done|]. split; [|split; [|done]].
    + intros Hsub. destruct He. set_solver.
    + intros Hup. rewrite (H5 Hup). apply set_eq. intros x.
      rewrite !elem_of_union, elem_of_difference.
      destruct (decide (x ∈ active_sessions st)); tauto.
Qed.
End ParallelFacts.

Lemma X4_start_sessions_parallel_labels_witness :
  ({["a.example"]} ⊆ active_sessions
                       (set_active (fun _ => {["a.example"]}) initial_state)) ∧
  start_sessions_parallel unreachable "rise" default_template "/root"
    {["a.example"]} (Some _progress)
    (set_active (fun _ => {["a.example"]}) initial_state)
  = (Ok tt, set_active (fun _ => {["a.example"]}) initial_state).
Proof.
  assert (Hsub : ({["a.example"]} : gset string)
                 ⊆ active_sessions
                     (set_active (fun _ => {["a.example"]}) initial_state))
    by (simpl; set_solver).
  split; [exact Hsub|].
  destruct (X4_start_sessions_parallel_labels unreachable "rise" default_template
              "/root" {["a.example"]}
              (set_active (fun _ => {["a.example"]}) initial_state))
    as (st' & Hrun & _ & _ & _ & _ & Hsame & _).
  rewrite Hrun. f_equal. exact (Hsame Hsub).
Defined.

(** ** The scan of the control directory *)

Lemma list_filter_sublist {A} (f : A → bool) (l : list A) :
  List.filter f l `sublist_of` l.
Proof.
  induction l as [|x l IH]; simpl; [constructor|].
  destruct (f x); by constructor.
Qed.

Lemma elem_of_list_filter {A} (f : A → bool) (l : list A) (x : A) :
  x ∈ List.filter f l ↔ x ∈ l ∧ f x = true.
Proof. rewrite !list_elem_of_In. apply filter_In. Qed.

Section ScanFacts.
Variable env : nat → proc_result.
Variables user template : string.

(** The body of the loop over the directory entries. *)
Local Abbreviation scan :=
  (fun entry : string =>
     if negb (String.prefix (socket_prefix template) entry) then Mret tt
     else
       match parse_socket_hostname (socket_prefix template) entry with
       | Raise _ => Mret tt
       | Ok hostname =>
           Mtry
             (let! rc := subprocess_run env
                           (SshCheck (path_join (control_directory user template) entry)
                                     (user ++ "@" ++ hostname)) in
              if rc =? 0 then
                Mmodify (set_active (fun a => a ∪ {[hostname]}))
              else os_remove entry)
             (fun e =>
                match e with
                | TimeoutExpired => os_remove entry
                | OSError => Mret tt
                | _ => Mraise e
                end)
       end).

Lemma cleanup_stale_sockets_unfold (s : state) :
  cleanup_stale_sockets env user template s
  = match control_dir s with
    | None => (Ok tt, s)
    | Some entries => Mfor entries scan s
    end.
Proof.
  unfold cleanup_stale_sockets, Mbind at 1, Mget.
  by destruct (control_dir s).
Qed.

(** What the scan does with one entry. *)
Lemma scan_cases (e : string) (s : state) :
  ((∀ h, ¬ socket_of template e h) ∧ scan e s = (Ok tt, s)) ∨
  (∃ h, socket_of template e h ∧
     (((∃ out, env (length (calls s)) = Exited 0 out) ∧
       scan e s = (Ok tt, set_active (fun a => a ∪ {[h]})
                            (log_call (check_command user template e h) s)))
      ∨ ((∀ out, env (length (calls s)) ≠ Exited 0 out) ∧
         env (length (calls s)) ≠ ProcOSError ∧
         scan e s = (Ok tt,
                     set_control_dir
                       (List.filter (fun x => negb (String.eqb x e)) <$> control_dir s)
                       (log_call (check_command user template e h) s)))
      ∨ (env (length (calls s)) = ProcOSError ∧
         scan e s = (Ok tt, log_call (check_command user template e h) s)))).
Proof.
  unfold socket_of.
  destruct (String.prefix (socket_prefix template) e) eqn:Hp; simpl;
    [|left; split; [by intros h [? _]|done]].
  destruct (parse_socket_hostname (socket_prefix template) e) as [h|err] eqn:Hh;
    [|left; split; [by intros h [_ ?]|done]].
  right. exists h. split; [done|].
  unfold Mtry, Mbind, subprocess_run, os_remove, Mmodify, Mret, Mraise,
    check_command.
  destruct (env (length (calls s))) as [rc out| |] eqn:He; simpl.
  - destruct (rc =? 0) eqn:Hrc.
    + apply Z.eqb_eq in Hrc as ->. left. split; [by eexists|done].
    + apply Z.eqb_neq in Hrc. right. left.
      split; [by intros out' [= -> _]|]. by split.
  - right. left. split; [by intros out'|]. by split.
  - right. right. by split.
Qed.

Lemma Mfor_scan (l : list string) (s : state) :
  ∃ s', Mfor l scan s = (Ok tt, s') ∧
    active_sessions s ⊆ active_sessions s' ∧
    (∀ d, control_dir s = Some d →
       ∃ d', control_dir s' = Some d' ∧ d' `sublist_of` d ∧
             ∀ e, e ∈ d → (∀ h, ¬ socket_of template e h) → e ∈ d') ∧
    (∀ c snap, (c, snap) ∈ calls s' →
       (c, snap) ∈ calls s ∨ ∃ p d, c = SshCheck p d) ∧
    session_health s' = session_health s ∧
    node_cache s' = node_cache s ∧
    cache_file s' = cache_file s.
Proof.
  revert s. induction l as [|x l IH]; intros s.
  - exists s. simpl. split; [done|]. split; [done|].
    split; [intros d Hd; exists d; by split|]. split; [by left|]. done.
  - destruct (scan_cases x s)
      as [[Hno Hstep]|(h & Hsock & [[_ Hstep]|[(_ & _ & Hstep)|[_ Hstep]]])];
      rewrite (Mfor_cons_ok x l scan s _ Hstep);
      match goal with |- context [Mfor l _ ?s1] =>
        destruct (IH s1) as (s' & -> & H1 & H2 & H3 & H4 & H5 & H6)
      end; exists s'; (split; [done|]); simpl in *.
    + done.
    + split; [set_solver|]. split; [done|]. split; [|done].
      intros c snap Hc. destruct (H3 c snap Hc) as [[Heq|?]%elem_of_cons|?];
        [right|by left|by right]. injection Heq as -> _. by eexists _, _.
    + split; [done|]. split; [|split; [|done]].
      * intros d Hd. rewrite Hd in H2. simpl in H2.
        destruct (H2 _ eq_refl) as (d' & Hd' & Hsub & Hkeep).
        exists d'. split; [done|].
        split; [etrans; [exact Hsub|apply list_filter_sublist]|].
        intros e He Hne. apply Hkeep; [|done]. apply elem_of_list_filter.
        split; [done|]. apply negb_true_iff, String.eqb_neq. intros ->.
        by apply (Hne h).
      * intros c snap Hc. destruct (H3 c snap Hc) as [[Heq|?]%elem_of_cons|?];
          [right|by left|by right]. injection Heq as -> _. by eexists _, _.
    + split; [done|]. split; [done|]. split; [|done].
      intros c snap Hc. destruct (H3 c snap Hc) as [[Heq|?]%elem_of_cons|?];
        [right|by left|by right]. injection Heq as -> _. by eexists _, _.
Qed.

(** X5: the scan of the control directory never raises; it only adds
    sessions and only removes directory entries; an entry that is not the
    socket of some host is kept; the only commands it runs are liveness
    checks; without a control directory it does nothing; labels, roster and
    cache file are not touched. *)
Theorem X5_cleanup_stale_sockets_frame (st : state) :
  ∃ st',
    cleanup_stale_sockets env user template st = (Ok tt, st') ∧
    active_sessions st ⊆ active_sessions st' ∧
    (control_dir st = None → st' = st) ∧
    (∀ entries, control_dir st = Some entries →
       ∃ entries', control_dir st' = Some entries' ∧
         entries' `sublist_of` entries ∧
         ∀ e, e ∈ entries → (∀ h, ¬ socket_of template e h) → e ∈ entries') ∧
    (∀ c snap, (c, snap) ∈ calls st' →
       (c, snap) ∈ calls st ∨ ∃ p d, c = SshCheck p d) ∧
    session_health st' = session_health st ∧
    node_cache st' = node_cache st ∧
    cache_file st' = cache_file st.
Proof.
  rewrite cleanup_stale_sockets_unfold.
  destruct (control_dir st) as [entries|] eqn:Hd.
  - destruct (Mfor_scan entries st) as (s' & -> & H1 & H2 & H3 & H4 & H5 & H6).
    exists s'. split; [done|]. split; [done|]. split; [done|].
    split; [|done]. intros ? [= <-]. by apply H2.
  - exists st. split; [done|]. split; [done|]. split; [done|].
    split; [done|]. split; [by left|]. done.
Qed.

Lemma Mfor_scan_live (l : list string) (s : state) :
  always_succeeds env →
  ∃ s', Mfor l scan s = (Ok tt, s') ∧
    control_dir s' = control_dir s ∧
    ∀ h, h ∈ active_sessions s' ↔
         h ∈ active_sessions s ∨ ∃ e, e ∈ l ∧ socket_of template e h.
Proof.
  intros Hup. revert s. induction l as [|x l IH]; intros s.
  - exists s. simpl. split; [done|]. split; [done|]. intros h.
    split; [by left|]. intros [?|(e & He & _)]; [done|]. by apply elem_of_nil in He.
  - destruct (Hup (length (calls s))) as [out Hout].
    destruct (scan_cases x s)
      as [[Hno Hstep]|(h0 & Hsock & [[_ Hstep]|[(Hf & _)|[Hf _]]])];
      [| |by destruct (Hf out)|by rewrite Hout in Hf];
      rewrite (Mfor_cons_ok x l scan s _ Hstep);
      match goal with |- context [Mfor l _ ?s1] =>
        destruct (IH s1) as (s' & -> & Hd & Ha)
      end; exists s'; (split; [done|]); (split; [done|]); intros h;
      rewrite Ha; simpl.
    + split.
      * intros [?|(e & He & Hs)]; [by left|]. right. exists e. split; [by right|done].
      * intros [?|(e & [->|He]%elem_of_cons & Hs)]; [by left| |].
        -- by destruct (Hno h).
        -- right. by exists e.
    + rewrite elem_of_union, elem_of_singleton. split.
      * intros [[?| ->]|(e & He & Hs)]; [by left| |].
        -- right. exists x. split; [by left|done].
        -- right. exists e. split; [by right|done].
      * intros [?|(e & [->|He]%elem_of_cons & Hs)]; [by left; left| |].
        -- left. right. destruct Hsock as [_ H1], Hs as [_ H2]. congruence.
        -- right. by exists e.
Qed.

(** X6: when every liveness check succeeds, the scan keeps the control
    directory as it is, and afterwards the active sessions are the ones
    that were active together with the host of every socket found. *)
Theorem X6_live_sockets_recovered (st : state) (entries : list string) :
  always_succeeds env →
  control_dir st = Some entries →
  ∃ st',
    cleanup_stale_sockets env user template st = (Ok tt, st') ∧
    control_dir st' = Some entries ∧
    ∀ h, h ∈ active_sessions st' ↔
         h ∈ active_sessions st ∨ ∃ e, e ∈ entries ∧ socket_of template e h.
Proof.
  intros Hup Hd. rewrite cleanup_stale_sockets_unfold, Hd.
  destruct (Mfor_scan_live entries st Hup) as (s' & -> & Hd' & Ha).
  exists s'. split; [done|]. split; [congruence|done].
Qed.

Lemma Mfor_scan_dead (l d : list string) (s : state) :
  (∀ n out, env n ≠ Exited 0 out) → (∀ n, env n ≠ ProcOSError) →
  control_dir s = Some d →
  ∃ s' d', Mfor l scan s = (Ok tt, s') ∧
    active_sessions s' = active_sessions s ∧
    control_dir s' = Some d' ∧
    ∀ e, e ∈ d' ↔ e ∈ d ∧ (e ∉ l ∨ ∀ h, ¬ socket_of template e h).
Proof.
  intros Hdead Hrun. revert s d. induction l as [|x l IH]; intros s d Hd.
  - exists s, d. simpl. split; [done|]. split; [done|]. split; [done|].
    intros e. split; [|by intros [? _]]. intros He. split; [done|]. left.
    apply not_elem_of_nil.
  - destruct (scan_cases x s)
      as [[Hno Hstep]|(h0 & Hsock & [[[out Ho] _]|[(_ & _ & Hstep)|[Hf _]]])];
      [|by destruct (Hdead (length (calls s)) out)| |by destruct (Hrun (length (calls s)))];
      rewrite (Mfor_cons_ok x l scan s _ Hstep).
    + destruct (IH s d Hd) as (s' & d' & -> & Ha & Hd' & Hmem).
      exists s', d'. split; [done|]. split; [done|]. split; [done|].
      intros e. rewrite Hmem, not_elem_of_cons.
      split; intros [He Hc]; (split; [done|]).
      * destruct Hc as [Hc|Hc]; [|by right].
        destruct (decide (e = x)) as [->|Hne]; [by right|by left].
      * destruct Hc as [[_ Hc]|Hc]; [by left|by right].
    + match goal with |- context [Mfor l _ ?s1] =>
        destruct (IH s1 (List.filter (fun y => negb (String.eqb y x)) d))
          as (s' & d' & -> & Ha & Hd' & Hmem)
      end.
      { simpl. by rewrite Hd. }
      exists s', d'. split; [done|]. split; [done|]. split; [done|].
      intros e. rewrite Hmem, elem_of_list_filter, not_elem_of_cons,
        negb_true_iff, String.eqb_neq.
      split.
      * intros [[He Hne] Hc]. split; [done|]. destruct Hc as [Hc|Hc]; [by left|by right].
      * intros [He Hc]. destruct (decide (e = x)) as [->|Hne].
        -- destruct Hc as [[Hc _]|Hc]; [done|]. by destruct (Hc h0).
        -- split; [done|]. destruct Hc as [[_ Hc]|Hc]; [by left|by right].
Qed.

(** X7: when no liveness check succeeds (each exits with a non-zero code
    or times out), the scan adopts no session and removes from the control
    directory exactly the entries that are the socket of some host. *)
Theorem X7_dead_sockets_removed (st : state) (entries : list string) :
  (∀ n out, env n ≠ Exited 0 out) →
  (∀ n, env n ≠ ProcOSError) →
  control_dir st = Some entries →
  ∃ st' entries',
    cleanup_stale_sockets env user template st = (Ok tt, st') ∧
    active_sessions st' = active_sessions st ∧
    control_dir st' = Some entries' ∧
    ∀ e, e ∈ entries' ↔ e ∈ entries ∧ ∀ h, ¬ socket_of template e h.
Proof.
  intros Hdead Hrun Hd. rewrite cleanup_stale_sockets_unfold, Hd.
  destruct (Mfor_scan_dead entries entries st Hdead Hrun Hd)
    as (s' & d' & -> & Ha & Hd' & Hmem).
  exists s', d'. split; [done|]. split; [done|]. split; [done|].
  intros e. rewrite Hmem. split; intros [He Hc]; (split; [done|]).
  - by destruct Hc.
  - by right.
Qed.
End ScanFacts.

Lemma X6_live_sockets_recovered_witness :
  always_succeeds all_up ∧
  control_dir restarted_state = Some ["nlnog-rise@a.example:22"] ∧
  ∃ st',
    cleanup_stale_sockets all_up "rise" default_template restarted_state
      = (Ok tt, st') ∧
    "a.example" ∈ active_sessions st'.
Proof.
  assert (Hup : always_succeeds all_up) by (intros n; by exists "").
  split; [exact Hup|]. split; [reflexivity|].
  destruct (X6_live_sockets_recovered all_up "rise" default_template
              restarted_state _ Hup eq_refl) as (st' & Hrun & _ & Ha).
  exists st'. split; [exact Hrun|]. apply Ha. right.
  exists "nlnog-rise@a.example:22". split; [by left|]. by split.
Defined.

Lemma X7_dead_sockets_removed_witness :
  (∀ n out, unreachable n ≠ Exited 0 out) ∧
  (∀ n, unreachable n ≠ ProcOSError) ∧
  control_dir restarted_state = Some ["nlnog-rise@a.example:22"] ∧
  ∃ st' entries',
    cleanup_stale_sockets unreachable "rise" default_template restarted_state
      = (Ok tt, st') ∧
    control_dir st' = Some entries' ∧
    "nlnog-rise@a.example:22" ∉ entries'.
Proof.
  assert (H1 : ∀ n out, unreachable n ≠ Exited 0 out) by (intros n out; discriminate).
  assert (H2 : ∀ n, unreachable n ≠ ProcOSError) by (intros n; discriminate).
  split; [exact H1|]. split; [exact H2|]. split; [reflexivity|].
  destruct (X7_dead_sockets_removed unreachable "rise" default_template
              restarted_state _ H1 H2 eq_refl) as (st' & d' & Hrun & _ & Hd & Hmem).
  exists st', d'. split; [exact Hrun|]. split; [exact Hd|].
  intros [_ Hno]%Hmem. apply (Hno "a.example"). by split.
Defined.

(** ** Names of control sockets *)

Lemma lacks_cons (c a : ascii) (s : string) :
  lacks c (String a s) ↔ a ≠ c ∧ lacks c s.
Proof.
  unfold lacks. simpl. destruct (Ascii.eqb_spec a c) as [->|Hne].
  - split; [discriminate|]. by intros [? _].
  - destruct (find_char c s); simpl; split; try done; by intros [_ ?].
Qed.

Lemma lacks_app (c : ascii) (a b : string) :
  lacks c (a ++ b) ↔ lacks c a ∧ lacks c b.
Proof.
  induction a as [|x a IH].
  - rewrite string_app_nil_l. split; [by split|by intros [_ ?]].
  - rewrite string_app_cons, !lacks_cons, IH. tauto.
Qed.

Lemma rfind_char_lacks (c : ascii) (s : string) :
  lacks c s → rfind_char c s = None.
Proof.
  induction s as [|a s IH]; [done|].
  intros [Hne Hs]%lacks_cons. simpl. rewrite (IH Hs).
  by destruct (Ascii.eqb_spec a c).
Qed.

Lemma find_char_app (c : ascii) (a b : string) :
  lacks c a → find_char c (a ++ String c b) = Some (String.length a).
Proof.
  induction a as [|x a IH].
  - intros _. rewrite string_app_nil_l. simpl. by rewrite Ascii.eqb_refl.
  - intros [Hne Ha]%lacks_cons. rewrite string_app_cons. simpl.
    destruct (Ascii.eqb_spec x c); [done|]. by rewrite (IH Ha).
Qed.

Lemma rfind_char_app (c : ascii) (a b : string) :
  lacks c b → rfind_char c (a ++ String c b) = Some (String.length a).
Proof.
  intros Hb. induction a as [|x a IH].
  - rewrite string_app_nil_l. simpl. rewrite (rfind_char_lacks _ _ Hb).
    by rewrite Ascii.eqb_refl.
  - rewrite string_app_cons. simpl. by rewrite IH.
Qed.

Lemma str_drop_app (a b : string) : str_drop (String.length a) (a ++ b) = b.
Proof. induction a as [|x a IH]; [by destruct b|]. by rewrite string_app_cons. Qed.

Lemma str_take_app (a b : string) : str_take (String.length a) (a ++ b) = a.
Proof.
  induction a as [|x a IH]; [by destruct b|].
  rewrite string_app_cons. simpl. by rewrite IH.
Qed.

Lemma basename_app (dir tail : string) :
  lacks "/" tail → basename (dir ++ String "/" tail) = tail.
Proof.
  intros Ht. unfold basename, split_point. rewrite (rfind_char_app _ _ _ Ht).
  change (String "/" tail) with ("/" ++ tail).
  rewrite <- string_app_assoc.
  replace (S (String.length dir)) with (String.length (dir ++ "/")).
  - apply str_drop_app.
  - rewrite str_length_app. simpl. lia.
Qed.

Lemma split_on_head (c : ascii) (p rest : string) :
  lacks c p → split_on c (p ++ String c rest) !! 0%nat = Some p.
Proof.
  induction p as [|x p IH].
  - intros _. rewrite string_app_nil_l. simpl. by rewrite Ascii.eqb_refl.
  - intros [Hne Hp]%lacks_cons. rewrite string_app_cons. simpl.
    destruct (Ascii.eqb_spec x c); [done|].
    specialize (IH Hp). destruct (split_on c (p ++ String c rest)); [done|].
    simpl in *. by injection IH as ->.
Qed.

(** Replacing a token that starts with [%] passes over text without [%]. *)
Lemma replace_from_lacks (old new a b : string) :
  lacks "%" a →
  replace_from (String "%" old) new 0 (a ++ b)
  = a ++ replace_from (String "%" old) new 0 b.
Proof.
  induction a as [|x a IH]; [done|].
  intros [Hne Ha]%lacks_cons. rewrite !string_app_cons.
  cbn [replace_from]. cbn [String.prefix].
  destruct (ascii_dec "%" x) as [Heq|_]; [by destruct Hne|]. by rewrite (IH Ha).
Qed.

Section SocketNames.
Variables user home : string.
Variables dir stem : string.

(** A template of the usual shape: a directory, a file-name stem, and the
    tokens for user, host and port. *)
Local Abbreviation template := (dir ++ "/" ++ stem ++ "%r@%h:%p").

Hypothesis dir_plain : lacks "%" dir.
Hypothesis stem_plain : lacks "%" stem ∧ lacks "/" stem.
Hypothesis user_plain : lacks "%" user ∧ lacks "/" user ∧ lacks "@" user.

Lemma template_expands (h : string) :
  lacks "%" h →
  str_replace "%p" "22"
    (str_replace "%h" h (str_replace "%r" user template))
  = dir ++ "/" ++ stem ++ user ++ "@" ++ h ++ ":22".
Proof.
  intros Hh. destruct stem_plain as [Hs _], user_plain as (Hu & _ & _).
  unfold str_replace.
  replace template with ((dir ++ "/" ++ stem) ++ "%r@%h:%p")
    by (by rewrite !string_app_assoc).
  rewrite replace_from_lacks by (by rewrite !lacks_app).
  change (replace_from "%r" user 0 "%r@%h:%p") with (user ++ "@%h:%p").
  replace ((dir ++ "/" ++ stem) ++ user ++ "@%h:%p")
    with ((dir ++ "/" ++ stem ++ user ++ "@") ++ "%h:%p")
    by (by rewrite !string_app_assoc).
  rewrite replace_from_lacks by (by rewrite !lacks_app).
  change (replace_from "%h" h 0 "%h:%p") with (h ++ ":%p").
  replace ((dir ++ "/" ++ stem ++ user ++ "@") ++ h ++ ":%p")
    with ((dir ++ "/" ++ stem ++ user ++ "@" ++ h ++ ":") ++ "%p")
    by (by rewrite !string_app_assoc).
  rewrite replace_from_lacks by (by rewrite !lacks_app).
  change (replace_from "%p" "22" 0 "%p") with "22".
  by rewrite !string_app_assoc.
Qed.

Lemma socket_prefix_template : socket_prefix template = stem.
Proof.
  destruct stem_plain as [Hs Hs'].
  unfold socket_prefix.
  change (dir ++ "/" ++ stem ++ "%r@%h:%p")
    with (dir ++ String "/" (stem ++ String "%" "r@%h:%p")).
  rewrite basename_app by (by rewrite lacks_app).
  by rewrite split_on_head.
Qed.

Lemma control_path_basename (h : string) :
  lacks "%" h → lacks "/" h →
  basename (ssh_control_path user template home h)
  = stem ++ user ++ "@" ++ h ++ ":22".
Proof.
  intros Hh Hh'. destruct stem_plain as [_ Hs], user_plain as (_ & Hu & _).
  unfold ssh_control_path. rewrite (template_expands h Hh).
  assert (Htail : lacks "/" (stem ++ user ++ "@" ++ h ++ ":22")).
  { by rewrite !lacks_app. }
  unfold expanduser.
  destruct (String.eqb _ "~" || String.prefix "~/" _) eqn:Hc.
  - destruct dir as [|c dir']; [by vm_compute in Hc|].
    rewrite string_app_cons. cbn [str_drop].
    rewrite <- string_app_assoc.
    by apply (basename_app (home ++ dir')).
  - by apply (basename_app dir).
Qed.

Lemma parse_socket_name (h : string) :
  parse_socket_hostname stem (stem ++ user ++ "@" ++ h ++ ":22") = Ok h.
Proof.
  destruct user_plain as (_ & _ & Hu).
  unfold parse_socket_hostname. rewrite str_drop_app.
  change ("@" ++ h ++ ":22") with (String "@" (h ++ ":22")).
  rewrite (find_char_app _ _ _ Hu).
  replace (user ++ String "@" (h ++ ":22"))
    with ((user ++ "@" ++ h) ++ String ":" "22")
    by (by rewrite !string_app_assoc).
  rewrite rfind_char_app by done.
  unfold str_slice.
  replace ((user ++ "@" ++ h) ++ String ":" "22")
    with ((user ++ "@") ++ h ++ ":22")
    by (by rewrite !string_app_assoc).
  replace (String.length user + 1)%nat with (String.length (user ++ "@"))
    by (rewrite str_length_app; simpl; lia).
  rewrite str_drop_app.
  replace (String.length (user ++ "@" ++ h) - String.length (user ++ "@"))%nat
    with (String.length h).
  - by rewrite str_take_app.
  - rewrite !str_length_app. simpl. lia.
Qed.

(** X8: for a template of the usual shape, the control socket that a
    session for the host [h] uses is recognised by the scan of the control
    directory as the socket of [h]: its file name starts with the prefix
    the scan derives from the template, and the hostname parsed from it
    is [h] again (also when [h] contains colons or at-signs). *)
Theorem X8_socket_name_round_trip (h : string) :
  lacks "%" h → lacks "/" h →
  socket_of template (basename (ssh_control_path user template home h)) h.
Proof.
  intros Hh Hh'. unfold socket_of.
  rewrite socket_prefix_template, (control_path_basename h Hh Hh').
  split; [|apply parse_socket_name].
  apply prefix_app. clear. induction stem as [|c s IH]; [done|].
  simpl. by destruct (ascii_dec c c).
Qed.
End SocketNames.

Lemma X8_socket_name_round_trip_witness :
  lacks "%" "/tmp/ssh-control" ∧
  (lacks "%" "nlnog-" ∧ lacks "/" "nlnog-") ∧
  (lacks "%" "rise" ∧ lacks "/" "rise" ∧ lacks "@" "rise") ∧
  lacks "%" "a.example" ∧ lacks "/" "a.example" ∧
  socket_of default_template
    (basename (ssh_control_path "rise" default_template "/root" "a.example"))
    "a.example".
Proof.
  split; [reflexivity|]. split; [by split|]. split; [by repeat split|].
  split; [reflexivity|]. split; [reflexivity|].
  exact (X8_socket_name_round_trip "rise" "/root" "/tmp/ssh-control" "nlnog-"
           eq_refl (conj eq_refl eq_refl) (conj eq_refl (conj eq_refl eq_refl))
           "a.example" eq_refl eq_refl).
Defined.

(** ** The outcome of a ping, for every answer of the subprocess *)

Section PingTotal.
Variable env : nat → proc_result.
Variables user template home : string.
Variable float : Type.
Variable py_float : string → option float.
Variables count timeout : Z.

Lemma classify_output_shape (output status : string)
    (stats : option (rtt_stats float)) :
  classify_output float py_float output = Ok (status, stats) →
  (status = "no_rtt" ∧ stats = None) ∨ (status = "ok" ∧ is_Some stats).
Proof.
  unfold classify_output.
  destruct (contains "rtt" output); [|intros [= <- <-]; by left].
  destruct (List.find _ _) as [line|]; [|intros [= <- <-]; by left].
  destruct (String.eqb line ""); [intros [= <- <-]; by left|].
  destruct (list_item _ 1) as [after|]; [|done]. simpl.
  destruct (list_item _ 0) as [parts|]; [|done]. simpl.
  destruct (unpack_floats _ _ _) as [s|]; [|done]. simpl.
  intros [= <- <-]. right. by split.
Qed.

(** X9: [ping_from_node] never raises and runs exactly one command, the
    remote ping; it reports the node it was given and one of five
    statuses, with statistics exactly when the status is ok.  A timeout of
    the subprocess is reported as ssh_timeout, a non-zero exit code as
    ping_error whatever the output holds, and a failure to run the
    subprocess as exception.  Sessions, labels and roster are not
    touched. *)
Theorem X9_ping_from_node_total (node target : string) (st : state) :
  ∃ status stats,
    ping_from_node env user template home float py_float count timeout
                   node target st
      = (Ok (node, status, stats),
         log_call (ping_command user template home count timeout node target) st) ∧
    status ∈ ping_statuses ∧
    (is_Some stats ↔ status = "ok") ∧
    (env (length (calls st)) = ProcTimeout → status = "ssh_timeout") ∧
    (∀ rc out, env (length (calls st)) = Exited rc out → rc ≠ 0 →
               status = "ping_error") ∧
    (env (length (calls st)) = ProcOSError → status = "exception").
Proof.
  unfold ping_from_node, ping_command, Mtry, Mbind, check_output, Mret, Mraise.
  assert (Hnone : ∀ status : string, status ≠ "ok" →
            (is_Some (@None (rtt_stats float)) ↔ status = "ok")).
  { intros status Hne. split; [by intros [? ?]|done]. }
  destruct (env (length (calls st))) as [rc out| |] eqn:He.
  - destruct (rc =? 0) eqn:Hrc.
    + apply Z.eqb_eq in Hrc as ->.
      destruct (classify_output float py_float out) as [[status stats]|e] eqn:Hc.
      * exists status, stats. split; [done|].
        destruct (classify_output_shape _ _ _ Hc) as [[-> ->]|[-> Hs]].
        -- split; [set_solver|]. split; [by apply Hnone|].
           split; [done|]. split; [|done]. by intros rc' out' [= <- <-] Hne.
        -- split; [set_solver|]. split; [done|].
           split; [done|]. split; [|done]. by intros rc' out' [= <- <-] Hne.
      * destruct e; eexists _, None; (split; [reflexivity|]);
          (split; [set_solver|]); (split; [by apply Hnone|]);
          (split; [done|]); (split; [|done]);
          by intros rc' out' [= <- <-] Hne'.
    + apply Z.eqb_neq in Hrc.
      exists "ping_error", None. split; [done|]. split; [set_solver|].
      split; [by apply Hnone|]. by repeat split.
  - exists "ssh_timeout", None. split; [done|]. split; [set_solver|].
    split; [by apply Hnone|]. by repeat split.
  - exists "exception", None. split; [done|]. split; [set_solver|].
    split; [by apply Hnone|]. by repeat split.
Qed.
End PingTotal.

(** ** The [/probe] handler on a valid request *)


Section ProbeValid.
Variable env : nat → proc_result.
Variables user template home : string.
Variable float : Type.
Variable py_float : string → option float.
Variable resolves : string → bool.
Variables count timeout : Z.

Local Abbreviation ping :=
  (ping_from_node env user template home float py_float count timeout).
Local Abbreviation probe_one' :=
  (probe_one env user template home float py_float count timeout).




End ProbeValid.

Lemma sample_roster_complete : Forall complete_node sample_roster.
Proof.
  repeat apply Forall_cons_2; [..|apply Forall_nil_2];
    (split; [apply sample_node_wf|]); repeat split; by eexists.
Qed.


(** ** The filters of a request *)

(** X11: the filters that [/probe] builds from a request.  A field
    whose parameter is absent or empty is not filtered on.  A field with a
    non-empty parameter gets exactly one filter, and a node passes it
    exactly if the lower-cased value of its field equals, for one of the
    comma-separated items of the parameter, the item stripped of
    surrounding blanks and lower-cased (the value of the node itself is
    not stripped). *)
Theorem X11_request_filter_matching (args : list (string * string)) (f : field) :
  (args_get args (field_name f) = None ∨ args_get args (field_name f) = Some "" →
   ∀ allowed, (f, allowed) ∉ build_filters args) ∧
  (∀ value, args_get args (field_name f) = Some value → value ≠ "" →
     ∃ allowed,
       (f, allowed) ∈ build_filters args ∧
       (∀ allowed', (f, allowed') ∈ build_filters args → allowed' = allowed) ∧
       ∀ n s, _node_field_value n f = Ok (PStr s) →
         (passes_filter (f, allowed) n = Ok true ↔
          ∃ v, v ∈ split_on "," value ∧ lower (strip v) = lower s)).
Proof.
  assert (Hmem : ∀ allowed, (f, allowed) ∈ build_filters args ↔
            ∃ value, args_get args (field_name f) = Some value ∧ value ≠ "" ∧
              allowed = list_to_set ((fun v => lower (strip v)) <$> split_on "," value)).
  { intros allowed. unfold build_filters. rewrite list_elem_of_omap. split.
    - intros (f' & _ & Hf).
      destruct (args_get args (field_name f')) as [value|] eqn:Hv; [|done].
      destruct (String.eqb_spec value ""); [done|].
      injection Hf as -> <-. by exists value.
    - intros (value & Hv & Hne & ->). exists f. split.
      + unfold all_fields. destruct f; set_solver.
      + rewrite Hv. by destruct (String.eqb_spec value ""). }
  split.
  - intros Hno allowed (value & Hv & Hne & _)%Hmem.
    destruct Hno as [Hno|Hno]; congruence.
  - intros value Hv Hne. eexists. split; [apply Hmem; by exists value|].
    split.
    + intros allowed' (value' & Hv' & _ & ->)%Hmem. congruence.
    + intros n s Hs. unfold passes_filter. simpl. rewrite Hs. simpl.
      split.
      * intros [= Hin%bool_decide_eq_true].
        apply elem_of_list_to_set, list_elem_of_fmap in Hin as (v & Heq & Hin).
        by exists v.
      * intros (v & Hin & Heq). f_equal. apply bool_decide_eq_true.
        apply elem_of_list_to_set, list_elem_of_fmap. by exists v.
Qed.

(** ** What the normalisation of the catalog builds *)

Lemma upper_ascii_idemp (c : ascii) : upper_ascii (upper_ascii c) = upper_ascii c.
Proof. destruct c as [[] [] [] [] [] [] [] []]; reflexivity. Qed.

Lemma upper_idemp (s : string) : upper (upper s) = upper s.
Proof.
  unfold upper. induction s as [|c s IH]; [done|].
  simpl. by rewrite upper_ascii_idemp, IH.
Qed.

Lemma get_continent_values (coco : string → string → string) (alpha2 : string) :
  get_continent coco alpha2 ≠ "America" ∧ get_continent coco alpha2 ≠ "not found".
Proof.
  unfold get_continent.
  destruct (String.eqb_spec (coco "continent" alpha2) "not found"); [done|].
  destruct (String.eqb_spec (coco "continent" alpha2) "America"); [|done].
  by destruct (String.eqb (coco "UNregion" alpha2) "South America").
Qed.

Section RosterFacts.
Variable coco : string → string → string.
Variable participants : gmap Z pyval.

(** The records that the loop of [filter_api_nodes] appends. *)
Lemma filter_api_nodes_from_records (raw_nodes filtered out : list dict) :
  filter_api_nodes_from coco raw_nodes participants filtered = Ok out →
  ∃ new, out = (filtered ++ new)%list ∧
    Forall (fun d => ∃ n hostname asn city cc,
              n ∈ raw_nodes ∧
              n !! "hostname" = Some hostname ∧ n !! "city" = Some city ∧
              d = node_dict hostname (PStr (py_str asn)) city (PStr (upper cc))
                    (PStr (get_continent coco (upper cc)))
                    (participants_get participants
                       (dict_get n (Some "participant")) (PStr "Unknown")))
           new.
Proof.
  revert filtered. induction raw_nodes as [|n rest IH]; intros filtered H.
  - injection H as <-. exists []. by rewrite app_nil_r.
  - assert (Hrest : ∀ filtered',
              filter_api_nodes_from coco rest participants filtered' = Ok out →
              ∃ new, out = (filtered' ++ new)%list ∧
                Forall (fun d => ∃ n0 hostname asn city cc,
                  n0 ∈ n :: rest ∧
                  n0 !! "hostname" = Some hostname ∧ n0 !! "city" = Some city ∧
                  d = node_dict hostname (PStr (py_str asn)) city (PStr (upper cc))
                        (PStr (get_continent coco (upper cc)))
                        (participants_get participants
                           (dict_get n0 (Some "participant")) (PStr "Unknown")))
                  new).
    { intros filtered' H'. destruct (IH _ H') as (new & -> & Hnew).
      exists new. split; [done|]. eapply Forall_impl; [exact Hnew|].
      intros d (n0 & h & a & c & cc & Hin & ?). exists n0, h, a, c, cc.
      split; [by right|done]. }
    cbn [filter_api_nodes_from] in H. unfold getitem in H.
    destruct (n !! "alive_ipv4") as [a4|]; [|discriminate].
    cbn [rbind] in H.
    destruct (truthy a4); [|by apply Hrest].
    destruct (n !! "alive_ipv6") as [a6|]; [|discriminate].
    cbn [rbind] in H.
    destruct (truthy a6); [|by apply Hrest].
    cbn [negb] in H.
    destruct (n !! "countrycode") as [ccv|]; [|discriminate].
    cbn [rbind] in H. destruct ccv as [| | |cc]; try discriminate.
    cbn [py_upper rbind] in H.
    destruct (n !! "hostname") as [hostname|] eqn:Hh; [|discriminate].
    cbn [rbind] in H.
    destruct (n !! "asn") as [asn|]; [|discriminate].
    cbn [rbind] in H.
    destruct (n !! "city") as [city|] eqn:Hc; [|discriminate].
    cbn [rbind] in H.
    destruct (Hrest _ H) as (new & -> & Hnew).
    eexists (_ :: new). split; [by rewrite <- (assoc_L (++))|].
    constructor; [|done].
    exists n, hostname, asn, city, cc. split; [by left|]. by repeat split.
Qed.

(** X12: every record of the roster that [filter_api_nodes] returns has
    the six fields; its ASN, country code and continent are strings, the
    country code is in upper case, and the continent is never the
    dataset's America (it is split into North and South America) nor its
    not-found marker.  When the hostnames, cities and companies of the
    catalog are strings or null, every record has all that the [/probe]
    handler reads. *)
Theorem X12_roster_records_complete (raw_nodes out : list dict) :
  filter_api_nodes coco raw_nodes participants = Ok out →
  Forall (fun d =>
    is_Some (d !! "hostname") ∧ is_Some (d !! "city") ∧
    is_Some (d !! "company") ∧
    (∃ asn, d !! "asn" = Some (PStr asn)) ∧
    ∃ cc continent,
      d !! "countrycode" = Some (PStr cc) ∧ upper cc = cc ∧
      d !! "continent" = Some (PStr continent) ∧
      continent = get_continent coco cc ∧
      continent ≠ "America" ∧ continent ≠ "not found") out ∧
  (Forall typed_raw raw_nodes → typed_participants participants →
   ∀ i d, d ∈ out → complete_node (NodeObj i d)).
Proof.
  intros H. apply filter_api_nodes_from_records in H as (new & -> & Hnew).
  rewrite app_nil_l. split.
  - eapply Forall_impl; [exact Hnew|].
    intros d (n & hostname & asn & city & cc & _ & _ & _ & ->).
    destruct (node_dict_lookup hostname (PStr (py_str asn)) city (PStr (upper cc))
                (PStr (get_continent coco (upper cc)))
                (participants_get participants
                   (dict_get n (Some "participant")) (PStr "Unknown")))
      as (L1 & L2 & L3 & L4 & L5 & L6).
    rewrite L1, L2, L3, L4, L5, L6.
    split; [by eexists|]. split; [by eexists|]. split; [by eexists|].
    split; [by eexists|]. exists (upper cc), (get_continent coco (upper cc)).
    split; [done|]. split; [apply upper_idemp|]. split; [done|].
    split; [done|]. apply get_continent_values.
  - intros Hraw Hpart i d Hd.
    rewrite Forall_forall in Hnew, Hraw.
    destruct (Hnew d Hd) as (n & hostname & asn & city & cc & Hn & Hh & Hc & ->).
    destruct (Hraw n Hn) as [Hth Htc].
    assert (Hco : str_or_none (participants_get participants
                    (dict_get n (Some "participant")) (PStr "Unknown"))).
    { unfold participants_get.
      destruct (dict_get n (Some "participant")) as [|b|z|s];
        try (right; by eexists).
      - destruct (participants !! _) eqn:Hp; simpl;
          [by eapply Hpart|right; by eexists].
      - destruct (participants !! _) eqn:Hp; simpl;
          [by eapply Hpart|right; by eexists]. }
    unfold complete_node, wf_node. cbn [ofields].
    split; [split|]; [by eexists| |repeat split; by eexists].
    intros k v Hk. unfold node_dict in Hk.
    repeat (apply lookup_insert_Some in Hk as [[_ <-]|[_ Hk]];
            [first [by apply Hth | by apply Htc | exact Hco | right; by eexists]|]).
    by rewrite lookup_empty in Hk.
Qed.
End RosterFacts.

Lemma X12_roster_records_complete_witness :
  ∃ out,
    filter_api_nodes sample_coco sample_raw_nodes sample_participants = Ok out ∧
    Forall (fun d =>
      is_Some (d !! "hostname") ∧ is_Some (d !! "city") ∧
      is_Some (d !! "company") ∧
      (∃ asn, d !! "asn" = Some (PStr asn)) ∧
      ∃ cc continent,
        d !! "countrycode" = Some (PStr cc) ∧ upper cc = cc ∧
        d !! "continent" = Some (PStr continent) ∧
        continent = get_continent sample_coco cc ∧
        continent ≠ "America" ∧ continent ≠ "not found") out.
Proof.
  eexists. split; [reflexivity|].
  exact (proj1 (X12_roster_records_complete sample_coco sample_participants
                  sample_raw_nodes _ eq_refl)).
Defined.

(** ** The refresh of the roster *)

Section RefreshFacts.
Variable env : nat → proc_result.
Variables user template home : string.
Variable coco : string → string → string.

Local Abbreviation start := (start_session env user template home).
Local Abbreviation stop := (stop_session env user template home).
Local Abbreviation reconcile := (check_and_manage_ssh_session env user template home).

Lemma start_session_store (h : string) (s : state) :
  store (snd (start h s)) = store s.
Proof.
  by destruct (start_session_cases env user template home h s)
    as [[_ ->]|[(_ & _ & ->)|(_ & _ & ->)]].
Qed.

Lemma stop_session_store (h : string) (s : state) :
  store (snd (stop h s)) = store s.
Proof.
  by destruct (stop_session_cases env user template home h s) as [[_ ->]|[_ ->]].
Qed.

(** How a reconciliation ends: with the label that matches its result,
    and an exception only from the subprocess of the health check. *)
Lemma check_and_manage_result (h : string) (s : state) :
  ∃ r s', reconcile h s = (r, s') ∧
    store s' = store s ∧
    match r with
    | Ok true => session_health s' !! h = Some "healthy"
    | Ok false => session_health s' !! h = Some "restarted"
    | Raise _ => session_health s' = session_health s
    end ∧
    (always_exits env → ∃ b, r = Ok b).
Proof.
  unfold check_and_manage_ssh_session. unfold Mbind at 1.
  pose proof (start_session_store h s) as Hst1.
  destruct (start_session_cases env user template home h s)
    as [[_ H1]|[(_ & _ & H1)|(_ & _ & H1)]]; rewrite H1 in Hst1 |- *;
    cbn [snd] in Hst1;
    match goal with |- context [Mbind _ _ ?s1] => set (s1' := s1) in * end.
  all: assert (Hh1 : session_health s1' = session_health s) by done.
  all: unfold Mbind at 1; unfold subprocess_run.
  all: destruct (env (length (calls s1'))) as [rc out| |] eqn:He;
    [|eexists _, _; split; [done|]; split; [done|]; split; [done|];
      intros Hex; destruct (Hex (length (calls s1'))) as (? & ? & ?); congruence..].
  all: destruct (rc =? 0).
  all: try (eexists _, _; split; [done|]; split; [done|];
            split; [cbn; by rewrite lookup_insert_eq|by eexists]).
  all: set (s2 := log_call _ s1').
  all: unfold Mbind at 1.
  all: pose proof (stop_session_store h s2) as Hst3.
  all: destruct (stop_session_cases env user template home h s2)
         as [[_ H3]|[_ H3]]; rewrite H3 in Hst3 |- *; cbn [snd] in Hst3;
       match goal with |- context [Mbind _ _ ?s3] => set (s3' := s3) in * end.
  all: unfold Mbind at 1.
  all: pose proof (start_session_store h s3') as Hst4.
  all: destruct (start_session_cases env user template home h s3')
         as [[_ H4]|[(_ & _ & H4)|(_ & _ & H4)]]; rewrite H4 in Hst4 |- *;
       cbn [snd] in Hst4.
  all: eexists _, _; split; [done|]; split;
         [etrans; [exact Hst4|]; etrans; [exact Hst3|]; exact Hst1|];
         split; [cbn; by rewrite lookup_insert_eq|by eexists].
Qed.

(** The loop over the hostnames of the roster. *)
Lemma Mfor_reconcile (l : list string) (s : state) :
  Mfor l (fun h => Mtry (let! _ := reconcile h in Mret tt) (fun _ => Mret tt)) s
  = (Ok tt, reconciled env user template home l s).
Proof.
  revert s. induction l as [|h l IH]; intros s; [done|].
  simpl. unfold Mbind at 1. unfold Mtry at 1. unfold Mbind at 1.
  destruct (reconcile h s) as [[b|e] s']; simpl; apply IH.
Qed.

Lemma reconciled_spec (l : list string) (s : state) :
  let s' := reconciled env user template home l s in
  store s' = store s ∧
  (∀ x, x ∉ l → (x ∈ active_sessions s' ↔ x ∈ active_sessions s) ∧
                session_health s' !! x = session_health s !! x) ∧
  (∀ x v, session_health s' !! x = Some v →
          session_health s !! x = Some v ∨ (x ∈ l ∧ known_label v)) ∧
  (∀ x, is_Some (session_health s !! x) → is_Some (session_health s' !! x)) ∧
  (always_exits env → ∀ x, x ∈ l →
     ∃ v, session_health s' !! x = Some v ∧ known_label v).
Proof.
  revert s. induction l as [|h l IH]; intros s.
  - simpl. split; [done|]. split; [done|]. split; [by left|]. split; [done|].
    intros _ x Hx. by apply elem_of_nil in Hx.
  - simpl. unfold reconciled in *. simpl.
    destruct (check_and_manage_result h s) as (r & s1 & Hrun & Hst & Hlab & Hex).
    pose proof (check_and_manage_only_touches env user template home h s) as [A B].
    rewrite Hrun in *. cbn [snd] in *.
    destruct (IH s1) as (I1 & I2 & I3 & I4 & I5).
    assert (Hs1 : ∀ x v, session_health s1 !! x = Some v →
             session_health s !! x = Some v ∨ (x = h ∧ known_label v)).
    { intros x v Hx. destruct (decide (x = h)) as [->|Hne];
        [|left; by rewrite <- B].
      destruct r as [[]|e].
      - right. split; [done|]. left. congruence.
      - right. split; [done|]. right. congruence.
      - left. by rewrite <- Hlab. }
    assert (Hs1' : ∀ x, is_Some (session_health s !! x) →
                        is_Some (session_health s1 !! x)).
    { intros x Hx. destruct (decide (x = h)) as [->|Hne]; [|by rewrite B].
      destruct r as [[]|e]; [by eexists|by eexists|by rewrite Hlab]. }
    split; [congruence|]. split; [|split; [|split]].
    + intros x [Hxh Hxl]%not_elem_of_cons.
      destruct (I2 x Hxl) as [-> ->]. split; [by apply A|by apply B].
    + intros x v Hx. destruct (I3 x v Hx) as [Hx1|[Hin Hk]].
      * destruct (Hs1 x v Hx1) as [?|[-> Hk]]; [by left|].
        right. split; [by left|done].
      * right. split; [by right|done].
    + intros x Hx. by apply I4, Hs1'.
    + intros Hall x [->|Hx]%elem_of_cons; [|by apply I5].
      destruct (Hex Hall) as [b ->].
      destruct (decide (h ∈ l)) as [Hin|Hnin]; [by apply I5|].
      destruct (I2 h Hnin) as [_ ->].
      destruct b; eexists; (split; [exact Hlab|]); [by left|by right].
Qed.

Lemma Mfor_stop_any (l : list string) (s : state) :
  ∃ s', Mfor l stop s = (Ok tt, s') ∧
    active_sessions s' = active_sessions s ∖ list_to_set l ∧
    session_health s' = session_health s ∧
    store s' = store s.
Proof.
  clear coco.
  revert s. induction l as [|x l IH]; intros s.
  - exists s. simpl. split; [done|]. split; [set_solver|]. done.
  - destruct (stop_session_cases env user template home x s)
      as [[Hout Hstep]|[_ Hstep]];
      rewrite (Mfor_cons_ok x l stop s _ Hstep);
      match goal with |- context [Mfor l _ ?s1] =>
        destruct (IH s1) as (s' & -> & Ha & Hh & Hst)
      end; exists s'; (split; [done|]); rewrite Ha; simpl;
      (split; [set_solver|done]).
Qed.

Lemma lookup_prune (m : gmap string string) (l : list string) (x : string) :
  foldr (fun h m' => delete h m') m l !! x
  = if decide (x ∈ l) then None else m !! x.
Proof.
  induction l as [|h l IH]; simpl; [done|].
  destruct (decide (x = h)) as [->|Hne].
  - rewrite lookup_delete_eq. rewrite decide_True; [done|by left].
  - rewrite lookup_delete_ne by done. rewrite IH.
    destruct (decide (x ∈ l)).
    + rewrite decide_True; [done|by right].
    + rewrite decide_False; [done|]. by intros [?|?]%elem_of_cons.
Qed.

Lemma new_objects_hostnames (contents : list dict) (k : nat) :
  Forall (fun d => is_Some (record_hostname d)) contents →
  ∃ hs, rmap node_hostname (imap (fun i d => NodeObj (k + i) d) contents) = Ok hs ∧
        (list_to_set hs : gset string) = hostnames_of contents.
Proof.
  revert k. induction contents as [|d contents IH]; intros k Hall.
  - by exists [].
  - apply Forall_cons in Hall as [[h Hd] Hall].
    destruct (IH (S k) Hall) as (hs & Hhs & Hset).
    exists (h :: hs). split.
    + cbn [imap rmap]. unfold node_hostname at 1, getitem. cbn [ofields].
      unfold record_hostname in Hd.
      destruct (d !! "hostname") as [[| | |h']|]; try done.
      injection Hd as ->. cbn [rbind].
      rewrite (imap_ext _ (fun i d => NodeObj (S k + i) d))
        by (intros; simpl; f_equal; lia).
      by rewrite Hhs.
    + unfold hostnames_of in *. cbn [omap list_omap]. fold (omap record_hostname contents). rewrite Hd. cbn [list_to_set]. by rewrite Hset.
Qed.

Lemma new_objects_NoDup (contents : list dict) (k : nat) :
  NoDup (oid <$> imap (fun i d => NodeObj (k + i) d) contents).
Proof.
  rewrite fmap_imap.
  apply NoDup_alt. intros i j x Hi Hj.
  rewrite list_lookup_imap in Hi, Hj.
  destruct (contents !! i); [|done]. destruct (contents !! j); [|done].
  simpl in *. injection Hi as <-. injection Hj as Hj. lia.
Qed.

(** X13: a refresh whose catalog fetch succeeds (the hostnames of the
    records being strings) never raises.  Afterwards the roster holds
    the normalised records, as distinct objects, and the cache file holds
    their JSON text if the disk could be written; every labelled host is
    a host of the new roster; a host that is not in the new roster and had
    a label has no session; a host that is not in the new roster and had no
    label keeps its session if it had one; and if every subprocess runs to
    an exit code, every host of the new roster is labelled healthy or
    restarted. *)
Theorem X13_refresh_replaces_roster (c : catalog) (st : state)
    (raw_nodes contents : list dict) :
  nodes_response c = Ok raw_nodes →
  filter_api_nodes coco raw_nodes (fetch_participants c) = Ok contents →
  Forall (fun d => is_Some (record_hostname d)) contents →
  ∃ st',
    refresh_iteration env user template home coco c st = (Ok tt, st') ∧
    ofields <$> node_cache st' = contents ∧
    NoDup (oid <$> node_cache st') ∧
    cache_file st'
      = (if disk_ok c then Some (json_dumps contents) else cache_file st) ∧
    (∀ h, is_Some (session_health st' !! h) → h ∈ hostnames_of contents) ∧
    (∀ h, h ∉ hostnames_of contents → is_Some (session_health st !! h) →
          h ∉ active_sessions st') ∧
    (∀ h, h ∉ hostnames_of contents → session_health st !! h = None →
          (h ∈ active_sessions st' ↔ h ∈ active_sessions st)) ∧
    (always_exits env → ∀ h, h ∈ hostnames_of contents →
       ∃ v, session_health st' !! h = Some v ∧ known_label v).
Proof.
  intros Hresp Hfilter Hhosts.
  unfold refresh_iteration, Mtry. rewrite Hresp. cbn [rbind]. rewrite Hfilter.
  unfold Mbind at 1. unfold new_objects.
  unfold Mbind at 1.
  set (filtered := imap (fun i d => NodeObj (next_oid st + i) d) contents).
  assert (Hfields : ofields <$> filtered = contents).
  { subst filtered. rewrite fmap_imap.
    rewrite (imap_ext _ (const id)) by done. by rewrite imap_const, list_fmap_id. }
  set (s1 := set_next_oid _ st).
  assert (Hsave : ∃ s2, save_node_cache (disk_ok c) filtered s1 = (Ok tt, s2) ∧
            active_sessions s2 = active_sessions st ∧
            session_health s2 = session_health st ∧
            cache_file s2 = (if disk_ok c then Some (json_dumps contents)
                             else cache_file st)).
  { unfold save_node_cache. destruct (disk_ok c); eexists; (split; [done|]);
      simpl; by rewrite ?Hfields. }
  destruct Hsave as (s2 & -> & Ha2 & Hh2 & Hc2).
  unfold Mbind at 1. unfold Mmodify at 1.
  set (s3 := set_node_cache filtered s2).
  destruct (new_objects_hostnames contents (next_oid st) Hhosts) as (hs & Hhs & Hset).
  fold filtered in Hhs. rewrite Hhs, Hset.
  unfold Mbind at 1. rewrite Mfor_reconcile.
  set (l := sorted (hostnames_of contents)).
  destruct (reconciled_spec l s3) as (R1 & R2 & R3 & R4 & R5).
  set (s4 := reconciled env user template home l s3) in *.
  unfold Mbind at 1. unfold Mget. unfold Mbind at 1. unfold Mmodify at 1.
  set (stale := dom (session_health s4) ∖ hostnames_of contents).
  set (s5 := set_health _ s4).
  destruct (Mfor_stop_any (elements stale) s5) as (s6 & -> & Ha6 & Hh6 & Hst6).
  rewrite list_to_set_elements_L in Ha6.
  assert (Hl : ∀ x, x ∈ l ↔ x ∈ hostnames_of contents)
    by (intros x; apply elem_of_sorted).
  assert (Hlab6 : ∀ x, session_health s6 !! x
            = if decide (x ∈ hostnames_of contents) then session_health s4 !! x
              else None).
  { intros x. rewrite Hh6. subst s5. cbn [session_health set_health].
    rewrite lookup_prune. subst stale.
    destruct (decide (x ∈ hostnames_of contents)) as [Hin|Hnin].
    - rewrite decide_False; [done|]. rewrite elem_of_elements. set_solver.
    - destruct (session_health s4 !! x) as [v|] eqn:Hx.
      + rewrite decide_True; [done|]. rewrite elem_of_elements.
        apply elem_of_difference. split; [|done]. apply elem_of_dom. by eexists.
      + by destruct (decide _). }
  assert (Hstore : store s6 = store s3).
  { rewrite Hst6. subst s5. etrans; [|exact R1]. done. }
  exists s6. split; [done|].
  split; [by injection Hstore as -> _ _ _ _|].
  split; [injection Hstore as -> _ _ _ _; apply new_objects_NoDup|].
  split; [by injection Hstore as _ -> _ _ _|].
  split; [|split; [|split]].
  - intros h [v Hv]. rewrite Hlab6 in Hv. by destruct (decide _).
  - intros h Hnin Hsome. rewrite Ha6. subst s5. cbn [active_sessions set_health].
    apply not_elem_of_difference. right. subst stale.
    apply elem_of_difference. split; [|done]. apply elem_of_dom, R4.
    subst s3. cbn [session_health set_node_cache]. by rewrite Hh2.
  - intros h Hnin Hnone. rewrite Ha6. subst s5. cbn [active_sessions set_health].
    assert (Hnl : h ∉ l) by (by rewrite Hl).
    destruct (R2 h Hnl) as [Hact Hlab].
    assert (Hns : h ∉ stale).
    { subst stale. intros [Hd _]%elem_of_difference.
      apply elem_of_dom in Hd as [v Hv]. rewrite Hlab in Hv. subst s3.
      cbn [session_health set_node_cache] in Hv. congruence. }
    rewrite elem_of_difference, Hact. subst s3. cbn [active_sessions set_node_cache].
    rewrite Ha2. tauto.
  - intros Hex h Hin. rewrite Hlab6, decide_True by done.
    apply R5; [done|]. by apply Hl.
Qed.

Lemma filter_api_nodes_from_malformed (raw_nodes filtered : list dict)
    (participants : gmap Z pyval) (n : dict) :
  n ∈ raw_nodes → malformed n →
  ∃ e, filter_api_nodes_from coco raw_nodes participants filtered = Raise e.
Proof.
  intros Hin Hbad. revert filtered.
  induction raw_nodes as [|n0 rest IH]; intros filtered;
    [by apply elem_of_nil in Hin|].
  cbn [filter_api_nodes_from]. unfold getitem.
  apply elem_of_cons in Hin as [<-|Hin].
  - unfold malformed, both_alive in Hbad. cbn [dict_get] in Hbad.
    destruct (n !! "alive_ipv4") as [a4|]; [|by eexists]. cbn [rbind].
    simpl in Hbad.
    destruct Hbad as [?|[[Ht H6]|[[Ht Ht6] Hbad]]]; [done| |]; rewrite Ht.
    + rewrite H6. by eexists.
    + destruct (n !! "alive_ipv6") as [a6|]; [|by eexists].
      cbn [rbind]. simpl in Ht6. rewrite Ht6. cbn [negb].
      destruct (n !! "countrycode") as [[| | |cc]|]; try by eexists.
      cbn [rbind py_upper].
      destruct Hbad as [Hcc|[Hh|[Ha|Hc]]]; [by destruct (Hcc cc)| | |].
      * rewrite Hh. by eexists.
      * destruct (n !! "hostname"); [|by eexists]. cbn [rbind].
        rewrite Ha. by eexists.
      * destruct (n !! "hostname"); [|by eexists]. cbn [rbind].
        destruct (n !! "asn"); [|by eexists]. cbn [rbind].
        rewrite Hc. by eexists.
  - specialize (IH Hin).
    destruct (n0 !! "alive_ipv4") as [a4|]; [|by eexists]. cbn [rbind].
    destruct (truthy a4); [|by apply IH].
    destruct (n0 !! "alive_ipv6") as [a6|]; [|by eexists]. cbn [rbind].
    destruct (truthy a6); [|by apply IH]. cbn [negb].
    destruct (n0 !! "countrycode") as [[| | |cc]|]; try by eexists.
    cbn [rbind py_upper].
    destruct (n0 !! "hostname"); [|by eexists]. cbn [rbind].
    destruct (n0 !! "asn"); [|by eexists]. cbn [rbind].
    destruct (n0 !! "city"); [|by eexists]. cbn [rbind].
    apply IH.
Qed.

(** X14: a refresh is all or nothing.  When the catalog cannot be
    fetched, or when a single record of it is malformed (a liveness flag
    is missing, or a live record lacks its hostname, ASN or city or has
    no string for its country code), the refresh does not raise and
    leaves the whole state as it was: the roster, the cache file, the
    sessions and the labels; no subprocess is run. *)
Theorem X14_refresh_all_or_nothing (c : catalog) (st : state) :
  (∃ e, nodes_response c = Raise e) ∨
  (∃ raw_nodes n, nodes_response c = Ok raw_nodes ∧ n ∈ raw_nodes ∧ malformed n) →
  refresh_iteration env user template home coco c st = (Ok tt, st).
Proof.
  intros [[e He]|(raw_nodes & n & Hresp & Hin & Hbad)];
    unfold refresh_iteration, Mtry.
  - by rewrite He.
  - rewrite Hresp. cbn [rbind].
    destruct (filter_api_nodes_from_malformed raw_nodes [] (fetch_participants c)
                n Hin Hbad) as [e He].
    unfold filter_api_nodes. by rewrite He.
Qed.
End RefreshFacts.

Lemma X13_refresh_replaces_roster_witness :
  ∃ raw_nodes contents,
    nodes_response sample_catalog = Ok raw_nodes ∧
    filter_api_nodes sample_coco raw_nodes (fetch_participants sample_catalog)
      = Ok contents ∧
    Forall (fun d => is_Some (record_hostname d)) contents ∧
    ∃ st',
      refresh_iteration all_up "rise" default_template "/root" sample_coco
        sample_catalog initial_state = (Ok tt, st') ∧
      ofields <$> node_cache st' = contents ∧
      cache_file st' = Some (json_dumps contents).
Proof.
  eexists _, _. split; [reflexivity|]. split; [reflexivity|].
  assert (Hh : Forall (fun d => is_Some (record_hostname d))
                 [node_dict (PStr "a.example") (PStr "64500") (PStr "Amsterdam")
                    (PStr "NL") (PStr "Europe") (PStr "ACME");
                  node_dict (PStr "b.example") (PStr "64500") (PStr "Amsterdam")
                    (PStr "NL") (PStr "Europe") (PStr "ACME")]).
  { repeat apply Forall_cons_2; [..|apply Forall_nil_2]; by eexists. }
  split; [exact Hh|].
  destruct (X13_refresh_replaces_roster all_up "rise" default_template "/root"
              sample_coco sample_catalog initial_state _ _ eq_refl eq_refl Hh)
    as (st' & Hrun & Hf & _ & Hc & _).
  exists st'. split; [exact Hrun|]. split; [exact Hf|exact Hc].
Defined.

Lemma X14_refresh_all_or_nothing_witness :
  ((∃ e, nodes_response broken_catalog = Raise e) ∨
   (∃ raw_nodes n, nodes_response broken_catalog = Ok raw_nodes ∧
                   n ∈ raw_nodes ∧ malformed n)) ∧
  refresh_iteration all_up "rise" default_template "/root" sample_coco
    broken_catalog sample_state = (Ok tt, sample_state).
Proof.
  assert (H : (∃ e, nodes_response broken_catalog = Raise e) ∨
              (∃ raw_nodes n, nodes_response broken_catalog = Ok raw_nodes ∧
                              n ∈ raw_nodes ∧ malformed n)).
  { right. eexists _, (delete "alive_ipv4" (sample_raw "b.example")).
    split; [reflexivity|]. split; [set_solver|]. by left. }
  split; [exact H|].
  exact (X14_refresh_all_or_nothing all_up "rise" default_template "/root"
           sample_coco broken_catalog sample_state H).
Defined.

(** ** Startup: which roster is used *)

Lemma fmap_ofields_new (contents : list dict) (k : nat) :
  ofields <$> imap (fun i d => NodeObj (k + i) d) contents = contents.
Proof.
  rewrite fmap_imap. rewrite (imap_ext _ (const id)) by done.
  by rewrite imap_const, list_fmap_id.
Qed.

Section StartupRoster.
Variable env : nat → proc_result.
Variables user template home : string.
Variable coco : string → string → string.

Local Abbreviation startup := (startup_restore_sessions env user template home coco).
Local Abbreviation parallel hostnames :=
  (start_sessions_parallel env user template home hostnames (Some _progress)).

Local Abbreviation step :=
  (fun hostname : string =>
     let! success := Mtry (start_session env user template home hostname)
                          (fun _ => Mret false) in
     _progress hostname success).

Lemma parallel_unfold (hostnames : gset string) (s : state) :
  parallel hostnames s
  = if bool_decide (hostnames ∖ active_sessions s = ∅) then (Ok tt, s)
    else Mfor (sorted (hostnames ∖ active_sessions s)) step s.
Proof.
  unfold start_sessions_parallel, Mbind at 1, Mget.
  by destruct (bool_decide _).
Qed.

Lemma cleanup_stale_sockets_runs (st : state) :
  ∃ s1, cleanup_stale_sockets env user template st = (Ok tt, s1) ∧
    active_sessions st ⊆ active_sessions s1 ∧
    session_health s1 = session_health st ∧
    node_cache s1 = node_cache st ∧
    cache_file s1 = cache_file st ∧
    (∀ c snap, (c, snap) ∈ calls s1 →
       (c, snap) ∈ calls st ∨ ∃ p d, c = SshCheck p d).
Proof.
  rewrite cleanup_stale_sockets_unfold.
  destruct (control_dir st) as [entries|].
  - destruct (Mfor_scan env user template entries st)
      as (s' & -> & H1 & _ & H3 & H4 & H5 & H6).
    by exists s'.
  - exists st. split; [done|]. split; [done|]. split; [done|].
    split; [done|]. split; [done|]. by left.
Qed.

Lemma parallel_store (hostnames : gset string) (s : state) :
  store (snd (parallel hostnames s)) = store s.
Proof.
  unfold start_sessions_parallel, Mbind at 1, Mget.
  destruct (bool_decide _); [done|].
  apply (Mfor_inv (fun s' => store s' = store s)); [|done].
  intros x s' _ Hs'. unfold Mbind, Mtry.
  pose proof (start_session_store env user template home x s') as H1.
  destruct (start_session env user template home x s') as [[[]|e] s1];
    unfold store in *; simpl in *; congruence.
Qed.

Lemma parallel_runs (hostnames : gset string) (s : state) :
  ∃ s', parallel hostnames s = (Ok tt, s') ∧
    store s' = store s ∧
    active_sessions s ⊆ active_sessions s' ∧
    (∀ x v, session_health s' !! x = Some v →
            session_health s !! x = Some v ∨ v = "healthy") ∧
    (∀ h, h ∈ active_sessions s' → h ∉ active_sessions s →
          session_health s' !! h = Some "healthy") ∧
    (always_succeeds env → ∀ h, h ∈ hostnames → h ∈ active_sessions s').
Proof.
  clear coco.
  pose proof (parallel_store hostnames s) as Hst.
  rewrite parallel_unfold in Hst |- *.
  destruct (bool_decide (hostnames ∖ active_sessions s = ∅)) eqn:He.
  - apply bool_decide_eq_true in He. exists s. split; [done|].
    split; [done|]. split; [done|]. split; [by left|]. split; [done|].
    intros _ h Hh. destruct (decide (h ∈ active_sessions s)); [done|]. set_solver.
  - destruct (Mfor_parallel env user template home
                (sorted (hostnames ∖ active_sessions s)) s)
      as (s' & Hrun & H1 & H2 & H3 & H4 & H5 & H6).
    { apply sorted_NoDup. }
    { intros x Hx%elem_of_sorted. set_solver. }
    rewrite Hrun in Hst |- *. exists s'. split; [done|]. split; [done|].
    split; [done|]. split; [|split; [done|]].
    + intros x v Hx.
      destruct (decide (x ∈ active_sessions s' ∧ x ∉ active_sessions s))
        as [[Hin Hnin]|Hno].
      * right. rewrite (H3 x Hin Hnin) in Hx. congruence.
      * left. rewrite <- H4; [done|].
        destruct (decide (x ∈ active_sessions s)); [by left|].
        destruct (decide (x ∈ active_sessions s')); [|by right].
        destruct Hno. by split.
    + intros Hup h Hh. rewrite (H5 Hup).
      destruct (decide (h ∈ active_sessions s)); [set_solver|].
      apply elem_of_union. right. apply elem_of_list_to_set, elem_of_sorted.
      set_solver.
Qed.

(** The roster is chosen and installed; then the sessions are started. *)
Lemma startup_unfold (c : catalog) (st : state) :
  ∃ s1, cleanup_stale_sockets env user template st = (Ok tt, s1) ∧
    match chosen_roster coco c st with
    | None => startup c st = (Ok tt, s1)
    | Some contents =>
        ∃ s3,
          ofields <$> node_cache s3 = contents ∧
          NoDup (oid <$> node_cache s3) ∧
          active_sessions s3 = active_sessions s1 ∧
          session_health s3 = session_health s1 ∧
          calls s3 = calls s1 ∧
          cache_file s3 = saved_file coco c st ∧
          startup c st
          = match rmap node_hostname (node_cache s3) with
            | Raise e => (Raise e, s3)
            | Ok hs => parallel (list_to_set hs) s3
            end
    end.
Proof.
  destruct (cleanup_stale_sockets_runs st) as (s1 & Hc & _ & Hh1 & Hn1 & Hf1 & _).
  exists s1. split; [done|].
  unfold chosen_roster, cached_roster, saved_file.
  assert (Hrun : startup c st
          = (let! cached_nodes := load_node_cache in
             let! api_nodes :=
               match api_roster coco c with
               | Ok contents =>
                   let! api_nodes := new_objects contents in
                   let! _ := save_node_cache (disk_ok c) api_nodes in
                   Mret (Some api_nodes)
               | Raise _ => Mret None
               end in
             match match api_nodes with Some _ => api_nodes | None => cached_nodes end with
             | None => Mret tt
             | Some nodes =>
                 let! _ := Mmodify (set_node_cache nodes) in
                 match rmap node_hostname nodes with
                 | Raise e => Mraise e
                 | Ok hs => parallel (list_to_set hs)
                 end
             end) s1).
  { unfold startup_restore_sessions. unfold Mbind at 1. by rewrite Hc. }
  rewrite Hrun. clear Hrun.
  destruct (api_roster coco c) as [contents|e] eqn:Hapi.
  - (* the catalog answers *)
    exists (let s2 := snd (load_node_cache s1) in
            let api_nodes :=
              imap (fun i d => NodeObj (next_oid s2 + i) d) contents in
            set_node_cache api_nodes
              (snd (save_node_cache (disk_ok c) api_nodes
                      (set_next_oid (next_oid s2 + length contents) s2)))).
    unfold load_node_cache, Mbind, Mget, new_objects, save_node_cache, Mmodify,
      Mret, Mraise.
    rewrite Hf1.
    destruct (cache_file st) as [text|];
      [destruct (json_loads text) as [cached|e']|];
      destruct (disk_ok c);
      cbn [snd fst node_cache set_node_cache set_next_oid set_cache_file
           active_sessions session_health calls cache_file next_oid];
      rewrite ?fmap_ofields_new;
      (split; [reflexivity|]); (split; [apply new_objects_NoDup|]);
      (split; [reflexivity|]); (split; [reflexivity|]); (split; [reflexivity|]);
      (split; [first [reflexivity | exact Hf1]|]);
      destruct (rmap node_hostname _); reflexivity.
  - (* the catalog fails *)
    unfold load_node_cache, Mbind, Mget, new_objects, Mmodify, Mret, Mraise.
    rewrite Hf1.
    destruct (cache_file st) as [text|] eqn:Hfile; [|done].
    destruct (json_loads text) as [cached|e']; [|done].
    exists (set_node_cache (imap (fun i d => NodeObj (next_oid s1 + i) d) cached)
              (set_next_oid (next_oid s1 + length cached) s1));
      cbn [snd fst node_cache set_node_cache set_next_oid set_cache_file
           active_sessions session_health calls cache_file next_oid];
      rewrite ?fmap_ofields_new;
      (split; [reflexivity|]); (split; [apply new_objects_NoDup|]);
      (split; [reflexivity|]); (split; [reflexivity|]); (split; [reflexivity|]);
      (split; [exact Hf1|]);
      destruct (rmap node_hostname _); reflexivity.
Qed.

Lemma rmap_node_hostname (nodes : list node_obj) :
  Forall (fun d => is_Some (record_hostname d)) (ofields <$> nodes) →
  ∃ hs, rmap node_hostname nodes = Ok hs ∧
        (list_to_set hs : gset string) = hostnames_of (ofields <$> nodes).
Proof.
  induction nodes as [|n nodes IH]; intros Hall; [by exists []|].
  rewrite fmap_cons in Hall. apply Forall_cons in Hall as [[h Hn] Hall].
  destruct (IH Hall) as (hs & Hhs & Hset).
  exists (h :: hs). split.
  - cbn [rmap]. unfold node_hostname at 1, getitem.
    unfold record_hostname in Hn.
    destruct (ofields n !! "hostname") as [[| | |h']|]; try done.
    injection Hn as ->. cbn [rbind]. by rewrite Hhs.
  - unfold hostnames_of in *. rewrite fmap_cons. cbn [omap list_omap].
    fold (omap record_hostname (ofields <$> nodes)). rewrite Hn.
    cbn [list_to_set]. by rewrite Hset.
Qed.

(** X15: the roster after startup is the normalised catalog if the
    catalog can be fetched, otherwise the roster decoded from the cache
    file, otherwise the roster as it was; the cache file is rewritten only
    from a fetched catalog.  Startup only adds sessions, and the only
    labels it writes are healthy ones.  Without a roster it runs nothing
    but the liveness checks of the socket scan; with a roster whose
    hostnames are strings it does not raise, and if every subprocess exits
    with zero every host of the roster has a session afterwards. *)
Theorem X15_startup_roster_choice (c : catalog) (st : state) :
  ∃ r st',
    startup c st = (r, st') ∧
    ofields <$> node_cache st'
      = default (ofields <$> node_cache st) (chosen_roster coco c st) ∧
    cache_file st' = saved_file coco c st ∧
    active_sessions st ⊆ active_sessions st' ∧
    (∀ x v, session_health st' !! x = Some v →
            session_health st !! x = Some v ∨ v = "healthy") ∧
    (chosen_roster coco c st = None →
     r = Ok tt ∧
     ∀ cmd snap, (cmd, snap) ∈ calls st' →
                 (cmd, snap) ∈ calls st ∨ ∃ p d, cmd = SshCheck p d) ∧
    (∀ contents, chosen_roster coco c st = Some contents →
       Forall (fun d => is_Some (record_hostname d)) contents →
       r = Ok tt ∧
       (always_succeeds env →
        ∀ h, h ∈ hostnames_of contents → h ∈ active_sessions st')).
Proof.
  destruct (cleanup_stale_sockets_runs st)
    as (s1' & Hc' & Ha1 & Hh1 & Hn1 & Hf1 & Hcalls).
  destruct (startup_unfold c st) as (s1 & Hc & Hcase).
  rewrite Hc in Hc'. injection Hc' as <-.
  destruct (chosen_roster coco c st) as [contents|] eqn:Hch.
  - destruct Hcase as (s3 & Hf & _ & Ha3 & Hh3 & _ & Hfile & ->).
    destruct (rmap node_hostname (node_cache s3)) as [hs|e] eqn:Hhs.
    + destruct (parallel_runs (list_to_set hs) s3)
        as (s' & Hrun & Hst & Hsub & Hlab & _ & Hup).
      exists (Ok tt), s'. split; [done|].
      injection Hst as Hn' Hf' _ _ _.
      split; [by rewrite Hn'|]. split; [by rewrite Hf'|].
      split; [set_solver|]. split; [|split; [done|]].
      * intros x v Hx. rewrite <- Hh1, <- Hh3. by apply Hlab.
      * intros ? [= <-] Hall. split; [done|]. intros Hall' h Hh.
        apply Hup; [done|].
        rewrite <- Hf in Hall, Hh.
        destruct (rmap_node_hostname _ Hall) as (hs' & Hhs' & Hset).
        rewrite Hhs in Hhs'. injection Hhs' as <-. by rewrite Hset.
    + exists (Raise e), s3. split; [done|]. split; [done|]. split; [done|].
      split; [set_solver|]. split; [|split; [done|]].
      * intros x v Hx. left. by rewrite <- Hh1, <- Hh3.
      * intros ? [= <-] Hall. rewrite <- Hf in Hall.
        destruct (rmap_node_hostname _ Hall) as (hs' & Hhs' & _). congruence.
  - rewrite Hcase. exists (Ok tt), s1. split; [done|].
    split; [simpl; by rewrite Hn1|].
    split.
    { rewrite Hf1. unfold saved_file. unfold chosen_roster in Hch.
      by destruct (api_roster coco c). }
    split; [done|]. split; [intros x v Hx; left; by rewrite <- Hh1|].
    split; [done|]. by intros.
Qed.

(** X16: a restart while the catalog is down.  When the cache file holds
    the roster that an earlier run saved and the catalog cannot be
    fetched, startup does not raise, restores that roster and leaves the
    cache file alone; if every subprocess exits with zero, every host of
    the restored roster has a session, and in a fresh process without
    left-over sockets every such host is labelled healthy. *)
Theorem X16_offline_restart_restores (c : catalog) (st : state)
    (nodes : list node_obj) (e : exn) :
  cache_file st = Some (json_dumps (ofields <$> nodes)) →
  api_roster coco c = Raise e →
  Forall (fun d => is_Some (record_hostname d)) (ofields <$> nodes) →
  ∃ st',
    startup c st = (Ok tt, st') ∧
    ofields <$> node_cache st' = ofields <$> nodes ∧
    cache_file st' = cache_file st ∧
    (always_succeeds env →
     ∀ h, h ∈ hostnames_of (ofields <$> nodes) →
       h ∈ active_sessions st' ∧
       (active_sessions st = ∅ → control_dir st = None →
        session_health st' !! h = Some "healthy")).
Proof.
  intros Hfile Hapi Hall.
  destruct (startup_unfold c st) as (s1 & Hc & Hcase).
  assert (Hch : chosen_roster coco c st = Some (ofields <$> nodes)).
  { unfold chosen_roster, cached_roster.
    by rewrite Hapi, Hfile, json_loads_dumps. }
  rewrite Hch in Hcase.
  destruct Hcase as (s3 & Hf & _ & Ha3 & Hh3 & _ & Hsaved & ->).
  rewrite <- Hf in Hall.
  destruct (rmap_node_hostname _ Hall) as (hs & -> & Hset).
  destruct (parallel_runs (list_to_set hs) s3)
    as (s' & Hrun & Hst & Hsub & _ & Hlab & Hup).
  exists s'. split; [done|]. injection Hst as Hn' Hf' _ _ _.
  split; [by rewrite Hn'|].
  split. { rewrite Hf', Hsaved. unfold saved_file. by rewrite Hapi. }
  intros Hall' h Hh. rewrite <- Hf, <- Hset in Hh.
  split; [by apply Hup|].
  intros Hempty Hdir. apply Hlab; [by apply Hup|].
  rewrite Ha3. rewrite cleanup_stale_sockets_unfold, Hdir in Hc.
  injection Hc as <-. rewrite Hempty. set_solver.
Qed.
End StartupRoster.

Lemma X16_offline_restart_restores_witness :
  cache_file warm_state = Some (json_dumps (ofields <$> sample_roster)) ∧
  api_roster sample_coco catalog_down = Raise OSError ∧
  Forall (fun d => is_Some (record_hostname d)) (ofields <$> sample_roster) ∧
  ∃ st',
    startup_restore_sessions all_up "rise" default_template "/root" sample_coco
      catalog_down warm_state = (Ok tt, st') ∧
    ofields <$> node_cache st' = ofields <$> sample_roster.
Proof.
  assert (Hall : Forall (fun d => is_Some (record_hostname d))
                   (ofields <$> sample_roster)).
  { repeat apply Forall_cons_2; [..|apply Forall_nil_2]; by eexists. }
  split; [reflexivity|]. split; [reflexivity|]. split; [exact Hall|].
  destruct (X16_offline_restart_restores all_up "rise" default_template "/root"
              sample_coco catalog_down warm_state sample_roster OSError
              eq_refl eq_refl Hall) as (st' & Hrun & Hf & _).
  exists st'. split; [exact Hrun|exact Hf].
Defined.

(** ** Queries that need no sampling *)

Lemma rfilter_filter {A} (p : A → result bool) (l : list A) :
  Forall (fun x => ∃ b, p x = Ok b) l →
  rfilter p l = Ok (filter (fun x => p x = Ok true) l).
Proof.
  induction l as [|x l IH]; intros Hall; [done|].
  apply Forall_cons in Hall as [[b Hb] Hall]. simpl. rewrite Hb, (IH Hall).
  simpl. destruct b.
  - by rewrite filter_cons_True.
  - rewrite filter_cons_False; [done|]. by rewrite Hb.
Qed.

Lemma passes_filter_total (fv : field * gset string) (n : node_obj) :
  fields_readable n → ∃ b, passes_filter fv n = Ok b.
Proof.
  intros Hr. destruct (Hr (fst fv)) as [s Hs]. unfold passes_filter.
  rewrite Hs. simpl. by eexists.
Qed.

Lemma apply_filters_filter (filters : filters_t) (l : list node_obj) :
  Forall fields_readable l →
  apply_filters filters l
  = Ok (filter (fun n => Forall (fun fv => passes_filter fv n = Ok true) filters) l).
Proof.
  revert l. induction filters as [|fv filters IH]; intros l Hl.
  - simpl. f_equal. symmetry. apply filter_all.
    eapply Forall_impl; [exact Hl|]. intros; constructor.
  - simpl. rewrite rfilter_filter.
    2:{ eapply Forall_impl; [exact Hl|]. intros n Hn. by apply passes_filter_total. }
    simpl. rewrite IH.
    2:{ eapply sublist_Forall; [apply sublist_filter|done]. }
    f_equal. rewrite list_filter_filter. apply list_filter_iff.
    intros n. rewrite Forall_cons. tauto.
Qed.

Lemma fetch_healthy_nodes_all (cache : list node_obj)
    (health : gmap string string) (limit : option Z) (filters : filters_t)
    (g : rng) :
  Forall wf_node cache →
  (∀ L, limit = Some L → len (filter (matching health filters) cache) ≤ L) →
  fetch_healthy_nodes cache health limit filters g
  = Ok (filter (matching health filters) cache, g).
Proof.
  intros Hwf Hlim. unfold fetch_healthy_nodes, Rbind, Rlift at 1.
  rewrite rfilter_filter.
  2:{ eapply Forall_impl; [exact Hwf|]. intros n [[v Hv] _].
      unfold is_healthy, getitem. rewrite Hv. simpl. by eexists. }
  set (healthy := filter (fun n => is_healthy health n = Ok true) cache).
  assert (Hread : Forall fields_readable healthy).
  { subst healthy. apply Forall_forall. intros n [Hh Hn]%list_elem_of_filter.
    rewrite Forall_forall in Hwf. by eapply wf_healthy_readable; [apply Hwf|]. }
  assert (Hfilt : match filters with [] => Ok healthy | _ => apply_filters filters healthy end
                  = Ok (filter (matching health filters) cache)).
  { transitivity (apply_filters filters healthy); [by destruct filters|].
    rewrite (apply_filters_filter filters healthy Hread). f_equal.
    subst healthy. rewrite list_filter_filter. apply list_filter_iff.
    intros n. unfold matching. tauto. }
  rewrite Hfilt. cbn [Rlift].
  destruct limit as [L|]; [|done].
  specialize (Hlim L eq_refl).
  destruct (L <? len (filter (matching health filters) cache)) eqn:Hlt; [|done].
  apply Z.ltb_lt in Hlt. lia.
Qed.

(** X19: without a limit, or with a limit that is not below the number of
    matching nodes, [fetch_healthy_nodes] returns exactly the nodes of the
    roster that are labelled healthy and pass every filter, each once and
    in the order of the roster, and draws no random number. *)
Theorem X19_fetch_without_sampling (cache : list node_obj)
    (health : gmap string string) (limit : option Z) (filters : filters_t)
    (g : rng) :
  Forall wf_node cache →
  (∀ L, limit = Some L → len (filter (matching health filters) cache) ≤ L) →
  fetch_healthy_nodes cache health limit filters g
  = Ok (filter (matching health filters) cache, g).
Proof. apply fetch_healthy_nodes_all. Qed.

Lemma X19_fetch_without_sampling_witness :
  Forall wf_node sample_roster ∧
  fetch_healthy_nodes sample_roster sample_health None sample_filters [1; 2]%nat
  = Ok (filter (matching sample_health sample_filters) sample_roster, [1; 2]%nat).
Proof.
  assert (Hwf : Forall wf_node sample_roster).
  { repeat apply Forall_cons_2; [..|apply Forall_nil_2]; apply sample_node_wf. }
  split; [exact Hwf|].
  apply (X19_fetch_without_sampling sample_roster sample_health None
           sample_filters [1; 2]%nat Hwf).
  intros L HL. discriminate HL.
Defined.

(** ** Labels, and the routes that report them *)

Lemma count_label_zero (label : string) (m : gmap string string) :
  count_label label m = 0%nat ↔ ∀ h, m !! h ≠ Some label.
Proof.
  unfold count_label. rewrite length_zero_iff_nil. split.
  - intros Hnil h Hh. apply elem_of_map_to_list in Hh.
    assert (label ∈ filter (fun v => v = label) (map_to_list m).*2) as Hin.
    { apply list_elem_of_filter. split; [done|].
      apply list_elem_of_fmap. by exists (h, label). }
    rewrite Hnil in Hin. by apply elem_of_nil in Hin.
  - intros Hno. apply filter_none. apply Forall_forall.
    intros v Hv ->. apply list_elem_of_fmap in Hv as [[h v'] [Heq Hin]].
    simpl in Heq. subst v'. apply elem_of_map_to_list in Hin. by apply (Hno h).
Qed.

Lemma count_labels_known (l : list string) :
  Forall known_label l →
  length (filter (fun v => v = "error") l) = 0%nat ∧
  (length (filter (fun v => v = "healthy") l)
   + length (filter (fun v => v = "restarted") l))%nat = length l.
Proof.
  induction 1 as [|v l [-> | ->] _ [IH1 IH2]]; [done| |].
  - rewrite filter_cons_False by done. rewrite filter_cons_True by done.
    rewrite (filter_cons_False _ "healthy") by done. simpl. split; [done|lia].
  - rewrite filter_cons_False by done. rewrite filter_cons_False by done.
    rewrite filter_cons_True by done. simpl. split; [done|lia].
Qed.

Section LabelFacts.
Variable env : nat → proc_result.
Variables user template home : string.
Variable coco : string → string → string.

Lemma startup_labels (c : catalog) (st : state) (x v : string) :
  session_health (snd (startup_restore_sessions env user template home coco c st))
    !! x = Some v →
  session_health st !! x = Some v ∨ known_label v.
Proof.
  destruct (cleanup_stale_sockets_runs env user template st)
    as (s1' & Hc' & _ & Hh1 & _).
  destruct (startup_unfold env user template home coco c st) as (s1 & Hc & Hcase).
  rewrite Hc in Hc'. injection Hc' as <-.
  destruct (chosen_roster coco c st) as [contents|].
  - destruct Hcase as (s3 & _ & _ & _ & Hh3 & _ & _ & ->).
    destruct (rmap node_hostname (node_cache s3)) as [hs|e].
    + destruct (parallel_runs env user template home (list_to_set hs) s3)
        as (s' & -> & _ & _ & Hlab & _).
      simpl. intros [Hx| ->]%Hlab; [left; congruence|right; by left].
    + simpl. intros Hx. left. congruence.
  - rewrite Hcase. simpl. intros Hx. left. congruence.
Qed.

Lemma refresh_labels (c : catalog) (st : state) (x v : string) :
  session_health (snd (refresh_iteration env user template home coco c st))
    !! x = Some v →
  session_health st !! x = Some v ∨ known_label v.
Proof.
  unfold refresh_iteration. unfold Mtry at 1.
  destruct (let? raw_nodes := nodes_response c in
            filter_api_nodes coco raw_nodes (fetch_participants c))
    as [contents|e]; [|by left].
  unfold Mbind at 1. unfold new_objects. unfold Mbind at 1.
  set (filtered := imap _ contents). set (s1 := set_next_oid _ st).
  assert (∃ s2, save_node_cache (disk_ok c) filtered s1 = (Ok tt, s2) ∧
                session_health s2 = session_health st) as (s2 & -> & Hh2).
  { unfold save_node_cache. destruct (disk_ok c); by eexists. }
  unfold Mbind at 1. unfold Mmodify at 1.
  set (s3 := set_node_cache filtered s2).
  destruct (rmap node_hostname filtered) as [hs|e]; [|simpl; left; congruence].
  unfold Mbind at 1. rewrite Mfor_reconcile.
  destruct (reconciled_spec env user template home (sorted (list_to_set hs)) s3)
    as (_ & _ & R3 & _).
  set (s4 := reconciled _ _ _ _ _ s3) in *.
  unfold Mbind at 1. unfold Mget. unfold Mbind at 1. unfold Mmodify at 1.
  set (s5 := set_health _ s4).
  destruct (Mfor_stop_any env user template home
              (elements (dom (session_health s4) ∖ list_to_set hs)) s5)
    as (s6 & -> & _ & Hh6 & _).
  cbn [snd]. rewrite Hh6. subst s5. cbn [session_health set_health].
  rewrite lookup_prune. destruct (decide _); [done|].
  intros [Hx|[_ Hk]]%R3; [left|by right].
  subst s3. cbn [session_health set_node_cache] in Hx. congruence.
Qed.

(** X17: the labels stay within healthy and restarted.  If every label
    is one of the two before [run_cache_loop] runs (as in a fresh
    process, which has none), the same holds after startup and any number
    of refreshes, whatever the catalog and the subprocesses answer; the
    summary of [/sessions] then counts no error, and its healthy and
    restarted counts add up to its total. *)
Theorem X17_labels_stay_known (startup : catalog) (iterations : list catalog)
    (st : state) :
  labels_known st →
  let st' := snd (run_cache_loop env user template home coco startup iterations st) in
  labels_known st' ∧
  sum_error (sessions st').1 = 0%nat ∧
  (sum_healthy (sessions st').1 + sum_restarted (sessions st').1)%nat
  = sum_total (sessions st').1.
Proof.
  intros Hk st'.
  assert (Hk' : labels_known st').
  { subst st'. unfold run_cache_loop. unfold Mbind at 1. unfold Mget.
    unfold Mbind at 1.
    assert (∃ r s1, (if negb (_startup_done st)
                     then let! _ := startup_restore_sessions env user template
                                      home coco startup in
                          Mmodify (set_startup_done true)
                     else Mret tt) st = (r, s1) ∧ labels_known s1)
      as (r & s1 & -> & Hk1).
    { destruct (negb (_startup_done st)); [|by eexists _, _].
      unfold Mbind.
      pose proof (startup_labels startup st) as Hl.
      destruct (startup_restore_sessions env user template home coco startup st)
        as [[[]|e] s1]; eexists _, _; (split; [done|]); intros h v Hv;
        simpl in *; destruct (Hl h v Hv) as [?|?]; eauto. }
    destruct r as [[]|e]; [|done].
    apply (Mfor_inv labels_known); [|done].
    intros c s _ Hs h v Hv. destruct (refresh_labels c s h v Hv); eauto. }
  split; [done|].
  unfold sessions, count_label. cbn [fst sum_error sum_healthy sum_restarted sum_total].
  rewrite <- length_map_to_list, <- (length_fmap snd).
  apply count_labels_known. apply Forall_forall.
  intros v Hv. apply list_elem_of_fmap in Hv as [[h v'] [Heq Hin]].
  simpl in Heq. subst v'. apply elem_of_map_to_list in Hin. by apply (Hk' h).
Qed.
End LabelFacts.

Lemma X17_labels_stay_known_witness :
  labels_known initial_state ∧
  labels_known
    (snd (run_cache_loop all_up "rise" default_template "/root" sample_coco
            sample_catalog [sample_catalog; broken_catalog] initial_state)).
Proof.
  assert (H0 : labels_known initial_state) by (intros h v Hv; done).
  split; [exact H0|].
  exact (proj1 (X17_labels_stay_known all_up "rise" default_template "/root"
                  sample_coco sample_catalog [sample_catalog; broken_catalog]
                  initial_state H0)).
Defined.

(** ** [/health] against the healthy-node query *)

Lemma count_label_pos (label : string) (m : gmap string string) :
  (0 < count_label label m)%nat → ∃ h, m !! h = Some label.
Proof.
  unfold count_label. intros Hpos.
  destruct (filter (fun v => v = label) (map_to_list m).*2) as [|v l] eqn:Hf;
    [simpl in Hpos; lia|].
  assert (Hin : v ∈ filter (fun v => v = label) (map_to_list m).*2)
    by (rewrite Hf; by left).
  apply list_elem_of_filter in Hin as [-> Hin].
  apply list_elem_of_fmap in Hin as [[h v'] [Heq Hin]]. simpl in Heq. subst v'.
  exists h. by apply elem_of_map_to_list.
Qed.

Lemma elem_of_hostnames_of (nodes : list node_obj) (h : string) :
  h ∈ hostnames_of (ofields <$> nodes) ↔
  ∃ n, n ∈ nodes ∧ ofields n !! "hostname" = Some (PStr h).
Proof.
  unfold hostnames_of. rewrite elem_of_list_to_set, list_elem_of_omap. split.
  - intros (d & [n [-> Hn]]%list_elem_of_fmap & Hd). exists n. split; [done|].
    unfold record_hostname in Hd.
    destruct (ofields n !! "hostname") as [[| | |h']|]; try done. congruence.
  - intros (n & Hn & Hh). exists (ofields n).
    split; [apply list_elem_of_fmap; by exists n|].
    unfold record_hostname. by rewrite Hh.
Qed.

Lemma fetch_no_filters (cache : list node_obj) (health : gmap string string)
    (limit : option Z) (g : rng) :
  Forall wf_node cache →
  fetch_healthy_nodes cache health limit [] g
  = let healthy := filter (fun n => is_healthy health n = Ok true) cache in
    match limit with
    | Some L => if L <? len healthy then random_sample healthy L g
                else Ok (healthy, g)
    | None => Ok (healthy, g)
    end.
Proof.
  intros Hwf. unfold fetch_healthy_nodes, Rbind, Rlift.
  rewrite rfilter_filter; [cbn; destruct limit as [L|]; [|done]; by destruct (L <? _)|].
  eapply Forall_impl; [exact Hwf|]. intros n [[v Hv] _].
  unfold is_healthy, getitem. rewrite Hv. simpl. by eexists.
Qed.

(** X18: [/health] and the healthy-node query agree.  Over a roster of
    well-formed records: when [/health] answers 503, the query returns no
    node for any filters and any limit that is absent or not negative (so
    [/probe] cannot answer 200); when [/health] answers 200 and every
    host labelled healthy is a host of the roster (as it is after a
    refresh), the query without filters returns at least one node for any
    limit that is absent or positive. *)
Theorem X18_health_agrees_with_query (st : state) :
  Forall wf_node (node_cache st) →
  ((health st).2 = 503 →
   ∀ limit filters g, (∀ L, limit = Some L → 0 ≤ L) →
     fetch_healthy_nodes (node_cache st) (session_health st) limit filters g
     = Ok ([], g)) ∧
  ((health st).2 = 200 →
   (∀ h, session_health st !! h = Some "healthy" →
         h ∈ hostnames_of (ofields <$> node_cache st)) →
   ∀ limit g, (∀ L, limit = Some L → 0 < L) →
     ∃ r g', r ≠ [] ∧
       fetch_healthy_nodes (node_cache st) (session_health st) limit [] g
       = Ok (r, g')).
Proof.
  intros Hwf. unfold health. split.
  - intros Hst limit filters g Hlim.
    assert (Hnone : filter (matching (session_health st) filters) (node_cache st) = []).
    { destruct (0 <? length (node_cache st))%nat eqn:Hc.
      - destruct (0 <? count_label "healthy" (session_health st))%nat eqn:Hh;
          [done|].
        apply Nat.ltb_ge in Hh.
        assert (Hz : count_label "healthy" (session_health st) = 0%nat) by lia.
        rewrite count_label_zero in Hz.
        apply filter_none, Forall_forall. intros n _ [Hn _].
        destruct (healthy_hostname _ _ Hn) as (h & _ & Hh'). by apply (Hz h).
      - apply Nat.ltb_ge in Hc. by destruct (node_cache st); [|simpl in Hc; lia]. }
    rewrite <- Hnone. apply fetch_healthy_nodes_all; [done|].
    intros L HL. rewrite Hnone. by apply Hlim.
  - intros Hst Hsub limit g Hlim.
    destruct (0 <? length (node_cache st))%nat; [|done].
    destruct (0 <? count_label "healthy" (session_health st))%nat eqn:Hh; [|done].
    apply Nat.ltb_lt, count_label_pos in Hh as [h Hh].
    pose proof (Hsub h Hh) as Hn.
    apply elem_of_hostnames_of in Hn as (n & Hn & Hhost).
    rewrite fetch_no_filters by done. cbv zeta.
    set (healthy := filter _ (node_cache st)).
    assert (Hm : n ∈ healthy).
    { apply list_elem_of_filter. split; [|done].
      unfold is_healthy, getitem. rewrite Hhost. simpl.
      by rewrite bool_decide_eq_true_2. }
    assert (Hne : healthy ≠ []).
    { intros Hnil. rewrite Hnil in Hm. by apply elem_of_nil in Hm. }
    destruct limit as [L|]; [|by exists healthy, g].
    specialize (Hlim L eq_refl).
    destruct (L <? len healthy) eqn:Hlt; [|by exists healthy, g].
    apply Z.ltb_lt in Hlt.
    destruct (random_sample_total healthy L g ltac:(lia)) as (r & g' & Hr).
    exists r, g'. split; [|done].
    destruct (random_sample_ok _ _ _ _ _ Hr) as (_ & _ & Hlen).
    intros ->. unfold len in Hlen. simpl in Hlen. lia.
Qed.

Lemma X18_health_agrees_with_query_witness :
  Forall wf_node (node_cache sample_state) ∧
  (health sample_state).2 = 200 ∧
  ∃ r g', r ≠ [] ∧
    fetch_healthy_nodes (node_cache sample_state) (session_health sample_state)
      (Some 2) [] [5; 3]%nat = Ok (r, g').
Proof.
  assert (Hwf : Forall wf_node (node_cache sample_state)).
  { repeat apply Forall_cons_2; [..|apply Forall_nil_2]; apply sample_node_wf. }
  split; [exact Hwf|]. split; [reflexivity|].
  apply (proj2 (X18_health_agrees_with_query sample_state Hwf) eq_refl).
  - intros h Hh.
    cbn [session_health sample_state] in Hh. unfold sample_health in Hh.
    repeat (apply lookup_insert_Some in Hh as [[<- _]|[_ Hh]];
            [apply (bool_decide_unpack _); vm_compute; exact I|]).
    by rewrite lookup_empty in Hh.
  - intros L [= <-]. lia.
Defined.

(** ** The balance of [_balanced_sample] *)

Lemma groups_add_get groups key node (k : list string) :
  pd_get (groups_add groups key node) k
  = if decide (key = k) then Some (default [] (pd_get groups key) ++ [node])%list
    else pd_get groups k.
Proof.
  unfold groups_add. destruct (decide (key = k)) as [<-|Hne].
  - destruct (pd_get groups key); by rewrite pd_get_set_eq.
  - destruct (pd_get groups key); by rewrite pd_get_set_ne.
Qed.

Lemma build_groups_get bf nodes groups groups' (k : list string) :
  build_groups bf nodes groups = Ok groups' →
  default [] (pd_get groups' k)
  = (default [] (pd_get groups k) ++ filter (same_group bf k) nodes)%list ∧
  (is_Some (pd_get groups' k) ↔
   is_Some (pd_get groups k) ∨ ∃ n, n ∈ nodes ∧ group_key bf n = Ok k).
Proof.
  revert groups. induction nodes as [|n nodes IH]; intros groups H; simpl in H.
  - injection H as <-. rewrite filter_nil, app_nil_r. split; [done|].
    split; [by left|]. intros [?|(n & Hn & _)]; [done|]. by apply elem_of_nil in Hn.
  - destruct (group_key bf n) as [key|] eqn:Hkey; [|discriminate]. simpl in H.
    destruct (IH _ H) as [Hget Hsome]. rewrite Hget, Hsome, groups_add_get.
    destruct (decide (key = k)) as [->|Hne].
    + rewrite filter_cons_True by done.
      change (default [] (Some ?x)) with x.
      split; [by rewrite <- app_assoc|]. split.
      * intros _. right. exists n. split; [by left|done].
      * intros _. left. by eexists.
    + rewrite filter_cons_False by (unfold same_group; congruence).
      split; [done|]. split.
      * intros [?|(m & Hm & Hk)]; [by left|]. right. exists m. split; [by right|done].
      * intros [?|(m & [->|Hm]%elem_of_cons & Hk)]; [by left|congruence|].
        right. by exists m.
Qed.

Lemma rmap_elem {A B} (f : A → result B) (l : list A) (ys : list B) (y : B) :
  rmap f l = Ok ys → (y ∈ ys ↔ ∃ x, x ∈ l ∧ f x = Ok y).
Proof.
  revert ys. induction l as [|x l IH]; intros ys H; simpl in H.
  - injection H as <-. split; [by intros ?%elem_of_nil|].
    by intros (x & ?%elem_of_nil & _).
  - destruct (f x) as [y0|] eqn:Hx; [|discriminate]. simpl in H.
    destruct (rmap f l) as [ys0|]; [|discriminate]. simpl in H.
    injection H as <-. rewrite elem_of_cons, (IH ys0 eq_refl). split.
    + intros [->|(x' & Hx' & Hy)]; [exists x; split; [by left|done]|].
      exists x'. split; [by right|done].
    + intros (x' & [->|Hx']%elem_of_cons & Hy); [left; congruence|].
      right. by exists x'.
Qed.

Lemma make_quotas_range base r i keys quotas (k : list string) :
  (∀ q, pd_get quotas k = Some q → base ≤ q ≤ base + 1) →
  k ∈ keys ∨ is_Some (pd_get quotas k) →
  ∃ q, pd_get (make_quotas base r i keys quotas) k = Some q ∧ base ≤ q ≤ base + 1.
Proof.
  revert i quotas. induction keys as [|key keys IH]; intros i quotas Hq Hk; simpl.
  - destruct Hk as [Hk|[q Hk]]; [by apply elem_of_nil in Hk|].
    exists q. split; [done|]. by apply Hq.
  - apply IH.
    + intros q. destruct (decide (key = k)) as [->|Hne].
      * rewrite pd_get_set_eq. intros [= <-]. destruct (i <? r); lia.
      * rewrite pd_get_set_ne by done. apply Hq.
    + destruct (decide (key = k)) as [->|Hne].
      * right. rewrite pd_get_set_eq. by eexists.
      * rewrite pd_get_set_ne by done.
        destruct Hk as [[?|?]%elem_of_cons|?]; [congruence|by left|by right].
Qed.

(** The samples that the loop over the groups draws, one per group. *)
Lemma take_loop_samples groups quotas keys res sf g res' sf' g' :
  take_loop groups quotas keys res sf g = Ok ((res', sf'), g') →
  ∃ ss,
    res' = (res ++ concat ss)%list ∧
    Forall2 (fun k s => ∃ group quota,
               pd_get groups k = Some group ∧ pd_get quotas k = Some quota ∧
               s ⊆+ group ∧ len s = Z.min quota (len group)) keys ss ∧
    ((∀ k group quota, k ∈ keys → pd_get groups k = Some group →
        pd_get quotas k = Some quota → quota ≤ len group) → sf' = sf).
Proof.
  revert res sf g. induction keys as [|key keys IH]; intros res sf g H.
  - injection H as <- <- <-. exists []. simpl. rewrite app_nil_r.
    split; [done|]. split; [constructor|done].
  - cbn [take_loop] in H. unfold Rbind, Rlift, pd_getitem in H.
    destruct (pd_get groups key) as [group|] eqn:Hg; [|discriminate].
    destruct (pd_get quotas key) as [quota|] eqn:Hq; [|discriminate].
    destruct (random_sample group (Z.min quota (len group)) g)
      as [[s g1]|] eqn:Hs; [|discriminate].
    apply random_sample_ok in Hs as (Hk & Hsub & Hlen).
    destruct (IH _ _ _ H) as (ss & -> & HF & Hsf).
    exists (s :: ss). split; [simpl; by rewrite (assoc_L (++))|].
    split; [constructor; [by exists group, quota|done]|].
    intros Hall. rewrite Hsf.
    + specialize (Hall key group quota ltac:(by left) Hg Hq). lia.
    + intros k gr qu Hin. apply Hall. by right.
Qed.

Lemma filter_submseteq_all {A} (P : A → Prop) `{∀ x, Decision (P x)}
    (s group : list A) :
  s ⊆+ group → Forall P group → filter P s = s.
Proof.
  intros Hsub Hall. apply filter_all. apply Forall_forall. intros x Hx.
  rewrite Forall_forall in Hall. apply Hall. by eapply elem_of_submseteq.
Qed.

Lemma filter_submseteq_none {A} (P : A → Prop) `{∀ x, Decision (P x)}
    (s group : list A) :
  s ⊆+ group → Forall (fun x => ¬ P x) group → filter P s = [].
Proof.
  intros Hsub Hall. apply filter_none. apply Forall_forall. intros x Hx.
  rewrite Forall_forall in Hall. apply Hall. by eapply elem_of_submseteq.
Qed.

(** The nodes of one group among the samples of all groups. *)
Lemma samples_of_group bf nodes groups quotas keys ss (k : list string) :
  build_groups bf nodes [] = Ok groups →
  NoDup keys → k ∈ keys →
  Forall2 (fun k s => ∃ group quota,
             pd_get groups k = Some group ∧ pd_get quotas k = Some quota ∧
             s ⊆+ group ∧ len s = Z.min quota (len group)) keys ss →
  ∃ quota, pd_get quotas k = Some quota ∧
    len (filter (same_group bf k) (concat ss))
    = Z.min quota (len (filter (same_group bf k) nodes)).
Proof.
  intros Hb Hnd Hk HF. induction HF as [|k' s keys ss Hs HF IH].
  - by apply elem_of_nil in Hk.
  - apply NoDup_cons in Hnd as [Hk' Hnd].
    destruct Hs as (group & quota & Hg & Hq & Hsub & Hlen).
    destruct (build_groups_get bf nodes [] groups k' Hb) as [Hget _].
    rewrite Hg in Hget. simpl in Hget. subst group.
    simpl. rewrite filter_app. unfold len. rewrite length_app.
    destruct (decide (k' = k)) as [->|Hne].
    + exists quota. split; [done|].
      rewrite (filter_submseteq_all _ _ _ Hsub).
      2:{ apply Forall_forall. by intros x [? _]%list_elem_of_filter. }
      assert (Hrest : filter (same_group bf k) (concat ss) = []).
      { clear -HF Hk' Hb. induction HF as [|k2 s2 keys ss Hs2 HF IH]; [done|].
        apply not_elem_of_cons in Hk' as [Hne Hk'].
        destruct Hs2 as (group & quota & Hg & _ & Hsub & _).
        destruct (build_groups_get bf nodes [] groups k2 Hb) as [Hget _].
        rewrite Hg in Hget. simpl in Hget. subst group.
        simpl. rewrite filter_app, (IH Hk'), app_nil_r.
        eapply filter_submseteq_none; [exact Hsub|].
        apply Forall_forall. intros x [Hx _]%list_elem_of_filter.
        unfold same_group in *. congruence. }
      rewrite Hrest. simpl. unfold len in Hlen. lia.
    + apply elem_of_cons in Hk as [?|Hk]; [congruence|].
      destruct (IH Hnd Hk) as (q & Hq' & Hlen'). exists q. split; [done|].
      rewrite (filter_submseteq_none _ s _ Hsub).
      2:{ apply Forall_forall. intros x [Hx _]%list_elem_of_filter.
          unfold same_group in *. congruence. }
      simpl. unfold len in Hlen'. lia.
Qed.

Lemma balanced_sample_groups nodes limit filters g r g' keys (k : list string) :
  balance_fields_of filters ≠ [] →
  0 ≤ limit →
  rmap (group_key (balance_fields_of filters)) nodes = Ok keys →
  _balanced_sample nodes limit filters g = Ok (r, g') →
  k ∈ keys →
  let share := limit / len (remove_dups keys) in
  let count (l : list node_obj) :=
    len (filter (same_group (balance_fields_of filters) k) l) in
  ∃ quota, share ≤ quota ≤ share + 1 ∧
    Z.min quota (count nodes) ≤ count r ∧
    ((∀ k', k' ∈ keys →
        share + 1 ≤ len (filter (same_group (balance_fields_of filters) k') nodes)) →
     count r = quota).
Proof.
  intros Hbf Hlimit Hkeys Hrun Hk.
  unfold _balanced_sample in Hrun.
  destruct (balance_fields_of filters) as [|f fs] eqn:Hbfe; [done|].
  rewrite <- Hbfe in *. clear f fs Hbfe Hbf.
  set (bf := balance_fields_of filters) in *. intros share count.
  unfold Rbind, Rlift, Rret in Hrun.
  destruct (build_groups bf nodes []) as [groups|] eqn:Hgroups; [|discriminate].
  destruct (build_groups_spec _ _ _ _ Hgroups) as [Hnd _]; [constructor|].
  destruct (random_shuffle (pd_keys groups) g) as [[group_keys g1]|] eqn:Hsh;
    [|discriminate].
  apply random_shuffle_ok in Hsh.
  (* the groups are the distinct keys *)
  assert (Hin : ∀ k', k' ∈ group_keys ↔ k' ∈ keys).
  { intros k'. rewrite Hsh. rewrite (rmap_elem _ _ _ k' Hkeys).
    destruct (build_groups_get bf nodes [] groups k' Hgroups) as [_ Hsome].
    split.
    - intros Hk'.
      assert (Hs : is_Some (pd_get groups k')).
      { destruct (pd_get groups k') eqn:Hg; [by eexists|].
        by apply pd_get_None in Hg. }
      apply Hsome in Hs as [[? Hs]|Hs]; [done|done].
    - intros Hex. destruct Hsome as [_ Hs].
      destruct (Hs (or_intror Hex)) as [v Hv].
      destruct (decide (k' ∈ pd_keys groups)) as [?|Hno]; [done|].
      apply pd_get_None in Hno. congruence. }
  assert (Hlen : len group_keys = len (remove_dups keys)).
  { unfold len. f_equal. apply Permutation_length, NoDup_Permutation.
    - by rewrite Hsh.
    - apply NoDup_remove_dups.
    - intros k'. by rewrite Hin, elem_of_remove_dups. }
  unfold divmod in Hrun. destruct (len group_keys =? 0) eqn:Hz; [discriminate|].
  cbn [fst snd] in Hrun. rewrite Hlen in Hrun. fold share in Hrun.
  set (quotas := make_quotas share _ 0 group_keys []) in *.
  destruct (take_loop groups quotas group_keys [] 0 g1) as [[[res sf] g2]|] eqn:Hloop;
    [|discriminate].
  destruct (take_loop_samples _ _ _ _ _ _ _ _ _ Hloop) as (ss & -> & HF & Hsf).
  cbn [fst snd app] in Hrun.
  assert (Hgk : NoDup group_keys) by (by rewrite Hsh).
  destruct (samples_of_group bf nodes groups quotas group_keys ss k Hgroups Hgk
              ltac:(by apply Hin) HF) as (quota & Hquota & Hcount).
  assert (Hrange : share ≤ quota ≤ share + 1).
  { destruct (make_quotas_range share (limit mod len (remove_dups keys)) 0
                group_keys [] k) as (q & Hq & Hr).
    - by intros q.
    - left. by apply Hin.
    - subst quotas. rewrite Hq in Hquota. by injection Hquota as <-. }
  exists quota. split; [done|].
  assert (Hfull : (∀ k', k' ∈ keys →
             share + 1 ≤ len (filter (same_group bf k') nodes)) → sf = 0).
  { intros Hbig. apply Hsf. intros k' group q Hk' Hg Hq.
    destruct (build_groups_get bf nodes [] groups k' Hgroups) as [Hget _].
    rewrite Hg in Hget. simpl in Hget. subst group.
    destruct (make_quotas_range share (limit mod len (remove_dups keys)) 0
                group_keys [] k') as (q' & Hq' & Hr').
    - by intros ?.
    - by left.
    - subst quotas. rewrite Hq' in Hq. injection Hq as <-.
      specialize (Hbig k' ltac:(by apply Hin)). lia. }
  subst count. cbv beta in *.
  destruct (0 <? sf) eqn:Hpos.
  - apply Z.ltb_lt in Hpos.
    assert (Hge : len (filter (same_group bf k) (concat ss))
                  ≤ len (filter (same_group bf k) r)).
    { destruct (filter _ nodes) as [|n0 rem] eqn:Hrem.
      - injection Hrun as <- _. lia.
      - destruct (random_sample _ _ g2) as [[extra g3]|]; [|discriminate].
        injection Hrun as <- _.
        rewrite filter_app. unfold len. rewrite length_app. lia. }
    split; [lia|]. intros Hbig. specialize (Hfull Hbig). lia.
  - injection Hrun as <- _. split; [lia|]. intros Hbig.
    rewrite Hcount. specialize (Hbig k Hk). lia.
Qed.

(** X20: the balance of [_balanced_sample].  When some filter has more than
    one value, the nodes are grouped by their values of those fields, and
    [share] is the limit divided by the number of groups: every group
    contributes at least [share] nodes to the sample, or all of its nodes
    if it has fewer; and when every group has more than [share] nodes,
    every group contributes [share] or [share + 1] nodes. *)
Theorem X20_balanced_sample_fair (nodes : list node_obj) (limit : Z)
    (filters : filters_t) (g g' : rng) (r : list node_obj)
    (keys : list (list string)) :
  balance_fields_of filters ≠ [] →
  0 ≤ limit →
  rmap (group_key (balance_fields_of filters)) nodes = Ok keys →
  _balanced_sample nodes limit filters g = Ok (r, g') →
  let share := limit / len (remove_dups keys) in
  let count (k : list string) (l : list node_obj) :=
    len (filter (same_group (balance_fields_of filters) k) l) in
  (∀ k, k ∈ keys → Z.min share (count k nodes) ≤ count k r) ∧
  ((∀ k, k ∈ keys → share + 1 ≤ count k nodes) →
   ∀ k, k ∈ keys → share ≤ count k r ≤ share + 1).
Proof.
  intros Hbf Hlimit Hkeys Hrun share count. split.
  - intros k Hk.
    destruct (balanced_sample_groups nodes limit filters g r g' keys k
                Hbf Hlimit Hkeys Hrun Hk) as (quota & Hq & Hmin & _).
    subst count. cbv beta. fold share in Hq. lia.
  - intros Hbig k Hk.
    destruct (balanced_sample_groups nodes limit filters g r g' keys k
                Hbf Hlimit Hkeys Hrun Hk) as (quota & Hq & _ & Heq).
    subst count. cbv beta. fold share in Hq. rewrite (Heq Hbig). lia.
Qed.

Lemma X20_balanced_sample_fair_witness :
  balance_fields_of sample_filters ≠ [] ∧
  0 ≤ 3 ∧
  rmap (group_key (balance_fields_of sample_filters)) sample_roster
    = Ok [["europe"]; ["europe"]; ["asia"]; ["africa"]] ∧
  _balanced_sample sample_roster 3 sample_filters [0; 0; 0; 0; 0; 0]%nat
    = Ok ([sample_node 0 "a.example" "Europe"; sample_node 2 "c.example" "Asia";
           sample_node 3 "d.example" "Africa"], []) ∧
  ∀ k, k ∈ [["europe"]; ["europe"]; ["asia"]; ["africa"]] →
    Z.min (3 / len (remove_dups [["europe"]; ["europe"]; ["asia"]; ["africa"]]))
      (len (filter (same_group (balance_fields_of sample_filters) k) sample_roster))
    ≤ len (filter (same_group (balance_fields_of sample_filters) k)
             [sample_node 0 "a.example" "Europe"; sample_node 2 "c.example" "Asia";
              sample_node 3 "d.example" "Africa"]).
Proof.
  assert (H1 : balance_fields_of sample_filters ≠ []).
  { intros H. vm_compute in H. discriminate H. }
  assert (H2 : 0 ≤ 3) by lia.
  assert (H3 : rmap (group_key (balance_fields_of sample_filters)) sample_roster
               = Ok [["europe"]; ["europe"]; ["asia"]; ["africa"]]).
  { vm_compute. reflexivity. }
  assert (H4 : _balanced_sample sample_roster 3 sample_filters [0; 0; 0; 0; 0; 0]%nat
               = Ok ([sample_node 0 "a.example" "Europe";
                      sample_node 2 "c.example" "Asia";
                      sample_node 3 "d.example" "Africa"], [])).
  { vm_compute. reflexivity. }
  split; [exact H1|]. split; [exact H2|]. split; [exact H3|]. split; [exact H4|].
  exact (proj1 (X20_balanced_sample_fair sample_roster 3 sample_filters
                  [0; 0; 0; 0; 0; 0]%nat [] _ _ H1 H2 H3 H4)).
Defined.

(** ** Reconciliation of one host, and the health invariant *)

Section InvariantFacts.
Variable env : nat → proc_result.
Variables user template home : string.
Variable coco : string → string → string.

Local Abbreviation reconcile := (check_and_manage_ssh_session env user template home).

(** X21: the reconciliation of a host touches nothing but the session and
    the label of that host, and never the roster or the cache file.  It
    returns true exactly when it labels the host healthy and false exactly
    when it labels it restarted; it raises only when the subprocess of
    the health check cannot be run, and then the labels are as before.  If
    every subprocess runs to an exit code it does not raise. *)
Theorem X21_reconcile_one_host (h : string) (st : state) :
  ∃ r st',
    check_and_manage_ssh_session env user template home h st = (r, st') ∧
    only_touches h st st' ∧
    store st' = store st ∧
    (r = Ok true → session_health st' !! h = Some "healthy") ∧
    (r = Ok false → session_health st' !! h = Some "restarted") ∧
    (∀ e, r = Raise e → session_health st' = session_health st) ∧
    (always_exits env → ∃ b, r = Ok b).
Proof.
  destruct (check_and_manage_result env user template home h st)
    as (r & st' & Hrun & Hst & Hlab & Hex).
  pose proof (check_and_manage_only_touches env user template home h st) as Hot.
  rewrite Hrun in Hot. exists r, st'. split; [done|]. split; [done|].
  split; [done|]. split; [by intros ->|]. split; [by intros ->|].
  split; [by intros e ->|done].
Qed.

(** When every subprocess exits with zero, a reconciled host has a session
    and is labelled healthy. *)
Lemma check_and_manage_succeeds (h : string) (s : state) :
  always_succeeds env →
  ∃ s', reconcile h s = (Ok true, s') ∧
    h ∈ active_sessions s' ∧ session_health s' !! h = Some "healthy".
Proof.
  intros Hup. unfold check_and_manage_ssh_session. unfold Mbind at 1.
  destruct (start_session_cases env user template home h s)
    as [[Hin H1]|[(_ & _ & H1)|(_ & Hf & _)]].
  3:{ destruct (Hup (length (calls s))) as [out Ho]. by destruct (Hf out). }
  all: rewrite H1; unfold Mbind at 1; unfold subprocess_run;
    match goal with |- context [env ?n] => destruct (Hup n) as [out ->] end;
    eexists; (split; [reflexivity|]); simpl; rewrite lookup_insert_eq;
    split; [set_solver|done].
Qed.

Lemma reconciled_succeeds (l : list string) (s : state) :
  always_succeeds env →
  ∀ h, h ∈ l →
    h ∈ active_sessions (reconciled env user template home l s) ∧
    session_health (reconciled env user template home l s) !! h = Some "healthy".
Proof.
  intros Hup. revert s. induction l as [|x l IH]; intros s h Hh;
    [by apply elem_of_nil in Hh|].
  unfold reconciled in *. simpl.
  destruct (decide (h ∈ l)) as [Hin|Hnin]; [by apply IH|].
  apply elem_of_cons in Hh as [->|?]; [|done].
  destruct (reconciled_spec env user template home l (snd (reconcile x s)))
    as (_ & R2 & _).
  destruct (R2 x Hnin) as [Ha Hl]. unfold reconciled in Ha, Hl.
  rewrite Ha, Hl.
  destruct (check_and_manage_succeeds x s Hup) as (s' & -> & ? & ?). done.
Qed.

(** A host without a session after the parallel start has its old label. *)
Lemma parallel_unlabelled (hostnames : gset string) (s : state) (h : string) :
  h ∉ active_sessions
        (snd (start_sessions_parallel env user template home hostnames
                (Some _progress) s)) →
  session_health
    (snd (start_sessions_parallel env user template home hostnames
            (Some _progress) s)) !! h
  = session_health s !! h.
Proof.
  rewrite parallel_unfold.
  destruct (bool_decide (hostnames ∖ active_sessions s = ∅)); [done|].
  destruct (Mfor_parallel env user template home
              (sorted (hostnames ∖ active_sessions s)) s)
    as (s' & -> & _ & _ & _ & H4 & _).
  { apply sorted_NoDup. }
  { intros x Hx%elem_of_sorted. clear -Hx. set_solver. }
  simpl. intros Hh. apply H4. by right.
Qed.

Lemma startup_keeps_invariant (c : catalog) (st : state) :
  health_implies_session st →
  health_implies_session
    (snd (startup_restore_sessions env user template home coco c st)).
Proof.
  intros Hinv.
  destruct (cleanup_stale_sockets_runs env user template st)
    as (s1' & Hc' & Ha1 & Hh1 & _).
  destruct (startup_unfold env user template home coco c st) as (s1 & Hc & Hcase).
  rewrite Hc in Hc'. injection Hc' as <-.
  assert (Hinv1 : health_implies_session s1).
  { intros h Hh. rewrite Hh1 in Hh. apply Ha1. by apply Hinv. }
  destruct (chosen_roster coco c st) as [contents|]; [|by rewrite Hcase].
  destruct Hcase as (s3 & _ & _ & Ha3 & Hh3 & _ & _ & ->).
  assert (Hinv3 : health_implies_session s3).
  { intros h Hh. rewrite Hh3 in Hh. rewrite Ha3. by apply Hinv1. }
  destruct (rmap node_hostname (node_cache s3)) as [hs|e]; [|done].
  pose proof (parallel_unlabelled (list_to_set hs) s3) as Hun.
  destruct (parallel_runs env user template home (list_to_set hs) s3)
    as (s' & Hrun & _ & Hsub & _).
  rewrite Hrun in Hun |- *. cbn [snd] in *. intros h Hh.
  destruct (decide (h ∈ active_sessions s')) as [?|Hnin]; [done|].
  rewrite (Hun h Hnin) in Hh. by apply Hsub, Hinv3.
Qed.

Lemma refresh_keeps_invariant (c : catalog) (st : state) :
  always_succeeds env →
  health_implies_session st →
  health_implies_session
    (snd (refresh_iteration env user template home coco c st)).
Proof.
  intros Hup Hinv.
  unfold refresh_iteration. unfold Mtry at 1.
  destruct (let? raw_nodes := nodes_response c in
            filter_api_nodes coco raw_nodes (fetch_participants c))
    as [contents|e]; [|done].
  unfold Mbind at 1. unfold new_objects. unfold Mbind at 1.
  set (filtered := imap _ contents). set (s1 := set_next_oid _ st).
  assert (∃ s2, save_node_cache (disk_ok c) filtered s1 = (Ok tt, s2) ∧
                session_health s2 = session_health st ∧
                active_sessions s2 = active_sessions st) as (s2 & -> & Hh2 & Ha2).
  { unfold save_node_cache. destruct (disk_ok c); by eexists. }
  unfold Mbind at 1. unfold Mmodify at 1.
  set (s3 := set_node_cache filtered s2).
  destruct (rmap node_hostname filtered) as [hs|e].
  2:{ subst s3. simpl. intros h Hh. simpl in Hh.
      change (h ∈ active_sessions s2). rewrite Ha2. apply Hinv.
      by rewrite <- Hh2. }
  unfold Mbind at 1. rewrite Mfor_reconcile.
  pose proof (reconciled_succeeds (sorted (list_to_set hs)) s3 Hup) as Hok.
  set (s4 := reconciled _ _ _ _ _ s3) in *.
  unfold Mbind at 1. unfold Mget. unfold Mbind at 1. unfold Mmodify at 1.
  set (s5 := set_health _ s4).
  destruct (Mfor_stop_any env user template home
              (elements (dom (session_health s4) ∖ list_to_set hs)) s5)
    as (s6 & -> & Ha6 & Hh6 & _).
  cbn [snd]. intros h Hh. rewrite Hh6 in Hh. rewrite Ha6.
  subst s5. cbn [session_health set_health active_sessions] in *.
  rewrite !lookup_prune in Hh.
  destruct (decide (h ∈ elements (dom (session_health s4) ∖ list_to_set hs)))
    as [?|Hns]; [by destruct Hh|].
  rewrite list_to_set_elements_L.
  assert (Hin : h ∈ (list_to_set hs : gset string)).
  { destruct (decide (h ∈ (list_to_set hs : gset string))) as [?|Hno]; [done|].
    destruct Hns. apply elem_of_elements, elem_of_difference. split; [|done].
    apply elem_of_dom. destruct Hh as [Hh|Hh]; by eexists. }
  apply elem_of_difference. split; [|by intros [_ ?]%elem_of_difference].
  apply Hok. by apply elem_of_sorted.
Qed.

(** X22: when the health invariant is kept.  If every host labelled
    healthy or restarted has a session, the same holds after
    [startup_restore_sessions], whatever the catalog and the subprocesses
    answer; and if every subprocess exits with zero it holds after
    [run_cache_loop], for any number of refreshes. *)
Theorem X22_invariant_kept (startup : catalog) (iterations : list catalog)
    (st : state) :
  health_implies_session st →
  health_implies_session
    (snd (startup_restore_sessions env user template home coco startup st)) ∧
  (always_succeeds env →
   health_implies_session
     (snd (run_cache_loop env user template home coco startup iterations st))).
Proof.
  intros Hinv. split; [by apply startup_keeps_invariant|].
  intros Hup. unfold run_cache_loop. unfold Mbind at 1. unfold Mget.
  unfold Mbind at 1.
  assert (∃ r s1, (if negb (_startup_done st)
                   then let! _ := startup_restore_sessions env user template
                                    home coco startup in
                        Mmodify (set_startup_done true)
                   else Mret tt) st = (r, s1) ∧ health_implies_session s1)
    as (r & s1 & -> & Hinv1).
  { destruct (negb (_startup_done st)); [|by eexists _, _].
    unfold Mbind.
    pose proof (startup_keeps_invariant startup st Hinv) as Hs.
    destruct (startup_restore_sessions env user template home coco startup st)
      as [[[]|e] s1]; by eexists _, _. }
  destruct r as [[]|e]; [|done].
  apply (Mfor_inv health_implies_session); [|done].
  intros c s _ Hs. by apply refresh_keeps_invariant.
Qed.
End InvariantFacts.

Lemma X22_invariant_kept_witness :
  health_implies_session initial_state ∧
  always_succeeds all_up ∧
  health_implies_session
    (snd (run_cache_loop all_up "rise" default_template "/root" sample_coco
            sample_catalog [sample_catalog] initial_state)).
Proof.
  assert (H0 : health_implies_session initial_state).
  { intros h [Hh|Hh]; simpl in Hh; by rewrite lookup_empty in Hh. }
  assert (Hup : always_succeeds all_up) by (intros n; by exists "").
  split; [exact H0|]. split; [exact Hup|].
  exact (proj2 (X22_invariant_kept all_up "rise" default_template "/root"
                  sample_coco sample_catalog [sample_catalog] initial_state H0)
               Hup).
Defined.

(** ** The options offered for the filters *)

Lemma build_filters_elem (args : list (string * string)) (f : field)
    (allowed : gset string) :
  (f, allowed) ∈ build_filters args ↔
  ∃ value, args_get args (field_name f) = Some value ∧ value ≠ "" ∧
    allowed = list_to_set ((fun v => lower (strip v)) <$> split_on "," value).
Proof.
  unfold build_filters. rewrite list_elem_of_omap. split.
  - intros (f' & _ & Hf).
    destruct (args_get args (field_name f')) as [value|] eqn:Hv; [|done].
    destruct (String.eqb_spec value ""); [done|].
    injection Hf as -> <-. by exists value.
  - intros (value & Hv & Hne & ->). exists f. split.
    + unfold all_fields. destruct f; set_solver.
    + rewrite Hv. by destruct (String.eqb_spec value "").
Qed.

Lemma split_on_lacks (c : ascii) (s : string) :
  lacks c s → split_on c s = [s].
Proof.
  induction s as [|a s IH]; [done|].
  intros [Hne Hs]%lacks_cons. simpl.
  destruct (Ascii.eqb_spec a c); [done|]. by rewrite (IH Hs).
Qed.

Section OptionFacts.
Variable coco : string → string → string.

Lemma fields_loop_spec (node : node_obj) (fields : list field)
    (options : field → gset string) :
  fields_readable node →
  ∃ options', fields_loop node fields options = Ok options' ∧
    ∀ f v, v ∈ options' f ↔
      v ∈ options f ∨
      (f ∈ fields ∧ v ≠ "" ∧ _node_field_value node f = Ok (PStr v)).
Proof.
  intros Hr. revert options. induction fields as [|f0 fields IH]; intros options.
  - exists options. split; [done|]. intros f v. split; [by left|].
    intros [?|[Hin _]]; [done|]. by apply elem_of_nil in Hin.
  - destruct (Hr f0) as [s Hs]. cbn [fields_loop]. rewrite Hs. cbn [rbind truthy].
    destruct (String.eqb_spec s "") as [->|Hne]; cbn [negb rbind].
    + destruct (IH options) as (options' & -> & Hspec). exists options'.
      split; [done|]. intros f v. rewrite Hspec, elem_of_cons. split.
      * intros [?|(Hin & Hv & Hval)]; [by left|]. right. by repeat split; [right|..].
      * intros [?|([->|Hin] & Hv & Hval)]; [by left| |right; by repeat split].
        rewrite Hs in Hval. congruence.
    + destruct (IH (options_add options f0 s)) as (options' & -> & Hspec).
      exists options'. split; [done|]. intros f v.
      rewrite Hspec, elem_of_cons. unfold options_add.
      destruct (decide (f = f0)) as [->|Hnf].
      * rewrite elem_of_union, elem_of_singleton. split.
        -- intros [[?| ->]|(Hin & Hv & Hval)]; [by left| |].
           ++ right. by repeat split; [left|..].
           ++ right. by repeat split; [right|..].
        -- intros [?|(_ & Hv & Hval)]; [by left; left|]. left. right.
           rewrite Hs in Hval. congruence.
      * split.
        -- intros [?|(Hin & Hv & Hval)]; [by left|]. right. by repeat split; [right|..].
        -- intros [?|([?|Hin] & Hv & Hval)]; [by left|done|]. right. by repeat split.
Qed.

Lemma options_loop_spec (nodes : list node_obj) (options : field → gset string) :
  Forall fields_readable nodes →
  ∃ options', options_loop nodes options = Ok options' ∧
    ∀ f v, v ∈ options' f ↔
      v ∈ options f ∨
      (v ≠ "" ∧ ∃ n, n ∈ nodes ∧ _node_field_value n f = Ok (PStr v)).
Proof.
  revert options. induction nodes as [|n nodes IH]; intros options Hall.
  - exists options. split; [done|]. intros f v. split; [by left|].
    intros [?|(_ & n & Hin & _)]; [done|]. by apply elem_of_nil in Hin.
  - apply Forall_cons in Hall as [Hn Hall]. cbn [options_loop].
    destruct (fields_loop_spec n all_fields options Hn) as (o1 & -> & H1).
    cbn [rbind]. destruct (IH o1 Hall) as (o2 & -> & H2).
    exists o2. split; [done|]. intros f v. rewrite H2, H1. split.
    + intros [[?|(_ & Hv & Hval)]|(Hv & m & Hm & Hval)]; [by left| |].
      * right. split; [done|]. exists n. split; [by left|done].
      * right. split; [done|]. exists m. split; [by right|done].
    + intros [?|(Hv & m & [->|Hm]%elem_of_cons & Hval)]; [by left; left| |].
      * left. right. split; [|done]. unfold all_fields. destruct f; set_solver.
      * right. split; [done|]. by exists m.
Qed.

(** X23: the options of [/api/filter-options].  Over a roster of
    well-formed records the handler does not raise; its answer has one list
    for each filter field; the options of a field are
    exactly the non-empty values that healthy nodes have for it; every
    country code offered has an entry in [countryNames], which is
    [get_country_name] of it.  And an offered option that contains no comma
    and neither starts nor ends with a blank, sent back as the value of
    its field in a [/probe] request, is a filter that some healthy node
    passes. *)
Theorem X23_filter_options_offered (st : state) (g : rng) :
  Forall wf_node (node_cache st) →
  ∃ res,
    filter_options coco st g = Ok res ∧
    (option_lists res).*1 = all_fields ∧
    (∀ f vals v, (f, vals) ∈ option_lists res →
       (v ∈ vals ↔
        v ≠ "" ∧ ∃ n, n ∈ node_cache st ∧
                      is_healthy (session_health st) n = Ok true ∧
                      _node_field_value n f = Ok (PStr v))) ∧
    (∀ vals cc, (F_countrycode, vals) ∈ option_lists res →
       countryNames res !! cc
       = if decide (cc ∈ vals) then Some (get_country_name coco cc) else None) ∧
    (∀ f vals v args, (f, vals) ∈ option_lists res → v ∈ vals →
       lacks "," v → strip v = v →
       args_get args (field_name f) = Some v →
       ∃ allowed n,
         (f, allowed) ∈ build_filters args ∧
         n ∈ node_cache st ∧ matching (session_health st) [(f, allowed)] n).
Proof.
  intros Hwf. unfold filter_options.
  rewrite fetch_healthy_nodes_all by (done || by intros).
  cbn [rbind fst].
  set (nodes := filter (matching (session_health st) []) (node_cache st)).
  assert (Hnodes : ∀ n, n ∈ nodes ↔
            n ∈ node_cache st ∧ is_healthy (session_health st) n = Ok true).
  { intros n. subst nodes. rewrite list_elem_of_filter. unfold matching.
    rewrite Forall_nil. tauto. }
  assert (Hread : Forall fields_readable nodes).
  { apply Forall_forall. intros n [Hn Hh]%Hnodes.
    rewrite Forall_forall in Hwf. by eapply wf_healthy_readable; [apply Hwf|]. }
  destruct (options_loop_spec nodes (fun _ => ∅) Hread) as (options & -> & Hopt).
  cbn [rbind]. eexists. split; [reflexivity|].
  cbn [option_lists countryNames].
  assert (Hvals : ∀ f v, v ∈ options f ↔
            v ≠ "" ∧ ∃ n, n ∈ node_cache st ∧
                          is_healthy (session_health st) n = Ok true ∧
                          _node_field_value n f = Ok (PStr v)).
  { intros f v. rewrite Hopt. split.
    - intros [?%elem_of_empty|(Hv & n & [Hn Hh]%Hnodes & Hval)]; [done|].
      split; [done|]. by exists n.
    - intros (Hv & n & Hn & Hh & Hval). right. split; [done|]. exists n.
      split; [by apply Hnodes|done]. }
  assert (Hlists : ∀ f vals,
            (f, vals) ∈ (fun f => (f, sorted (options f))) <$> all_fields →
            vals = sorted (options f)).
  { intros f vals (f' & [= -> ->] & _)%list_elem_of_fmap. done. }
  split; [by rewrite <- list_fmap_compose, list_fmap_id|].
  split; [|split].
  - intros f vals v ->%Hlists. by rewrite elem_of_sorted.
  - intros vals cc ->%Hlists.
    destruct (decide (cc ∈ sorted (options F_countrycode))) as [Hin|Hnin].
    + apply elem_of_list_to_map.
      * rewrite <- list_fmap_compose. simpl. rewrite list_fmap_id.
        apply NoDup_elements.
      * apply list_elem_of_fmap. exists cc. split; [done|].
        by apply elem_of_elements, elem_of_sorted.
    + apply not_elem_of_list_to_map.
      rewrite <- list_fmap_compose. simpl. rewrite list_fmap_id.
      rewrite elem_of_elements. by rewrite elem_of_sorted in Hnin.
  - intros f vals v args ->%Hlists Hv%elem_of_sorted Hcomma Hstrip Harg.
    apply Hvals in Hv as (Hne & n & Hn & Hh & Hval).
    exists {[lower v]}, n. split.
    + apply build_filters_elem. exists v. split; [done|]. split; [done|].
      rewrite (split_on_lacks _ _ Hcomma). simpl. rewrite Hstrip. set_solver.
    + split; [done|]. split; [done|]. constructor; [|constructor].
      unfold passes_filter. simpl. rewrite Hval. simpl.
      by rewrite bool_decide_eq_true_2 by set_solver.
Qed.
End OptionFacts.

Lemma X23_filter_options_offered_witness :
  Forall wf_node (node_cache sample_state) ∧
  ∃ res, filter_options sample_coco sample_state [] = Ok res ∧
         (option_lists res).*1 = all_fields.
Proof.
  assert (Hwf : Forall wf_node (node_cache sample_state)).
  { eapply Forall_impl; [apply sample_roster_complete|]. by intros n [Hn _]. }
  split; [exact Hwf|].
  destruct (X23_filter_options_offered sample_coco sample_state [] Hwf)
    as (res & Hres & Hkeys & _).
  exists res. by split.
Defined.

(** ** The [node] filter *)

Lemma split_on_label (c : ascii) (s : string) :
  ∃ short l, split_on c s = short :: l ∧ lacks c short ∧
             (s = short ∨ ∃ rest, s = short ++ String c rest).
Proof.
  induction s as [|a s (short & l & Hs & Hl & Hcase)]; simpl.
  - exists "", []. split; [done|]. split; [done|]. by left.
  - destruct (Ascii.eqb_spec a c) as [->|Hne].
    + exists "", (split_on c s). split; [done|]. split; [done|]. right. by exists s.
    + rewrite Hs. exists (String a short), l. split; [done|].
      split; [by apply lacks_cons|].
      destruct Hcase as [->|[rest ->]]; [by left|]. right. by exists rest.
Qed.

Lemma lower_ascii_dot (a : ascii) : lower_ascii a = "."%char → a = "."%char.
Proof.
  destruct a as [[] [] [] [] [] [] [] []]; vm_compute; congruence.
Qed.

Lemma lacks_lower (s : string) : lacks "." s → lacks "." (lower s).
Proof.
  induction s as [|a s IH]; [done|].
  intros [Hne Hs]%lacks_cons. unfold lower. simpl. apply lacks_cons.
  split; [|by apply IH]. intros ?%lower_ascii_dot. done.
Qed.

Lemma lower_dot (s : string) : ¬ lacks "." s → ¬ lacks "." (lower s).
Proof.
  induction s as [|a s IH]; [done|]. intros Hs Hl. apply Hs.
  unfold lower in Hl. simpl in Hl. apply lacks_cons in Hl as [Hne Hl].
  apply lacks_cons. split.
  - intros ->. by apply Hne.
  - destruct (decide (lacks "." s)) as [|Hn]; [done|]. by destruct (IH Hn).
Qed.

Lemma is_space_dot (a : ascii) : is_space a = true → a ≠ "."%char.
Proof. by intros Ha ->. Qed.

Lemma lacks_lstrip (s : string) : lacks "." (lstrip s) → lacks "." s.
Proof.
  induction s as [|a s IH]; [done|]. simpl.
  destruct (is_space a) eqn:Ha; [|done].
  intros Hl. apply lacks_cons. split; [by apply is_space_dot|by apply IH].
Qed.

Lemma lacks_rstrip (s : string) : lacks "." (rstrip s) → lacks "." s.
Proof.
  induction s as [|a s IH]; [done|]. simpl.
  destruct (rstrip s) as [|b r] eqn:Hr.
  - intros Hl. apply lacks_cons. split; [|by apply IH].
    destruct (is_space a) eqn:Ha; [by apply is_space_dot|].
    by apply lacks_cons in Hl as [? _].
  - intros [Hne Hl]%lacks_cons. apply lacks_cons. split; [done|by apply IH].
Qed.

Lemma strip_dot (s : string) : ¬ lacks "." s → ¬ lacks "." (strip s).
Proof.
  intros Hs Hl. apply Hs. by apply lacks_lstrip, lacks_rstrip.
Qed.

(** X24: the [node] filter compares the text of the hostname before its
    first dot.  For a node whose hostname is a string there is a first
    label, without a dot, that is the hostname or is followed in it by a
    dot, and the node passes a [node] filter exactly when the lower-case
    label is one of the allowed values.  So a request whose [node] values
    all contain a dot (a full hostname, say) selects no node at all,
    whatever the other filters and the limit are. *)
Theorem X24_node_filter_first_label (cache : list node_obj)
    (health : gmap string string) :
  Forall wf_node cache →
  (∀ n h, ofields n !! "hostname" = Some (PStr h) →
     ∃ short, lacks "." short ∧
       (h = short ∨ ∃ rest, h = short ++ String "." rest) ∧
       ∀ allowed, passes_filter (F_node, allowed) n
                  = Ok (bool_decide (lower short ∈ allowed))) ∧
  (∀ args value limit g,
     args_get args "node" = Some value → value ≠ "" →
     (∀ item, item ∈ split_on "," value → ¬ lacks "." item) →
     (∀ L, limit = Some L → 0 ≤ L) →
     fetch_healthy_nodes cache health limit (build_filters args) g
     = Ok ([], g)).
Proof.
  intros Hwf.
  assert (Hlabel : ∀ n h, ofields n !! "hostname" = Some (PStr h) →
     ∃ short, lacks "." short ∧
       (h = short ∨ ∃ rest, h = short ++ String "." rest) ∧
       ∀ allowed, passes_filter (F_node, allowed) n
                  = Ok (bool_decide (lower short ∈ allowed))).
  { intros n h Hh. destruct (split_on_label "." h) as (short & l & Hs & Hl & Hcase).
    exists short. split; [done|]. split; [done|]. intros allowed.
    unfold passes_filter, _node_field_value, getitem. simpl. rewrite Hh. simpl.
    rewrite Hs. done. }
  split; [exact Hlabel|].
  intros args value limit g Harg Hne Hdots Hlim.
  assert (Hnone : filter (matching health (build_filters args)) cache = []).
  { destruct (filter (matching health (build_filters args)) cache)
      as [|n rest] eqn:Hf; [done|]. exfalso.
    assert (Hn : n ∈ filter (matching health (build_filters args)) cache)
      by (rewrite Hf; left).
    apply list_elem_of_filter in Hn as [[Hh Hpass] Hn].
    assert (Hin : (F_node, list_to_set ((fun v => lower (strip v))
                                           <$> split_on "," value))
                  ∈ build_filters args).
    { apply build_filters_elem. by exists value. }
    rewrite Forall_forall in Hpass. specialize (Hpass _ Hin).
    apply healthy_hostname in Hh as (h & Hh & _).
    destruct (Hlabel n h Hh) as (short & Hl & _ & Hp).
    rewrite Hp in Hpass. injection Hpass as Hpass.
    apply bool_decide_eq_true_1 in Hpass.
    apply elem_of_list_to_set, list_elem_of_fmap in Hpass as (item & Heq & Hitem).
    apply (lower_dot (strip item)); [by apply strip_dot, Hdots|].
    rewrite <- Heq. by apply lacks_lower. }
  rewrite fetch_healthy_nodes_all; [by rewrite Hnone|done|].
  intros L HL. rewrite Hnone. simpl. by apply Hlim.
Qed.

Lemma X24_node_filter_first_label_witness :
  Forall wf_node sample_roster ∧
  fetch_healthy_nodes sample_roster sample_health (Some 2)
    (build_filters [("node", "a.example")]) [] = Ok ([], []).
Proof.
  assert (Hwf : Forall wf_node sample_roster).
  { eapply Forall_impl; [apply sample_roster_complete|]. by intros n [Hn _]. }
  split; [exact Hwf|].
  destruct (X24_node_filter_first_label sample_roster sample_health Hwf)
    as [_ Hnone].
  apply (Hnone [("node", "a.example")] "a.example" (Some 2) []).
  - reflexivity.
  - discriminate.
  - intros item Hitem. apply list_elem_of_singleton in Hitem as ->. discriminate.
  - intros L [= <-]. lia.
Defined.
